(** * HireSense AI: the resume-ranking core of [app.py]

    A shallow embedding of the text-extraction adapter
    ([extract_text_from_pdf]), the scorer ([rank_resumes]) and the ranking
    branch of [show_dashboard], followed by the properties of the
    specification that concern them.

    Conventions of the embedding.
    - A Python [str] is a [string] whose characters are the code points
      below 256; the character classes ([str.isspace], the regular
      expression class [\w], [str.lower]) are Python's tables on that range.
    - Code that can raise returns a [result]; [try]/[except Exception] is a
      match on it.
    - The numbers computed by scikit-learn are binary64 numbers.
      [Module sklearn] takes the arithmetic of [TfidfVectorizer] and
      [cosine_similarity] exact, over the real numbers ([R]); [Module fp]
      has the same functions over any arithmetic, with the exact one,
      binary64 itself and every rounded arithmetic over [R] as instances.
    - [pypdf], [TfidfVectorizer] and [cosine_similarity] are libraries, not
      code of the repository; their behaviour is modelled in [Module pypdf]
      and [Module sklearn] from their documented defaults. *)

From Stdlib Require Import Floats.
From Stdlib Require Import List String Ascii Bool Arith Lia.
From Stdlib Require Import Permutation Sorted.
From Stdlib Require Import ZArith.
From Stdlib Require Import Reals Lra.
Import ListNotations.

Local Open Scope string_scope.
Local Open Scope list_scope.
Local Open Scope nat_scope.

(** ** Python strings *)

Module Py.

Definition ord (c : ascii) : nat := nat_of_ascii c.

Definition between (lo hi n : nat) : bool := (lo <=? n) && (n <=? hi).

(** [str.isspace] on one character. *)
Definition isspace (c : ascii) : bool :=
  let n := ord c in
  between 9 13 n || between 28 32 n || (n =? 133) || (n =? 160).

(** The class [\w] of [re] on [str] patterns: alphanumeric or [_]. *)
Definition isword (c : ascii) : bool :=
  let n := ord c in
  between 48 57 n || between 65 90 n || (n =? 95) || between 97 122 n
  || (n =? 170) || between 178 179 n || (n =? 181) || between 185 186 n
  || between 188 190 n || between 192 214 n || between 216 246 n
  || between 248 255 n.

(** [str.lower] on one character. *)
Definition lower_char (c : ascii) : ascii :=
  let n := ord c in
  if between 65 90 n || between 192 214 n || between 216 222 n
  then ascii_of_nat (n + 32) else c.

Fixpoint lower (s : string) : string :=
  match s with
  | EmptyString => EmptyString
  | String c s' => String (lower_char c) (lower s')
  end.

(** Truth value of a [str]: non-empty. *)
Definition truthy (s : string) : bool :=
  match s with EmptyString => false | String _ _ => true end.

Fixpoint lstrip (s : string) : string :=
  match s with
  | EmptyString => EmptyString
  | String c s' => if isspace c then lstrip s' else s
  end.

Definition reverse (s : string) : string :=
  string_of_list_ascii (rev (list_ascii_of_string s)).

Definition rstrip (s : string) : string := reverse (lstrip (reverse s)).

(** [s.strip()] *)
Definition strip (s : string) : string := rstrip (lstrip s).

(** [sub in s] for two [str]. *)
Fixpoint contains (sub s : string) : bool :=
  String.prefix sub s
  || match s with
     | EmptyString => false
     | String _ s' => contains sub s'
     end.

(** Exceptions of class [Exception]; [str e] is [str(e)]. *)
Inductive exn : Type := Exception (msg : string).

Definition str (e : exn) : string := match e with Exception m => m end.

Inductive result (A : Type) : Type :=
| Ok (a : A)
| Raise (e : exn).
Arguments Ok {A} a.
Arguments Raise {A} e.

Definition bind {A B} (r : result A) (k : A -> result B) : result B :=
  match r with
  | Ok a => k a
  | Raise e => Raise e
  end.

End Py.

Import Py.

Notation "x <- r ;; k" := (bind r (fun x => k))
  (at level 61, r at next level, right associativity).

Definition newline : string := String (ascii_of_nat 10) EmptyString.

(** ** pypdf, as far as [extract_text_from_pdf] uses it *)

Module pypdf.

(** A page: what [page.extract_text()] does. *)
Record Page : Type := { extract_text : result string }.

(** An uploaded file: its [name] and what [PdfReader(file)] does, a
    raised exception or the reader's [pages]. *)
Record UploadedFile : Type :=
  { name : string;
    PdfReader : result (list Page) }.

End pypdf.

Import pypdf.

(** ** Resume processing functions *)

(** The [for page in pdf.pages] loop of [extract_text_from_pdf], [text]
    being the text accumulated so far. *)
Fixpoint read_pages (pages : list Page) (text : string) : result string :=
  match pages with
  | [] => Ok text
  | page :: rest =>
      page_text <- extract_text page ;;
      read_pages rest
        (if truthy page_text then (text ++ page_text ++ newline)%string
         else text)
  end.

Definition no_readable_text : string := "No readable text found.".

Definition error_prefix : string := "Error extracting text".

(** The body of the [try] block. *)
Definition extract_text_try (file : UploadedFile) : result string :=
  pages <- PdfReader file ;;
  text <- read_pages pages "" ;;
  Ok (if truthy text then strip text else no_readable_text).

Definition extract_text_from_pdf (file : UploadedFile) : string :=
  match extract_text_try file with
  | Ok text => text
  | Raise e => (error_prefix ++ ": " ++ str e)%string
  end.

(** ** scikit-learn, as far as [rank_resumes] uses it *)

Module sklearn.

(** *** [TfidfVectorizer()] with its defaults

    [lowercase=True], [token_pattern=r"(?u)\b\w\w+\b"], no stop words,
    [min_df=1], [max_df=1.0], [use_idf=True], [smooth_idf=True],
    [sublinear_tf=False], [norm="l2"]. *)

(** End of a run of [\w] characters ([run] holds it reversed): a token
    when it has two characters or more. *)
Definition flush (run : list ascii) (k : list string) : list string :=
  if 2 <=? List.length run then string_of_list_ascii (rev run) :: k else k.

(** [re.findall] of the token pattern: the maximal runs of [\w]
    characters of length at least two, from left to right. *)
Fixpoint findall (s : string) (run : list ascii) : list string :=
  match s with
  | EmptyString => flush run []
  | String c s' =>
      if isword c then findall s' (c :: run)
      else flush run (findall s' [])
  end.

(** The analyzer: lowercase, then tokenize. *)
Definition analyze (doc : string) : list string := findall (lower doc) [].

(** The terms of the fitted vocabulary, one column each.  The library
    numbers the columns in sorted order; here they stand in order of
    first occurrence, which no dot product or norm can observe. *)
Definition vocabulary (docs : list string) : list string :=
  nodup string_dec (flat_map analyze docs).

(** Raw count of term [t] in document [d]. *)
Definition tf (t : string) (d : string) : nat :=
  count_occ string_dec (analyze d) t.

(** Number of documents of the corpus in which [t] occurs. *)
Definition df (docs : list string) (t : string) : nat :=
  List.length (filter (fun d => 0 <? tf t d) docs).

(** Smoothed inverse document frequency:
    [log((1 + n_samples) / (1 + df)) + 1]. *)
Definition idf (docs : list string) (t : string) : R :=
  (ln ((1 + INR (List.length docs)) / (1 + INR (df docs t))) + 1)%R.

(** The row of document [d] before normalisation: [tf * idf]. *)
Definition tfidf (docs : list string) (d : string) : list R :=
  map (fun t => (INR (tf t d) * idf docs t)%R) (vocabulary docs).

Definition dot (x y : list R) : R :=
  fold_right (fun p acc => (fst p * snd p + acc)%R) 0%R (combine x y).

(** Euclidean norm of a row. *)
Definition row_norm (x : list R) : R := sqrt (dot x x).

(** [_handle_zeros_in_scale]: a zero norm is replaced by one. *)
Definition handle_zeros (n : R) : R :=
  if Req_dec_T n 0 then 1%R else n.

(** [normalize(X, norm="l2")] on one row. *)
Definition normalize (x : list R) : list R :=
  map (fun v => (v / handle_zeros (row_norm x))%R) x.

Definition empty_vocabulary : exn :=
  Exception "empty vocabulary; perhaps the documents only contain stop words".

(** [TfidfVectorizer().fit_transform(documents).toarray()]: one
    normalised row per document, or [ValueError] when no document has a
    token. *)
Definition fit_transform (docs : list string) : result (list (list R)) :=
  match vocabulary docs with
  | [] => Raise empty_vocabulary
  | _ :: _ => Ok (map (fun d => normalize (tfidf docs d)) docs)
  end.

(** *** [cosine_similarity(X, Y)] *)

(** The [ValueError] of [check_pairwise_arrays] for an argument without
    rows; the library's message also prints the shape of the array. *)
Definition no_samples : exn :=
  Exception "Found array with 0 sample(s) while a minimum of 1 is required by check_pairwise_arrays.".

(** Both arguments are normalised again and multiplied; an argument
    without rows is refused. *)
Definition cosine_similarity (X Y : list (list R)) : result (list (list R)) :=
  match X, Y with
  | [], _ | _, [] => Raise no_samples
  | _, _ =>
      Ok (map (fun x => map (fun y => dot (normalize x) (normalize y)) Y) X)
  end.

End sklearn.

Import sklearn.

(** [vectors[0]] on an array without rows. *)
Definition index_error : exn :=
  Exception "index 0 is out of bounds for axis 0 with size 0".

(** Ranks resumes based on their similarity to the job description. *)
Definition rank_resumes (job_description : string) (resumes : list string)
  : result (list R) :=
  let documents := job_description :: resumes in
  vectors <- fit_transform documents ;;
  match vectors with
  | [] => Raise index_error
  | job_description_vector :: resume_vectors =>
      cosine_similarities <-
        cosine_similarity [job_description_vector] resume_vectors ;;
      Ok (List.concat cosine_similarities)
  end.

(** ** Floating point

    The arrays of [TfidfVectorizer] and [cosine_similarity] hold binary64
    numbers, and every operation on them rounds.  [Module fp] has the
    functions of [Module sklearn] over an arbitrary arithmetic: the same
    tokens, counts and document frequencies, and the operations of the
    arithmetic in the place of the exact ones. *)

Module fp.

(** The operations the scorer uses.  [of_nat] converts a count, [is_zero]
    is the test [== 0] on a norm. *)
Record arithmetic (T : Type) : Type :=
  { zero : T;
    one : T;
    of_nat : nat -> T;
    add : T -> T -> T;
    mul : T -> T -> T;
    div : T -> T -> T;
    sqrt : T -> T;
    log : T -> T;
    is_zero : T -> bool }.
Arguments zero {T} a.
Arguments one {T} a.
Arguments of_nat {T} a n.
Arguments add {T} a x y.
Arguments mul {T} a x y.
Arguments div {T} a x y.
Arguments sqrt {T} a x.
Arguments log {T} a x.
Arguments is_zero {T} a x.

Section Pipeline.

Context {T : Type}.
Variable F : arithmetic T.

(** [log((1 + n_samples) / (1 + df)) + 1]; the two sums are sums of
    counts. *)
Definition idf (docs : list string) (t : string) : T :=
  add F (log F (div F (of_nat F (1 + List.length docs))
                      (of_nat F (1 + df docs t))))
      (one F).

Definition tfidf (docs : list string) (d : string) : list T :=
  map (fun t => mul F (of_nat F (tf t d)) (idf docs t)) (vocabulary docs).

Definition dot (x y : list T) : T :=
  fold_right (fun p acc => add F (mul F (fst p) (snd p)) acc) (zero F)
             (combine x y).

Definition row_norm (x : list T) : T := sqrt F (dot x x).

Definition handle_zeros (n : T) : T :=
  if is_zero F n then one F else n.

Definition normalize (x : list T) : list T :=
  map (fun v => div F v (handle_zeros (row_norm x))) x.

Definition fit_transform (docs : list string) : result (list (list T)) :=
  match vocabulary docs with
  | [] => Raise empty_vocabulary
  | _ :: _ => Ok (map (fun d => normalize (tfidf docs d)) docs)
  end.

Definition cosine_similarity (X Y : list (list T)) : result (list (list T)) :=
  match X, Y with
  | [], _ | _, [] => Raise no_samples
  | _, _ =>
      Ok (map (fun x => map (fun y => dot (normalize x) (normalize y)) Y) X)
  end.

Definition rank_resumes (job_description : string) (resumes : list string)
  : result (list T) :=
  let documents := job_description :: resumes in
  vectors <- fit_transform documents ;;
  match vectors with
  | [] => Raise index_error
  | job_description_vector :: resume_vectors =>
      cosine_similarities <-
        cosine_similarity [job_description_vector] resume_vectors ;;
      Ok (List.concat cosine_similarities)
  end.

(** The score of document [r] against the query [q] in the corpus
    [docs]. *)
Definition similarity (docs : list string) (q r : string) : T :=
  dot (normalize (normalize (tfidf docs q)))
      (normalize (normalize (tfidf docs r))).

End Pipeline.

End fp.

(** The exact arithmetic of [Module sklearn]. *)
Definition exact : fp.arithmetic R :=
  {| fp.zero := 0%R;
     fp.one := 1%R;
     fp.of_nat := INR;
     fp.add := Rplus;
     fp.mul := Rmult;
     fp.div := Rdiv;
     fp.sqrt := sqrt;
     fp.log := ln;
     fp.is_zero := fun x => if Req_dec_T x 0 then true else false |}.

(** binary64, the arithmetic of the arrays: every operation is the IEEE 754
    operation, rounded to nearest.  The logarithm is the one of the C
    library, which the standard does not fix: it is a parameter. *)
Definition binary64 (log : float -> float) : fp.arithmetic float :=
  {| fp.zero := PrimFloat.zero;
     fp.one := PrimFloat.one;
     fp.of_nat := fun n => PrimFloat.of_uint63 (Uint63.of_Z (Z.of_nat n));
     fp.add := PrimFloat.add;
     fp.mul := PrimFloat.mul;
     fp.div := PrimFloat.div;
     fp.sqrt := PrimFloat.sqrt;
     fp.log := log;
     fp.is_zero := fun x => PrimFloat.eqb x PrimFloat.zero |}.

(** The standard model of floating-point arithmetic with unit roundoff
    [u], for an arithmetic whose numbers are real numbers: without
    overflow or underflow, an operation of binary64 returns the exact
    result with a relative error of at most [u = 2^-53].  Counts are
    converted without error.  Of the logarithm less is asked: one correct
    bit. *)
Record standard_model (u : R) (F : fp.arithmetic R) : Prop :=
  { unit_roundoff : (0 <= u <= / 2 ^ 53)%R;
    zero_exact : fp.zero F = 0%R;
    one_exact : fp.one F = 1%R;
    of_nat_exact : forall n, fp.of_nat F n = INR n;
    is_zero_exact : forall x, fp.is_zero F x = true <-> x = 0%R;
    add_rounded : forall x y, exists d,
        (Rabs d <= u)%R /\ fp.add F x y = ((x + y) * (1 + d))%R;
    mul_rounded : forall x y, exists d,
        (Rabs d <= u)%R /\ fp.mul F x y = ((x * y) * (1 + d))%R;
    div_rounded : forall x y, exists d,
        (Rabs d <= u)%R /\ fp.div F x y = ((x / y) * (1 + d))%R;
    sqrt_rounded : forall x, exists d,
        (Rabs d <= u)%R /\ fp.sqrt F x = (sqrt x * (1 + d))%R;
    log_rounded : forall x, exists d,
        (Rabs d <= 1 / 2)%R /\ fp.log F x = (ln x * (1 + d))%R }.

(** ** [sorted(iterable, key=..., reverse=...)]

    [list.sort] is a stable sort that compares keys with [<] only; with
    [reverse=True] it reverses the list, sorts it and reverses it again,
    which keeps equal keys in their original order.  The sort itself is
    written as an insertion sort, the stable sort of the keys being unique
    whenever [<] is a strict weak order. *)

Section Sorted.

Context {A K : Type}.
Variable key : A -> K.
Variable lt : K -> K -> bool.

(** [x] stood before every element of [l] in the list being sorted. *)
Fixpoint insert (x : A) (l : list A) : list A :=
  match l with
  | [] => [x]
  | y :: l' => if lt (key y) (key x) then y :: insert x l' else x :: l
  end.

Fixpoint stable_sort (l : list A) : list A :=
  match l with
  | [] => []
  | x :: l' => insert x (stable_sort l')
  end.

Definition sorted (l : list A) (reverse : bool) : list A :=
  if reverse then rev (stable_sort (rev l)) else stable_sort l.

End Sorted.

(** [<] on the scores returned by [rank_resumes]. *)
Definition Rltb (x y : R) : bool := if Rlt_dec x y then true else false.

(** ** The ranking branch of [show_dashboard] *)

(** One row of [results_df]. *)
Record Row (score : Type) : Type :=
  { Rank : nat;
    Resume_Name : string;
    Match_Score : string;
    Raw_Score : score }.
Arguments Rank {score} r.
Arguments Resume_Name {score} r.
Arguments Match_Score {score} r.
Arguments Raw_Score {score} r.

Section ResultsFrame.

Context {score : Type}.
Variable lt : score -> score -> bool.
(** [round(x, ndigits)], [x * 100] and [str(x)] on scores. *)
Variable round : score -> nat -> score.
Variable times100 : score -> score.
Variable repr : score -> string.

(** [sorted(zip(file_names, scores), key=lambda x: x[1], reverse=True)] *)
Definition ranked (file_names : list string) (scores : list score)
  : list (string * score) :=
  sorted snd lt (combine file_names scores) true.

(** [pd.DataFrame({"Rank": range(1, len(ranked_resumes) + 1), ...})] *)
Definition results_frame (ranked_resumes : list (string * score))
  : list (Row score) :=
  map (fun p : nat * (string * score) =>
         let (rank, entry) := p in
         {| Rank := rank;
            Resume_Name := fst entry;
            Match_Score := (repr (round (times100 (snd entry)) 1) ++ "%")%string;
            Raw_Score := round (snd entry) 4 |})
      (combine (seq 1 (List.length ranked_resumes)) ranked_resumes).

End ResultsFrame.

(** The three lists filled by the loop over [uploaded_files]. *)
Record Extraction : Type :=
  { resumes : list string;
    file_names : list string;
    error_files : list string }.

(** One turn of [for file in uploaded_files]. *)
Definition process_file (st : Extraction) (file : UploadedFile) : Extraction :=
  let text := extract_text_from_pdf file in
  if contains error_prefix text
  then {| resumes := resumes st;
          file_names := file_names st;
          error_files := error_files st ++ [name file] |}
  else {| resumes := resumes st ++ [text];
          file_names := file_names st ++ [name file];
          error_files := error_files st |}.

Definition process_files (uploaded_files : list UploadedFile) : Extraction :=
  fold_left process_file uploaded_files
    {| resumes := []; file_names := []; error_files := [] |}.

(** What a click on the button makes the page do, in order:
    - [st.warning] with the names of the files that could not be processed;
    - [st.error("No valid resumes to process")];
    - [st.dataframe], carrying [results_df]; what it puts on the screen
      is [shown_table];
    - [st.bar_chart] of the raw scores of the first rows;
    - the call of [save_ranking_history];
    - the two [st.download_button], CSV and Excel;
    - an exception that nothing catches, which ends the run. *)
Inductive event : Type :=
| warning_could_not_process (error_files : list string)
| error_no_valid_resumes
| dataframe (results_df : list (Row R))
| bar_chart (chart_data : list (Row R))
| save_ranking_history (email job_title description : string)
                       (results : list (Row R))
| download_csv (results_df : list (Row R))
| download_excel (results_df : list (Row R))
| uncaught (e : exn).

(** [results_df.drop(columns=["Raw Score"])]: the rank, the name and the
    percentage of every row, without the raw score. *)
Definition drop_raw_score (results_df : list (Row R))
  : list (nat * string * string) :=
  map (fun r => (Rank r, Resume_Name r, Match_Score r)) results_df.

(** The table an event puts on the screen:
    [st.dataframe(results_df.drop(columns=["Raw Score"]), hide_index=True)]. *)
Definition shown_table (e : event) : option (list (nat * string * string)) :=
  match e with
  | dataframe results_df => Some (drop_raw_score results_df)
  | _ => None
  end.

Section Dashboard.

Variable round : R -> nat -> R.
Variable repr : R -> string.
(** [st.session_state["user_email"]] and the job title field. *)
Variable user_email : string.
Variable job_title : string.

(** [disabled=not (uploaded_files and job_description)] *)
Definition rank_disabled (uploaded_files : list UploadedFile)
                         (job_description : string) : bool :=
  negb (match uploaded_files with [] => false | _ :: _ => truthy job_description end).

(** The [if resumes: ... else: ...] part. *)
Definition rank_and_report (job_description : string) (ex : Extraction)
  : list event :=
  match resumes ex with
  | [] => [error_no_valid_resumes]
  | _ :: _ =>
      match rank_resumes job_description (resumes ex) with
      | Raise e => [uncaught e]
      | Ok scores =>
          let ranked_resumes := ranked Rltb (file_names ex) scores in
          let results_df :=
            results_frame round (fun x => (x * 100)%R) repr ranked_resumes in
          let top_n := Nat.min (List.length results_df) 10 in
          [ dataframe results_df;
            bar_chart (firstn top_n results_df);
            save_ranking_history user_email
              (if truthy job_title then job_title else "Unnamed Job")
              job_description results_df;
            download_csv results_df;
            download_excel results_df ]
      end
  end.

(** The body of [if st.button("Rank Resumes", disabled=...)], for a
    click on the button. *)
Definition rank_clicked (uploaded_files : list UploadedFile)
                        (job_description : string) : list event :=
  if rank_disabled uploaded_files job_description then []
  else
    let ex := process_files uploaded_files in
    (match error_files ex with
     | [] => []
     | _ :: _ => [warning_could_not_process (error_files ex)]
     end) ++ rank_and_report job_description ex.

End Dashboard.

(** ** Bytes, hashing and splitting, as far as the security functions use
    them *)

Module Str.

(** [s.split(sep)] for a separator of one character. *)
Fixpoint split (sep : ascii) (s : string) : list string :=
  match s with
  | EmptyString => [EmptyString]
  | String c s' =>
      if Ascii.eqb c sep then EmptyString :: split sep s'
      else match split sep s' with
           | [] => [String c EmptyString]
           | part :: parts => String c part :: parts
           end
  end.

(** [s.encode()]: UTF-8, one byte below 128 and two bytes from there to
    255. *)
Definition encode_char (c : ascii) : list Byte.byte :=
  let n := nat_of_ascii c in
  if n <? 128 then [byte_of_ascii c]
  else [byte_of_ascii (ascii_of_nat (192 + n / 64));
        byte_of_ascii (ascii_of_nat (128 + n mod 64))].

Fixpoint encode (s : string) : list Byte.byte :=
  match s with
  | EmptyString => []
  | String c s' => encode_char c ++ encode s'
  end.

Definition hex_digit (n : nat) : ascii :=
  match String.get n "0123456789abcdef" with
  | Some c => c
  | None => "0"%char
  end.

(** [bytes.hex()]: two lowercase hexadecimal digits per byte.  It is the
    [hexdigest()] of a digest and the [hex] of a UUID's sixteen bytes. *)
Fixpoint hex (bs : list Byte.byte) : string :=
  match bs with
  | [] => EmptyString
  | b :: bs' =>
      let n := nat_of_ascii (ascii_of_byte b) in
      String (hex_digit (n / 16)) (String (hex_digit (n mod 16)) (hex bs'))
  end.

End Str.

(** ** Security functions *)

Definition dollar : ascii := "$"%char.

Definition not_enough_values : exn :=
  Exception "not enough values to unpack (expected 2, got 1)".

Definition too_many_values : exn :=
  Exception "too many values to unpack (expected 2)".

Section Security.

(** [hashlib.sha256(data).digest()] *)
Variable sha256 : list Byte.byte -> list Byte.byte.

(** Hash a password for storing.  [uuid4] stands for the sixteen bytes of
    [uuid.uuid4()], drawn when no salt is given. *)
Definition hash_password (password : string) (salt : option string)
    (uuid4 : list Byte.byte) : string :=
  let salt := match salt with
              | None => Str.hex uuid4
              | Some salt => salt
              end in
  let hashed := Str.hex (sha256 (Str.encode salt ++ Str.encode password)) in
  (salt ++ "$" ++ hashed)%string.

(** Verify a stored password against one provided by user.  The unpacking
    [salt, hashed = stored_password.split('$')] raises [ValueError] unless
    the split has exactly two parts. *)
Definition verify_password (stored_password provided_password : string)
  : result bool :=
  match Str.split dollar stored_password with
  | [salt; hashed] =>
      Ok (String.eqb hashed
            (Str.hex (sha256 (Str.encode salt
                              ++ Str.encode provided_password))))
  | [] | [_] => Raise not_enough_values
  | _ :: _ :: _ :: _ => Raise too_many_values
  end.

End Security.

(** ** The database [Resume.db]

    Two tables, as [init_db] creates them; a table is the list of its rows
    in insertion order. *)

Module users.

Record row : Type :=
  { email : string;
    password : string;
    name : string;
    job_title : string;
    company : string;
    date_joined : string;
    last_login : string }.

End users.

Module ranking_history.

Record row : Type :=
  { id : nat;
    email : string;
    timestamp : string;
    job_title : string;
    description : string;
    results : string }.

End ranking_history.

Record Database : Type :=
  { users_table : list users.row;
    ranking_history_table : list ranking_history.row }.

(** The database after the first [init_db()]. *)
Definition init_db : Database :=
  {| users_table := []; ranking_history_table := [] |}.

(** [SELECT ... FROM users WHERE email = ?] followed by [fetchone()]. *)
Definition fetch_user (db : Database) (email : string) : option users.row :=
  find (fun u => String.eqb (users.email u) email) (users_table db).

(** [UPDATE users SET ... WHERE email = ?] and [commit()]. *)
Definition update_users (db : Database) (email : string)
    (set : users.row -> users.row) : Database :=
  {| users_table :=
       map (fun u => if String.eqb (users.email u) email then set u else u)
           (users_table db);
     ranking_history_table := ranking_history_table db |}.

(** The dictionary returned by [get_user_profile]. *)
Module profile.

Record dict : Type :=
  { email : string;
    name : string;
    job_title : string;
    company : string;
    date_joined : string;
    last_login : string }.

End profile.

(** ** User management functions

    [now] stands for [datetime.now().strftime("%Y-%m-%d %H:%M:%S")]. *)

Section UserManagement.

Variable sha256 : list Byte.byte -> list Byte.byte.

(** Registers a new user in the database. *)
Definition save_user (db : Database) (email password name : string)
    (now : string) (uuid4 : list Byte.byte) : bool * Database :=
  match fetch_user db email with
  | Some _ => (false, db)
  | None =>
      let hashed_password := hash_password sha256 password None uuid4 in
      (true,
       {| users_table :=
            users_table db
            ++ [ {| users.email := email;
                    users.password := hashed_password;
                    users.name := name;
                    users.job_title := "";
                    users.company := "";
                    users.date_joined := now;
                    users.last_login := now |} ];
          ranking_history_table := ranking_history_table db |})
  end.

Definition set_last_login (now : string) (u : users.row) : users.row :=
  {| users.email := users.email u;
     users.password := users.password u;
     users.name := users.name u;
     users.job_title := users.job_title u;
     users.company := users.company u;
     users.date_joined := users.date_joined u;
     users.last_login := now |}.

(** Authenticate a user with email and password.  An exception of
    [verify_password] leaves the database as it was. *)
Definition authenticate_user (db : Database) (email password : string)
    (now : string) : result (bool * Database) :=
  match fetch_user db email with
  | None => Ok (false, db)
  | Some u =>
      ok <- verify_password sha256 (users.password u) password ;;
      if ok then Ok (true, update_users db email (set_last_login now))
      else Ok (false, db)
  end.

Definition set_profile (name job_title company : string) (u : users.row)
  : users.row :=
  {| users.email := users.email u;
     users.password := users.password u;
     users.name := name;
     users.job_title := job_title;
     users.company := company;
     users.date_joined := users.date_joined u;
     users.last_login := users.last_login u |}.

(** Update user profile information. *)
Definition update_profile (db : Database)
    (email name job_title company : string) : bool * Database :=
  (true, update_users db email (set_profile name job_title company)).

(** Get user profile data. *)
Definition get_user_profile (db : Database) (email : string)
  : option profile.dict :=
  match fetch_user db email with
  | None => None
  | Some u =>
      Some {| profile.email := users.email u;
              profile.name := users.name u;
              profile.job_title := users.job_title u;
              profile.company := users.company u;
              profile.date_joined := users.date_joined u;
              profile.last_login := users.last_login u |}
  end.

Definition set_password (hashed_password : string) (u : users.row)
  : users.row :=
  {| users.email := users.email u;
     users.password := hashed_password;
     users.name := users.name u;
     users.job_title := users.job_title u;
     users.company := users.company u;
     users.date_joined := users.date_joined u;
     users.last_login := users.last_login u |}.

(** Change user password. *)
Definition change_password (db : Database)
    (email current_password new_password : string) (uuid4 : list Byte.byte)
  : result (bool * string * Database) :=
  match fetch_user db email with
  | None => Ok (false, "User not found", db)
  | Some u =>
      ok <- verify_password sha256 (users.password u) current_password ;;
      if negb ok then Ok (false, "Current password is incorrect", db)
      else
        let hashed_password := hash_password sha256 new_password None uuid4 in
        Ok (true, "Password changed successfully",
            update_users db email (set_password hashed_password))
  end.

End UserManagement.

(** ** Resume history functions *)

Module History.

Section Rows.

(** [results.to_json()] *)
Variable to_json : list (Row R) -> string.

(** The rows of a query as [ORDER BY timestamp DESC] returns them. *)
Variable order_by_timestamp_desc :
  list ranking_history.row -> list ranking_history.row.

(** The [id] given by [AUTOINCREMENT]: one more than the largest so far. *)
Definition next_id (db : Database) : nat :=
  S (fold_right Nat.max 0 (map ranking_history.id (ranking_history_table db))).

(** Save resume ranking history for the user. *)
Definition save_ranking_history (db : Database)
    (email job_title description : string) (results : list (Row R))
    (now : string) : Database :=
  {| users_table := users_table db;
     ranking_history_table :=
       ranking_history_table db
       ++ [ {| ranking_history.id := next_id db;
               ranking_history.email := email;
               ranking_history.timestamp := now;
               ranking_history.job_title := job_title;
               ranking_history.description := description;
               ranking_history.results := to_json results |} ] |}.

(** Get resume ranking history for the user. *)
Definition get_user_history (db : Database) (email : string)
  : list ranking_history.row :=
  order_by_timestamp_desc
    (filter (fun h => String.eqb (ranking_history.email h) email)
            (ranking_history_table db)).

End Rows.

End History.

(** ** Session state and pages

    One run of the script is [main] on the session state, the database and
    the button that was pressed.  A run gives the new session state and
    database, the messages it displays (their texts without the leading
    emoji) and the exception that ended it, if any; [st.rerun()] ends the
    run with the state as it then is. *)

Record SessionState : Type :=
  { authenticated : bool;
    user_email : option string;
    user_name : option string;
    profile_tab : string;
    current_page : string }.

(** The state set when ["authenticated"] is not yet in the session. *)
Definition initial_session : SessionState :=
  {| authenticated := false;
     user_email := None;
     user_name := None;
     profile_tab := "profile";
     current_page := "login" |}.

Definition set_current_page (s : SessionState) (page : string)
  : SessionState :=
  {| authenticated := authenticated s;
     user_email := user_email s;
     user_name := user_name s;
     profile_tab := profile_tab s;
     current_page := page |}.

Definition set_user_name (s : SessionState) (name : string) : SessionState :=
  {| authenticated := authenticated s;
     user_email := user_email s;
     user_name := Some name;
     profile_tab := profile_tab s;
     current_page := current_page s |}.

(** The buttons, with the contents of the fields they read. *)
Inductive click : Type :=
| Login_button (login_email login_password : string)
| Register_link
| Register_button (reg_email reg_name reg_password
                   reg_confirm_password : string)
| Back_to_login_button
| Dashboard_button
| My_profile_button
| Logout_button
| Save_profile_button (name job_title company : string)
| Update_password_button (current_password new_password
                          confirm_new_password : string)
| Rank_resumes_button (job_title job_description : string)
                      (uploaded_files : list UploadedFile).

Inductive message : Type :=
| sidebar_error (text : string)
| sidebar_success (text : string)
| sidebar_warning (text : string)
| st_error (text : string)
| st_success (text : string)
| ranking_events (events : list event).

Record Run : Type :=
  { session : SessionState;
    database : Database;
    messages : list message;
    exception : option exn }.

(** [profile["name"]] on [None]. *)
Definition none_not_subscriptable : exn :=
  Exception "'NoneType' object is not subscriptable".

(** The insertion of a history row without email. *)
Definition not_null_failed : exn :=
  Exception "NOT NULL constraint failed: ranking_history.email".

Definition is_save (ev : event) : bool :=
  match ev with
  | save_ranking_history _ _ _ _ => true
  | _ => false
  end.

(** The events of a click up to the call of [save_ranking_history]. *)
Fixpoint before_save (events : list event) : list event :=
  match events with
  | [] => []
  | ev :: rest => if is_save ev then [] else ev :: before_save rest
  end.

Section Pages.

Variable sha256 : list Byte.byte -> list Byte.byte.
Variable round : R -> nat -> R.
Variable repr : R -> string.
Variable to_json : list (Row R) -> string.

(** A run that changes nothing and displays [shown]. *)
Definition display (s : SessionState) (db : Database) (shown : list message)
  : Run :=
  {| session := s; database := db; messages := shown; exception := None |}.

(** A run that a call of [st.rerun()] ends. *)
Definition rerun (s : SessionState) (db : Database) (shown : list message)
  : Run :=
  {| session := s; database := db; messages := shown; exception := None |}.

Definition raise (s : SessionState) (db : Database) (shown : list message)
    (e : exn) : Run :=
  {| session := s; database := db; messages := shown; exception := Some e |}.

(** The buttons of [render_sidebar], shown to an authenticated user. *)
Definition render_sidebar (s : SessionState) (db : Database) (c : click)
  : option Run :=
  match c with
  | Dashboard_button => Some (rerun (set_current_page s "dashboard") db [])
  | My_profile_button => Some (rerun (set_current_page s "profile") db [])
  | Logout_button =>
      Some (rerun {| authenticated := false;
                     user_email := None;
                     user_name := None;
                     profile_tab := profile_tab s;
                     current_page := "login" |}
                  db [sidebar_success "Logged out successfully!"])
  | _ => None
  end.

Definition show_login_page (s : SessionState) (db : Database) (c : click)
    (now : string) : Run :=
  match c with
  | Login_button login_email login_password =>
      match authenticate_user sha256 db login_email login_password now with
      | Raise e => raise s db [] e
      | Ok (true, db') =>
          let s1 := {| authenticated := true;
                       user_email := Some login_email;
                       user_name := user_name s;
                       profile_tab := profile_tab s;
                       current_page := current_page s |} in
          match get_user_profile db' login_email with
          | None => raise s1 db' [] none_not_subscriptable
          | Some profile =>
              rerun (set_current_page
                       (set_user_name s1 (profile.name profile)) "dashboard")
                    db' []
          end
      | Ok (false, db') =>
          display s db' [sidebar_error "Invalid email or password"]
      end
  | Register_link => rerun (set_current_page s "register") db []
  | _ => display s db []
  end.

Definition show_register_page (s : SessionState) (db : Database) (c : click)
    (now : string) (uuid4 : list Byte.byte) : Run :=
  match c with
  | Register_button reg_email reg_name reg_password reg_confirm_password =>
      if negb (truthy reg_email) || negb (truthy reg_password) then
        display s db [sidebar_error "Email and password are required"]
      else if negb (contains "@" reg_email) || negb (contains "." reg_email)
      then display s db [sidebar_error "Invalid email format"]
      else if negb (String.eqb reg_password reg_confirm_password) then
        display s db [sidebar_error "Passwords do not match"]
      else
        let (saved, db') :=
          save_user sha256 db reg_email reg_password reg_name now uuid4 in
        if saved then
          rerun (set_current_page s "login") db'
                [sidebar_success "Registration successful! You can now log in."]
        else
          rerun (set_current_page s "login") db'
                [sidebar_warning
                   "Email already registered. Please log in instead."]
  | Back_to_login_button => rerun (set_current_page s "login") db []
  | _ => display s db []
  end.

(** The history rows that the events of a click insert. *)
Definition commit (db : Database) (now : string) (events : list event)
  : Database :=
  fold_left
    (fun db ev =>
       match ev with
       | save_ranking_history email job_title description results =>
           History.save_ranking_history to_json db email job_title
                                        description results now
       | _ => db
       end)
    events db.

(** [show_dashboard], for the button that ranks. *)
Definition show_dashboard (s : SessionState) (db : Database) (c : click)
    (now : string) : Run :=
  match c with
  | Rank_resumes_button job_title job_description uploaded_files =>
      match user_email s with
      | Some email =>
          let events := rank_clicked round repr email job_title
                                     uploaded_files job_description in
          display s (commit db now events) [ranking_events events]
      | None =>
          let events := rank_clicked round repr "" job_title
                                     uploaded_files job_description in
          if existsb is_save events
          then raise s db [ranking_events (before_save events)] not_null_failed
          else display s db [ranking_events events]
      end
  | _ => display s db []
  end.

(** [show_profile_page], for the buttons of its first two tabs. *)
Definition show_profile_page (s : SessionState) (db : Database) (c : click)
    (uuid4 : list Byte.byte) : Run :=
  match match user_email s with
        | Some email => get_user_profile db email
        | None => None
        end with
  | None => display s db [st_error "Error loading profile data"]
  | Some profile =>
      match c with
      | Save_profile_button name job_title company =>
          let (updated, db') :=
            update_profile db (profile.email profile) name job_title company in
          if updated then
            rerun (set_user_name s name) db'
                  [st_success "Profile updated successfully!"]
          else display s db' [st_error "Error updating profile"]
      | Update_password_button current_password new_password
                               confirm_new_password =>
          if negb (truthy current_password) || negb (truthy new_password)
             || negb (truthy confirm_new_password)
          then display s db [st_error "All fields are required"]
          else if negb (String.eqb new_password confirm_new_password)
          then display s db [st_error "New passwords do not match"]
          else
            match change_password sha256 db (profile.email profile)
                                  current_password new_password uuid4 with
            | Raise e => raise s db [] e
            | Ok (success, text, db') =>
                if success then display s db' [st_success text]
                else display s db' [st_error text]
            end
      | _ => display s db []
      end
  end.

(** Main app logic. *)
Definition main (s : SessionState) (db : Database) (c : click)
    (now : string) (uuid4 : list Byte.byte) : Run :=
  if authenticated s then
    match render_sidebar s db c with
    | Some run => run
    | None =>
        if String.eqb (current_page s) "dashboard"
        then show_dashboard s db c now
        else if String.eqb (current_page s) "profile"
        then show_profile_page s db c uuid4
        else display s db []
    end
  else
    if String.eqb (current_page s) "login" then show_login_page s db c now
    else if String.eqb (current_page s) "register"
    then show_register_page s db c now uuid4
    else display s db [].

(** The runs for a sequence of clicks, each with its clock and its random
    bytes; a run that raises keeps the state it reached. *)
Fixpoint runs (s : SessionState) (db : Database)
    (clicks : list (click * string * list Byte.byte))
  : SessionState * Database :=
  match clicks with
  | [] => (s, db)
  | (c, now, uuid4) :: rest =>
      let run := main s db c now uuid4 in
      runs (session run) (database run) rest
  end.

End Pages.

(** ** The history tab of the profile page *)

Inductive widget (frame : Type) : Type :=
| info_no_history
| expander (job_title timestamp description : string)
| results_table (results : frame)
| warning_error_loading.
Arguments info_no_history {frame}.
Arguments expander {frame} job_title timestamp description.
Arguments results_table {frame} results.
Arguments warning_error_loading {frame}.

Section HistoryTab.

Context {frame : Type}.
(** [pd.read_json] *)
Variable read_json : string -> result frame.

(** The loop [for idx, row in history.iterrows()]: the expanders, and
    [row] as the loop leaves it ([None] when it never ran). *)
Fixpoint iterrows (history : list ranking_history.row)
    (row : option ranking_history.row)
  : list (widget frame) * option ranking_history.row :=
  match history with
  | [] => ([], row)
  | r :: rest =>
      let (shown, row') := iterrows rest (Some r) in
      (expander (ranking_history.job_title r) (ranking_history.timestamp r)
                (ranking_history.description r) :: shown, row')
  end.

(** The tab: the note or the expanders, then the [try] that follows the
    [if], where a failure of [read_json], or [row] being unbound, is
    caught by the bare [except]. *)
Definition history_tab (history : list ranking_history.row)
  : list (widget frame) :=
  let (shown, row) :=
    match history with
    | [] => ([info_no_history], None)
    | _ :: _ => iterrows history None
    end in
  shown
  ++ match row with
     | None => [warning_error_loading]
     | Some r =>
         match read_json (ranking_history.results r) with
         | Ok results => [results_table results]
         | Raise _ => [warning_error_loading]
         end
     end.

End HistoryTab.

(** ** Notions used by the statements *)

(** The texts of all pages in order, or the first exception a page raises. *)
Fixpoint page_texts (pages : list Page) : result (list string) :=
  match pages with
  | [] => Ok []
  | page :: rest =>
      t <- extract_text page ;;
      ts <- page_texts rest ;;
      Ok (t :: ts)
  end.

(** The page texts, each non-empty one followed by a newline. *)
Fixpoint joined (ts : list string) : string :=
  match ts with
  | [] => ""
  | t :: ts' =>
      ((if truthy t then t ++ newline else "") ++ joined ts')%string
  end.

(** The message returned for an exception. *)
Definition error_message (e : exn) : string :=
  (error_prefix ++ ": " ++ str e)%string.

(** The test of the dashboard on one file. *)
Definition is_error_file (file : UploadedFile) : bool :=
  contains error_prefix (extract_text_from_pdf file).

(** The files whose text goes on to scoring. *)
Definition scored_files (uploaded_files : list UploadedFile)
  : list UploadedFile :=
  filter (fun f => negb (is_error_file f)) uploaded_files.

(** Extraction ended without an exception. *)
Definition extraction_succeeded (file : UploadedFile) : Prop :=
  exists pages ts, PdfReader file = Ok pages /\ page_texts pages = Ok ts.

(** A candidate with usable text, in the words of the specification:
    extraction ended without an exception and gave a text that is not
    empty. *)
Definition usable_text (file : UploadedFile) : Prop :=
  exists pages ts,
    PdfReader file = Ok pages /\ page_texts pages = Ok ts
    /\ strip (joined ts) <> "".

(** The events that show, store or export a ranking. *)
Definition presents_ranking (e : event) : bool :=
  match e with
  | dataframe _ | bar_chart _ | save_ranking_history _ _ _ _
  | download_csv _ | download_excel _ => true
  | _ => false
  end.

(** The score of document [r] against the query [q] in the corpus [docs]:
    the rows of the vectorizer, normalised again by [cosine_similarity]. *)
Definition similarity (docs : list string) (q r : string) : R :=
  dot (normalize (normalize (tfidf docs q)))
      (normalize (normalize (tfidf docs r))).

(** No document of the corpus has a token. *)
Definition no_terms (docs : list string) : bool :=
  forallb (fun d => match analyze d with [] => true | _ :: _ => false end) docs.

(** Ascending keys, equivalent keys in the order [before]. *)
Definition ascending {A K : Type} (key : A -> K) (lt : K -> K -> bool)
    (before : A -> A -> Prop) (a b : A) : Prop :=
  lt (key b) (key a) = false /\ (lt (key a) (key b) = true \/ before a b).

(** The entries with their submission order index. *)
Definition indexed {A : Type} (l : list A) : list (nat * A) :=
  combine (seq 0 (List.length l)) l.

(** Rank order on (index, (identifier, score)): a higher score first, and
    among equal scores the lower index first. *)
Definition rank_order {score : Type} (lt : score -> score -> bool)
    (a b : nat * (string * score)) : Prop :=
  lt (snd (snd a)) (snd (snd b)) = false
  /\ (lt (snd (snd b)) (snd (snd a)) = true \/ fst a < fst b).

(** *** Inputs of the examples *)

Definition page (text : string) : Page := {| extract_text := Ok text |}.

(** A scanned document: one page without a text layer. *)
Definition scanned : UploadedFile :=
  {| name := "scan.pdf"; PdfReader := Ok [page ""] |}.

(** A document whose only page holds white space. *)
Definition blank : UploadedFile :=
  {| name := "blank.pdf"; PdfReader := Ok [page "   "] |}.

(** A file that [PdfReader] refuses. *)
Definition corrupt : UploadedFile :=
  {| name := "broken.pdf";
     PdfReader := Raise (Exception "EOF marker not found") |}.

(** A readable resume that quotes the error message. *)
Definition quoting : UploadedFile :=
  {| name := "support.pdf";
     PdfReader :=
       Ok [page "Fixed the Error extracting text bug of the OCR pipeline"] |}.

Definition cv : UploadedFile :=
  {| name := "cv.pdf"; PdfReader := Ok [page "python developer"] |}.

(** Display functions for the examples: no rounding, no text. *)
Definition round_id (x : R) (ndigits : nat) : R := x.
Definition repr_blank (x : R) : string := "".

(** An arithmetic that rounds: every result is the exact one, times
    [1 + 2^-53]. *)
Definition rounding_up : fp.arithmetic R :=
  {| fp.zero := 0%R;
     fp.one := 1%R;
     fp.of_nat := INR;
     fp.add := fun x y => ((x + y) * (1 + / 2 ^ 53))%R;
     fp.mul := fun x y => ((x * y) * (1 + / 2 ^ 53))%R;
     fp.div := fun x y => ((x / y) * (1 + / 2 ^ 53))%R;
     fp.sqrt := fun x => (sqrt x * (1 + / 2 ^ 53))%R;
     fp.log := fun x => (ln x * (1 + / 2 ^ 53))%R;
     fp.is_zero := fun x => if Req_dec_T x 0 then true else false |}.


(** *** Notions used by the further properties *)

(** With unit roundoff [u], [c] is [v] after at most [k] roundings. *)
Definition rounded_within (u : R) (k : nat) (v c : R) : Prop :=
  (v * (1 - u) ^ k <= c <= v * (1 + u) ^ k)%R.

(** Sum of [h t] over the terms [t] of [V]. *)
Definition sum_terms (V : list string) (h : string -> R) : R :=
  fold_right (fun t acc => (h t + acc)%R) 0%R V.

(** The weight of term [t] in document [d], as a function of the term. *)
Definition weight (docs : list string) (d : string) (t : string) : R :=
  (INR (tf t d) * idf docs t)%R.

(** [normalize] on a row given as a function of the term. *)
Definition normalized (V : list string) (f : string -> R) (t : string) : R :=
  (f t / handle_zeros (sqrt (sum_terms V (fun t => f t * f t))))%R.

(** *** The weighting and the scoring, in the words of the specification *)

Module Spec.

(** The corpus of an invocation: the query document and the candidate
    documents, treated uniformly. *)
Definition corpus (query : string) (candidates : list string)
  : list string :=
  query :: candidates.

(** Term frequency: the number of occurrences of [t] among the tokens of
    the document. *)
Definition term_frequency (t : string) (d : string) : nat :=
  List.length (filter (String.eqb t) (analyze d)).

(** Document frequency: the number of documents of the corpus that
    contain [t]. *)
Definition document_frequency (corpus : list string) (t : string) : nat :=
  List.length (filter (fun d => existsb (String.eqb t) (analyze d)) corpus).

(** Inverse document frequency with add-one smoothing: one is added to
    the document frequency and to the number of documents, and one to the
    logarithm. *)
Definition smoothed_idf (corpus : list string) (t : string) : R :=
  (ln ((INR (List.length corpus) + 1)
       / (INR (document_frequency corpus t) + 1)) + 1)%R.

(** Term weight: term frequency times inverse document frequency. *)
Definition term_weight (corpus : list string) (d : string) (t : string)
  : R :=
  (INR (term_frequency t d) * smoothed_idf corpus t)%R.

(** Euclidean norm of a weight vector over the terms [V]. *)
Definition norm (V : list string) (f : string -> R) : R :=
  sqrt (sum_terms V (fun t => f t * f t)%R).

(** Cosine similarity of two weight vectors; 0 when one of them is
    null. *)
Definition cosine (V : list string) (f g : string -> R) : R :=
  if Req_dec_T (norm V f * norm V g) 0 then 0%R
  else (sum_terms V (fun t => f t * g t) / (norm V f * norm V g))%R.

(** The score of candidate [r]: the cosine of its weight vector and the
    query's, over the vocabulary of the corpus. *)
Definition score (query : string) (candidates : list string) (r : string)
  : R :=
  cosine (vocabulary (corpus query candidates))
         (term_weight (corpus query candidates) query)
         (term_weight (corpus query candidates) r).

End Spec.

(** Some token of [q] is a token of [r]. *)
Definition shares_term (q r : string) : bool :=
  existsb (fun t => 0 <? tf t r) (analyze q).

(** Number of occurrences of the character [c] in [s]. *)
Fixpoint count_char (c : ascii) (s : string) : nat :=
  match s with
  | EmptyString => 0
  | String x s' => (if Ascii.eqb x c then 1 else 0) + count_char c s'
  end.

(** Serialisation for the examples: no text. *)
Definition json_blank (results : list (Row R)) : string := "".

(** The database of the examples: one registered user. *)
Definition example_db : Database :=
  snd (save_user (fun data => data) init_db "ann@example.org" "secret" "Ann"
                 "2025-01-01 09:00:00" []).

(** The session of the examples: the registered user, on the dashboard. *)
Definition example_session : SessionState :=
  {| authenticated := true;
     user_email := Some "ann@example.org";
     user_name := Some "Ann";
     profile_tab := "profile";
     current_page := "dashboard" |}.

(** The string begins, or ends, with a whitespace character. *)
Definition starts_with_space (s : string) : bool :=
  match s with
  | EmptyString => false
  | String c _ => isspace c
  end.

Definition ends_with_space (s : string) : bool :=
  starts_with_space (reverse s).

(** A row of the results without its rank. *)
Definition row_entry {score : Type} (r : Row score)
  : string * string * score :=
  (Resume_Name r, Match_Score r, Raw_Score r).

(** A digest function for the examples: the data itself. *)
Definition toy_digest (data : list Byte.byte) : list Byte.byte := data.

(** The database as the functions of the program keep it: one row per
    email, and every stored password of the form [salt$hash]. *)
Definition well_formed_db (db : Database) : Prop :=
  NoDup (map users.email (users_table db))
  /\ Forall (fun u => count_char dollar (users.password u) = 1)
            (users_table db).

(** The email has a row in the users table. *)
Definition registered (db : Database) (email : string) : Prop :=
  In email (map users.email (users_table db)).

(** The session state and the page agree: an authenticated session
    carries the email of a registered user and a name, on the dashboard or
    the profile page; any other session carries neither, on the login or
    the registration page. *)
Definition session_ok (s : SessionState) (db : Database) : Prop :=
  if authenticated s then
    (exists email name,
        user_email s = Some email /\ user_name s = Some name
        /\ registered db email)
    /\ (current_page s = "dashboard" \/ current_page s = "profile")
  else
    user_email s = None /\ user_name s = None
    /\ (current_page s = "login" \/ current_page s = "register").

(** A run that ends without exception, in a well-formed database and a
    session that agrees with it. *)
Definition run_ok (r : Run) : Prop :=
  exception r = None
  /\ well_formed_db (database r)
  /\ session_ok (session r) (database r).

(** The widget for the results of a row. *)
Definition results_widget {frame : Type} (read_json : string -> result frame)
    (r : ranking_history.row) : widget frame :=
  match read_json (ranking_history.results r) with
  | Ok results => results_table results
  | Raise _ => warning_error_loading
  end.

Definition is_results_table {frame : Type} (w : widget frame) : bool :=
  match w with
  | results_table _ => true
  | _ => false
  end.

(** ** The text extraction adapter *)

Lemma append_assoc (a b c : string) :
  ((a ++ b) ++ c = a ++ (b ++ c))%string.
Proof. induction a as [|x a IH]; simpl; [reflexivity | now rewrite IH]. Qed.

Lemma append_empty_r (a : string) : (a ++ "" = a)%string.
Proof. induction a as [|x a IH]; simpl; [reflexivity | now rewrite IH]. Qed.

Lemma read_pages_page_texts (pages : list Page) (text : string) :
  read_pages pages text =
  (ts <- page_texts pages ;; Ok (text ++ joined ts)%string).
Proof.
  revert text; induction pages as [|p rest IH]; intros text; simpl.
  - now rewrite append_empty_r.
  - destruct (extract_text p) as [t|e]; simpl; [|reflexivity].
    rewrite IH. destruct (page_texts rest) as [ts|e]; simpl; [|reflexivity].
    f_equal. destruct (truthy t); simpl; [|reflexivity].
    now rewrite !append_assoc.
Qed.

Lemma truthy_joined (ts : list string) :
  truthy (joined ts) = existsb truthy ts.
Proof.
  induction ts as [|t ts IH]; simpl; [reflexivity|].
  destruct t as [|c t]; simpl; [exact IH | reflexivity].
Qed.

Lemma error_message_prefix (e : exn) :
  String.prefix error_prefix (error_message e) = true.
Proof. reflexivity. Qed.

Lemma contains_prefix (sub s : string) :
  String.prefix sub s = true -> contains sub s = true.
Proof. intros H; destruct s; simpl in *; rewrite H; reflexivity. Qed.

(** The message of an exception fails the dashboard's test: a file that
    could not be opened or read is an error file. *)
Lemma parse_failure_is_excluded (file : UploadedFile) (e : exn) :
  extract_text_try file = Raise e -> is_error_file file = true.
Proof.
  intros H. unfold is_error_file, extract_text_from_pdf. rewrite H.
  apply contains_prefix, error_message_prefix.
Qed.

Lemma process_files_acc (files : list UploadedFile) (st : Extraction) :
  let ex := fold_left process_file files st in
  resumes ex = resumes st ++ map extract_text_from_pdf (scored_files files)
  /\ file_names ex = file_names st ++ map name (scored_files files)
  /\ error_files ex = error_files st ++ map name (filter is_error_file files).
Proof.
  revert st; induction files as [|f files IH]; intros st; simpl.
  - now rewrite !app_nil_r.
  - specialize (IH (process_file st f)). simpl in IH.
    destruct IH as (Hr & Hn & He). rewrite Hr, Hn, He.
    unfold process_file, scored_files; fold (is_error_file f); simpl.
    destruct (is_error_file f); simpl; rewrite <- ?app_assoc; auto.
Qed.

Lemma process_files_filter (files : list UploadedFile) :
  resumes (process_files files) = map extract_text_from_pdf (scored_files files)
  /\ file_names (process_files files) = map name (scored_files files)
  /\ error_files (process_files files) = map name (filter is_error_file files).
Proof. exact (process_files_acc files _). Qed.

Lemma filter_negb_nil {A} (p : A -> bool) (l : list A) :
  filter (fun x => negb (p x)) l = [] -> filter p l = l.
Proof.
  induction l as [|x l IH]; simpl; [reflexivity|].
  destruct (p x); simpl; [|discriminate].
  intros H. now rewrite IH.
Qed.

Example extract_two_pages :
  extract_text_from_pdf
    {| name := "two.pdf"; PdfReader := Ok [page "first"; page ""; page "last"] |}
  = ("first" ++ newline ++ "last")%string.
Proof. reflexivity. Qed.

Example extract_page_raises :
  extract_text_from_pdf
    {| name := "half.pdf";
       PdfReader := Ok [page "first";
                        {| extract_text := Raise (Exception "bad stream") |}] |}
  = "Error extracting text: bad stream".
Proof. reflexivity. Qed.

Example extract_blank_page :
  extract_text_from_pdf {| name := "blank.pdf"; PdfReader := Ok [page " "] |}
  = "".
Proof. reflexivity. Qed.

Example strip_example :
  strip (String (ascii_of_nat 9) " two words " ++ newline) = "two words".
Proof. reflexivity. Qed.

(** C10. [extract_text_from_pdf] returns a string for every file and never
    raises: the message built from the exception, which begins with
    "Error extracting text", when opening the file or reading a page
    raises; "No readable text found." when every page text is empty; the
    accumulated text, stripped, otherwise.  The loop of the dashboard
    therefore classifies every uploaded file, whatever the others did. *)
Theorem extract_text_from_pdf_total (uploaded_files : list UploadedFile) :
  (forall file,
      extract_text_from_pdf file =
      match PdfReader file with
      | Raise e => error_message e
      | Ok pages =>
          match page_texts pages with
          | Raise e => error_message e
          | Ok ts =>
              if existsb truthy ts then strip (joined ts)
              else no_readable_text
          end
      end)
  /\ (forall e, String.prefix error_prefix (error_message e) = true)
  /\ List.length (resumes (process_files uploaded_files))
     + List.length (error_files (process_files uploaded_files))
     = List.length uploaded_files.
Proof.
  split; [|split].
  - intros file. unfold extract_text_from_pdf, extract_text_try.
    destruct (PdfReader file) as [pages|e]; simpl; [|reflexivity].
    rewrite read_pages_page_texts.
    destruct (page_texts pages) as [ts|e]; simpl; [|reflexivity].
    now rewrite truthy_joined.
  - exact error_message_prefix.
  - destruct (process_files_filter uploaded_files) as (Hr & _ & He).
    rewrite Hr, He, !length_map. unfold scored_files. clear Hr He.
    induction uploaded_files as [|f l IH]; simpl; [reflexivity|].
    destruct (is_error_file f); simpl; lia.
Qed.

(** ** Rows, norms and dot products *)

Section Rows.

Local Open Scope R_scope.

Lemma dot_cons (a b : R) (x y : list R) :
  dot (a :: x) (b :: y) = a * b + dot x y.
Proof. reflexivity. Qed.

Lemma dot_self_nonneg (x : list R) : 0 <= dot x x.
Proof.
  induction x as [|a x IH]; [apply Rle_refl|].
  rewrite dot_cons. nra.
Qed.

Lemma dot_nonneg (x y : list R) :
  Forall (Rle 0) x -> Forall (Rle 0) y -> 0 <= dot x y.
Proof.
  intros Hx; revert y; induction Hx as [|a x Ha Hx IH]; intros y Hy.
  - apply Rle_refl.
  - destruct Hy as [|b y Hb Hy]; [apply Rle_refl|].
    rewrite dot_cons. specialize (IH y Hy). nra.
Qed.

(** Twice a dot product is at most the sum of the two squared norms. *)
Lemma dot_am_gm (x y : list R) : 2 * dot x y <= dot x x + dot y y.
Proof.
  revert y; induction x as [|a x IH]; intros y.
  - pose proof (dot_self_nonneg y). change (2 * 0 <= 0 + dot y y). lra.
  - destruct y as [|b y].
    + pose proof (dot_self_nonneg (a :: x)).
      change (2 * 0 <= dot (a :: x) (a :: x) + 0). lra.
    + rewrite !dot_cons. specialize (IH y).
      pose proof (Rle_0_sqr (a - b)) as Hsq. unfold Rsqr in Hsq. lra.
Qed.

Lemma dot_scale (a b : R) (x y : list R) :
  dot (map (fun v => v / a) x) (map (fun v => v / b) y)
  = dot x y * (/ a * / b).
Proof.
  revert y; induction x as [|u x IH]; intros y.
  - unfold dot; simpl. ring.
  - destruct y as [|v y]; [unfold dot; simpl; ring|].
    simpl map. rewrite !dot_cons, IH. unfold Rdiv. ring.
Qed.

Lemma dot_zero_r (x y : list R) : Forall (eq 0) y -> dot x y = 0.
Proof.
  intros Hy; revert x; induction Hy as [|b y Hb Hy IH]; intros x.
  - destruct x; reflexivity.
  - destruct x as [|a x]; [reflexivity|].
    rewrite dot_cons, IH, <- Hb. ring.
Qed.

Lemma dot_zero_l (x y : list R) : Forall (eq 0) x -> dot x y = 0.
Proof.
  intros Hx; revert y; induction Hx as [|a x Ha Hx IH]; intros y.
  - reflexivity.
  - destruct y as [|b y]; [reflexivity|].
    rewrite dot_cons, IH, <- Ha. ring.
Qed.

Lemma dot_self_pos (x : list R) (v : R) :
  In v x -> v <> 0 -> 0 < dot x x.
Proof.
  induction x as [|a x IH]; [intros []|].
  intros [->|Hin] Hv; rewrite dot_cons.
  - pose proof (dot_self_nonneg x). nra.
  - specialize (IH Hin Hv). nra.
Qed.

Lemma handle_zeros_pos (n : R) : 0 <= n -> 0 < handle_zeros n.
Proof.
  intros Hn. unfold handle_zeros.
  destruct (Req_dec_T n 0) as [E|E]; lra.
Qed.

Lemma row_norm_nonneg (x : list R) : 0 <= row_norm x.
Proof. apply sqrt_pos. Qed.

Lemma normalize_nonneg (x : list R) :
  Forall (Rle 0) x -> Forall (Rle 0) (normalize x).
Proof.
  intros Hx. unfold normalize. apply Forall_map.
  pose proof (handle_zeros_pos _ (row_norm_nonneg x)) as Hp.
  revert Hx; apply Forall_impl. intros v Hv.
  apply Rmult_le_pos; [exact Hv|]. left. now apply Rinv_0_lt_compat.
Qed.

Lemma normalize_zero (x : list R) :
  Forall (eq 0) x -> Forall (eq 0) (normalize x).
Proof.
  intros Hx. unfold normalize. apply Forall_map.
  revert Hx; apply Forall_impl. intros v <-. unfold Rdiv. ring.
Qed.

(** A normalised row has squared norm one, or zero when the row is
    null. *)
Lemma normalize_unit (x : list R) :
  dot (normalize x) (normalize x) = if Req_dec_T (dot x x) 0 then 0 else 1.
Proof.
  unfold normalize. rewrite dot_scale. unfold handle_zeros, row_norm.
  pose proof (dot_self_nonneg x) as Hx.
  destruct (Req_dec_T (dot x x) 0) as [E|E].
  - rewrite E. ring.
  - destruct (Req_dec_T (sqrt (dot x x)) 0) as [E'|E'].
    + apply sqrt_eq_0 in E'; [contradiction | exact Hx].
    + rewrite <- Rinv_mult, sqrt_sqrt by exact Hx. now apply Rinv_r.
Qed.

Lemma normalize_unit_le (x : list R) :
  dot (normalize x) (normalize x) <= 1.
Proof. rewrite normalize_unit. destruct (Req_dec_T _ _); lra. Qed.

End Rows.

(** ** The vectorizer and the scorer *)

Example analyze_tokens :
  analyze "A bc d_e F1 !! x, Senior-Dev" = ["bc"; "d_e"; "f1"; "senior"; "dev"].
Proof. reflexivity. Qed.

Section Scorer.

Local Open Scope R_scope.

Lemma df_le_samples (docs : list string) (t : string) :
  (df docs t <= List.length docs)%nat.
Proof. apply filter_length_le. Qed.

Lemma idf_denominator_pos (docs : list string) (t : string) :
  0 < 1 + INR (df docs t).
Proof. pose proof (pos_INR (df docs t)). lra. Qed.

Lemma idf_ge_1 (docs : list string) (t : string) : 1 <= idf docs t.
Proof.
  unfold idf.
  pose proof (idf_denominator_pos docs t) as Hd.
  pose proof (le_INR _ _ (df_le_samples docs t)) as Hle.
  assert (H1 : 1 <= (1 + INR (List.length docs)) / (1 + INR (df docs t))).
  { apply Rmult_le_reg_r with (1 + INR (df docs t)); [exact Hd|].
    unfold Rdiv. rewrite Rmult_assoc, Rinv_l by lra. lra. }
  assert (H0 : 0 <= ln ((1 + INR (List.length docs)) / (1 + INR (df docs t)))).
  { destruct H1 as [H1|H1]; [|rewrite <- H1, ln_1; apply Rle_refl].
    rewrite <- ln_1. left. apply ln_increasing; lra. }
  lra.
Qed.

Lemma idf_everywhere (docs : list string) (t : string) :
  df docs t = List.length docs -> idf docs t = 1.
Proof.
  intros E. unfold idf. rewrite E.
  pose proof (pos_INR (List.length docs)).
  unfold Rdiv. rewrite Rinv_r by lra. rewrite ln_1. ring.
Qed.

Lemma tfidf_nonneg (docs : list string) (d : string) :
  Forall (Rle 0) (tfidf docs d).
Proof.
  unfold tfidf. apply Forall_map, Forall_forall. intros t _.
  apply Rmult_le_pos; [apply pos_INR|].
  pose proof (idf_ge_1 docs t). lra.
Qed.

Lemma vocabulary_In (docs : list string) (d t : string) :
  In d docs -> In t (analyze d) -> In t (vocabulary docs).
Proof.
  intros Hd Ht. unfold vocabulary. apply nodup_In, in_flat_map.
  exists d. split; assumption.
Qed.

(** A document with a token has a row that is not null. *)
Lemma tfidf_not_null (docs : list string) (d : string) :
  In d docs -> analyze d <> [] -> 0 < dot (tfidf docs d) (tfidf docs d).
Proof.
  intros Hd Hne. destruct (analyze d) as [|t ts] eqn:E; [contradiction|].
  assert (Ht : In t (analyze d)) by (rewrite E; now left).
  apply dot_self_pos with (v := INR (tf t d) * idf docs t).
  - unfold tfidf.
    apply (in_map (fun t => INR (tf t d) * idf docs t)).
    now apply vocabulary_In with d.
  - assert (Hc : (1 <= tf t d)%nat).
    { unfold tf. apply (count_occ_In string_dec) in Ht. lia. }
    apply le_INR in Hc. simpl in Hc.
    pose proof (idf_ge_1 docs t). nra.
Qed.

(** A document without a token has the null row. *)
Lemma tfidf_null (docs : list string) (d : string) :
  analyze d = [] -> Forall (eq 0) (tfidf docs d).
Proof.
  intros E. unfold tfidf, tf. rewrite E. apply Forall_map, Forall_forall.
  intros t _. simpl. ring.
Qed.

Lemma similarity_range (docs : list string) (q r : string) :
  0 <= similarity docs q r <= 1.
Proof.
  unfold similarity. split.
  - apply dot_nonneg; repeat apply normalize_nonneg; apply tfidf_nonneg.
  - pose proof (dot_am_gm (normalize (normalize (tfidf docs q)))
                          (normalize (normalize (tfidf docs r)))).
    pose proof (normalize_unit_le (normalize (tfidf docs q))).
    pose proof (normalize_unit_le (normalize (tfidf docs r))).
    lra.
Qed.

Lemma similarity_null (docs : list string) (q r : string) :
  Forall (eq 0) (tfidf docs r) -> similarity docs q r = 0.
Proof.
  intros H. unfold similarity. apply dot_zero_r.
  now repeat apply normalize_zero.
Qed.

Lemma similarity_null_query (docs : list string) (q r : string) :
  analyze q = [] -> similarity docs q r = 0.
Proof.
  intros H. unfold similarity. apply dot_zero_l.
  repeat apply normalize_zero. now apply tfidf_null.
Qed.

Lemma similarity_self (docs : list string) (d : string) :
  In d docs -> analyze d <> [] -> similarity docs d d = 1.
Proof.
  intros Hd Hne. unfold similarity.
  pose proof (tfidf_not_null docs d Hd Hne) as Hpos.
  rewrite !normalize_unit.
  destruct (Req_dec_T (dot (tfidf docs d) (tfidf docs d)) 0); [lra|].
  destruct (Req_dec_T 1 0); [lra | reflexivity].
Qed.

Lemma vocabulary_nil (docs : list string) :
  vocabulary docs = [] <-> no_terms docs = true.
Proof.
  unfold vocabulary, no_terms. rewrite forallb_forall. split.
  - intros E d Hd. destruct (analyze d) as [|t ts] eqn:Ed; [reflexivity|].
    assert (Hin : In t (nodup string_dec (flat_map analyze docs))).
    { apply nodup_In, in_flat_map. exists d. rewrite Ed. simpl; auto. }
    rewrite E in Hin. destruct Hin.
  - intros H. destruct (nodup string_dec (flat_map analyze docs)) as [|t ts] eqn:E;
      [reflexivity|].
    assert (Hin : In t (nodup string_dec (flat_map analyze docs)))
      by (rewrite E; now left).
    apply nodup_In, in_flat_map in Hin. destruct Hin as (d & Hd & Ht).
    specialize (H d Hd). destruct (analyze d); [destruct Ht | discriminate].
Qed.

Lemma no_terms_false (docs : list string) (d : string) :
  In d docs -> analyze d <> [] -> no_terms docs = false.
Proof.
  intros Hd Hne. destruct (no_terms docs) eqn:E; [|reflexivity].
  unfold no_terms in E. rewrite forallb_forall in E. specialize (E d Hd).
  destruct (analyze d); [contradiction | discriminate].
Qed.

(** [rank_resumes] on a corpus with a token and at least one resume. *)
Lemma rank_resumes_scores (job_description : string) (resumes : list string) :
  no_terms (job_description :: resumes) = false ->
  resumes <> [] ->
  rank_resumes job_description resumes
  = Ok (map (similarity (job_description :: resumes) job_description) resumes).
Proof.
  intros Hv Hr. unfold rank_resumes, fit_transform.
  destruct (vocabulary (job_description :: resumes)) as [|t ts] eqn:E.
  - apply vocabulary_nil in E. congruence.
  - destruct resumes as [|r rs]; [contradiction|].
    cbn [bind map cosine_similarity List.concat]. rewrite app_nil_r.
    rewrite map_map. reflexivity.
Qed.

(** [rank_resumes] on a corpus without any token. *)
Lemma rank_resumes_empty_vocabulary
    (job_description : string) (resumes : list string) :
  no_terms (job_description :: resumes) = true ->
  rank_resumes job_description resumes = Raise empty_vocabulary.
Proof.
  intros Hv. apply vocabulary_nil in Hv.
  unfold rank_resumes, fit_transform. now rewrite Hv.
Qed.

End Scorer.

Lemma rank_resumes_returns (job_description : string) (texts : list string)
    (scores : list R) :
  rank_resumes job_description texts = Ok scores ->
  scores = map (similarity (job_description :: texts) job_description) texts.
Proof.
  intros H. destruct (no_terms (job_description :: texts)) eqn:Hv.
  - rewrite (rank_resumes_empty_vocabulary _ _ Hv) in H. discriminate.
  - destruct texts as [|r rs].
    + unfold rank_resumes, fit_transform in H.
      destruct (vocabulary [job_description]); discriminate.
    + rewrite rank_resumes_scores in H by (assumption || discriminate).
      now inversion H.
Qed.

(** ** Rounding *)

Section PowerBounds.

Local Open Scope R_scope.

Lemma Rabs_bounds (d u : R) : Rabs d <= u -> - u <= d <= u.
Proof. unfold Rabs. destruct (Rcase_abs d); lra. Qed.

Lemma pow_one_minus (u : R) (k : nat) :
  0 <= u <= 1 -> 1 - INR k * u <= (1 - u) ^ k.
Proof.
  intros Hu. induction k as [|k IH].
  - simpl. lra.
  - rewrite S_INR. simpl pow.
    pose proof (pos_INR k) as Hk.
    assert (H : (1 - u) * (1 - INR k * u) <= (1 - u) * (1 - u) ^ k)
      by (apply Rmult_le_compat_l; lra).
    nra.
Qed.

Lemma pow_one_plus (u : R) (k : nat) :
  0 <= u -> (1 + u) ^ k * (1 - INR k * u) <= 1.
Proof.
  intros Hu. induction k as [|k IH].
  - simpl. lra.
  - rewrite S_INR. simpl pow.
    pose proof (pos_INR k) as Hk.
    assert (Hp : 0 <= (1 + u) ^ k) by (apply pow_le; lra).
    assert (H : (1 + u) * (1 - (INR k + 1) * u) <= 1 - INR k * u) by nra.
    apply (Rmult_le_compat_l _ _ _ Hp) in H. nra.
Qed.

(** From bounds by powers of [1 + u] and [1 - u] to bounds linear in
    [u]. *)
Lemma pow_ratio_upper (u s : R) (k : nat) :
  0 <= u <= 1 -> INR k * u <= 1 / 5 ->
  0 <= s -> s * (1 - u) ^ k <= (1 + u) ^ k ->
  s <= 1 + 3 * (INR k * u).
Proof.
  intros Hu Hk Hs H.
  pose proof (pow_one_minus u k Hu) as Hb.
  pose proof (pow_one_plus u k (proj1 Hu)) as Ha.
  assert (Ht : 0 <= INR k * u)
    by (apply Rmult_le_pos; [apply pos_INR | apply Hu]).
  set (t := INR k * u) in *.
  set (A := (1 + u) ^ k) in *. set (B := (1 - u) ^ k) in *.
  assert (H1 : s * (1 - t) <= A) by nra.
  assert (H2 : s * (1 - t) * (1 - t) <= 1) by nra.
  assert (H3 : 1 <= (1 + 3 * t) * ((1 - t) * (1 - t))) by nra.
  assert (H4 : 0 < (1 - t) * (1 - t)) by nra.
  nra.
Qed.

Lemma pow_ratio_lower (u s : R) (k : nat) :
  0 <= u <= 1 -> INR k * u <= 1 / 5 ->
  (1 - u) ^ k <= s * (1 + u) ^ k ->
  1 - 2 * (INR k * u) <= s.
Proof.
  intros Hu Hk H.
  pose proof (pow_one_minus u k Hu) as Hb.
  pose proof (pow_one_plus u k (proj1 Hu)) as Ha.
  assert (Ht : 0 <= INR k * u)
    by (apply Rmult_le_pos; [apply pos_INR | apply Hu]).
  assert (Hp : 0 < (1 + u) ^ k) by (apply pow_lt; lra).
  set (t := INR k * u) in *.
  set (A := (1 + u) ^ k) in *. set (B := (1 - u) ^ k) in *.
  assert (H1 : 1 - t <= s * A) by lra.
  destruct (Rle_dec 0 s) as [Hs|Hs]; [|nra].
  assert (H2 : (1 - t) * (1 - t) <= s * (A * (1 - t))) by nra.
  assert (H3 : s * (A * (1 - t)) <= s) by nra.
  nra.
Qed.

End PowerBounds.

Section Rounding.

Local Open Scope R_scope.

Variable F : fp.arithmetic R.
Variable u : R.
Hypothesis model : standard_model u F.

Lemma roundoff_small : 0 <= u <= 1 / 4.
Proof.
  destruct (unit_roundoff u F model) as [H0 H1]. split; [exact H0|].
  apply Rle_trans with (/ 2 ^ 53); [exact H1|].
  replace (1 / 4) with (/ 4) by lra.
  apply Rinv_le_contravar; [lra|]. simpl. lra.
Qed.


Lemma rounded_exact (v : R) : rounded_within u 0 v v.
Proof. unfold rounded_within. simpl. lra. Qed.

Lemma rounded_nonneg (k : nat) (v c : R) :
  0 <= v -> rounded_within u k v c -> 0 <= c.
Proof.
  intros Hv [H _]. pose proof roundoff_small as Hu.
  assert (0 <= (1 - u) ^ k) by (apply pow_le; lra).
  apply Rle_trans with (v * (1 - u) ^ k); [now apply Rmult_le_pos | exact H].
Qed.

Lemma rounded_pos (k : nat) (v c : R) :
  0 < v -> rounded_within u k v c -> 0 < c.
Proof.
  intros Hv [H _]. pose proof roundoff_small as Hu.
  assert (0 < (1 - u) ^ k) by (apply pow_lt; lra).
  apply Rlt_le_trans with (v * (1 - u) ^ k);
    [now apply Rmult_lt_0_compat | exact H].
Qed.

Lemma rounded_step (k : nat) (v c d : R) :
  0 <= v -> rounded_within u k v c -> Rabs d <= u ->
  rounded_within u (S k) v (c * (1 + d)).
Proof.
  intros Hv Hc Hd. pose proof roundoff_small as Hu.
  pose proof (rounded_nonneg k v c Hv Hc) as Hc0.
  destruct Hc as [Hl Hh]. apply Rabs_bounds in Hd.
  assert (Ha : 0 <= (1 + u) ^ k) by (apply pow_le; lra).
  assert (Hb : 0 <= (1 - u) ^ k) by (apply pow_le; lra).
  unfold rounded_within. simpl pow. split.
  - apply Rle_trans with (c * (1 - u)); [|apply Rmult_le_compat_l; lra].
    replace (v * ((1 - u) * (1 - u) ^ k))
      with (v * (1 - u) ^ k * (1 - u)) by ring.
    apply Rmult_le_compat_r; lra.
  - apply Rle_trans with (c * (1 + u)); [apply Rmult_le_compat_l; lra|].
    replace (v * ((1 + u) * (1 + u) ^ k))
      with (v * (1 + u) ^ k * (1 + u)) by ring.
    apply Rmult_le_compat_r; lra.
Qed.

Lemma rounded_weaken (k k' : nat) (v c : R) :
  0 <= v -> (k <= k')%nat ->
  rounded_within u k v c -> rounded_within u k' v c.
Proof.
  intros Hv Hk Hc. induction Hk as [|k' Hk IH]; [exact Hc|].
  replace c with (c * (1 + 0)) by ring.
  apply rounded_step; [exact Hv | exact IH |].
  rewrite Rabs_R0. apply roundoff_small.
Qed.

Lemma rounded_sum (k : nat) (v w c e : R) :
  rounded_within u k v c -> rounded_within u k w e ->
  rounded_within u k (v + w) (c + e).
Proof. unfold rounded_within. intros [? ?] [? ?]. split; lra. Qed.

Lemma rounded_zero (k : nat) (c : R) : rounded_within u k 0 c -> c = 0.
Proof. unfold rounded_within. intros [? ?]. lra. Qed.

(** *** The dot product *)

Lemma fp_dot_cons (a b : R) (x y : list R) :
  fp.dot F (a :: x) (b :: y) = fp.add F (fp.mul F a b) (fp.dot F x y).
Proof. reflexivity. Qed.

Lemma fp_dot_nil_r (x : list R) : fp.dot F x [] = 0.
Proof. destruct x; apply (zero_exact u F model). Qed.

(** A sum of products that are not negative is computed with a relative
    error that grows with the number of terms. *)
Lemma fp_dot_rounded (x y : list R) :
  Forall (fun p => 0 <= fst p * snd p) (combine x y) ->
  0 <= dot x y
  /\ rounded_within u (S (List.length (combine x y)))
                    (dot x y) (fp.dot F x y).
Proof.
  revert y. induction x as [|a x IH]; intros y Hp.
  - unfold fp.dot, dot. simpl. rewrite (zero_exact u F model).
    split; [lra|]. unfold rounded_within. lra.
  - destruct y as [|b y].
    + rewrite fp_dot_nil_r. unfold dot. simpl.
      split; [lra|]. unfold rounded_within. lra.
    + simpl combine in Hp. inversion Hp as [|p l Hab Hrest]; subst.
      simpl in Hab.
      destruct (IH y Hrest) as [He Hr].
      rewrite fp_dot_cons, dot_cons. split; [lra|].
      destruct (mul_rounded u F model a b) as (d1 & Hd1 & ->).
      destruct (add_rounded u F model (a * b * (1 + d1)) (fp.dot F x y))
        as (d2 & Hd2 & ->).
      simpl List.length.
      apply rounded_step; [lra| |exact Hd2].
      apply rounded_sum; [|exact Hr].
      apply (rounded_weaken 1); [exact Hab | lia |].
      apply rounded_step; [exact Hab | apply rounded_exact | exact Hd1].
Qed.

Lemma combine_self_squares (x : list R) :
  Forall (fun p : R * R => 0 <= fst p * snd p) (combine x x)
  /\ List.length (combine x x) = List.length x.
Proof.
  split; [|rewrite length_combine; apply Nat.min_id].
  induction x as [|a x IH]; simpl; constructor; [simpl; nra | exact IH].
Qed.

Lemma fp_dot_self_rounded (x : list R) :
  rounded_within u (S (List.length x)) (dot x x) (fp.dot F x x).
Proof.
  destruct (combine_self_squares x) as [Hp Hl].
  rewrite <- Hl. now apply fp_dot_rounded.
Qed.

Lemma combine_nonneg (x y : list R) :
  Forall (Rle 0) x -> Forall (Rle 0) y ->
  Forall (fun p : R * R => 0 <= fst p * snd p) (combine x y).
Proof.
  intros Hx; revert y; induction Hx as [|a x Ha Hx IH]; intros y Hy.
  - constructor.
  - destruct Hy as [|b y Hb Hy]; simpl; constructor.
    + simpl. now apply Rmult_le_pos.
    + now apply IH.
Qed.

Lemma fp_dot_zero_r (x y : list R) :
  Forall (eq 0) y -> fp.dot F x y = 0.
Proof.
  intros Hy.
  assert (Hp : Forall (fun p : R * R => 0 <= fst p * snd p) (combine x y)).
  { revert x. induction Hy as [|b y Hb Hy IH]; intros [|a x]; simpl;
      constructor; [simpl; subst; lra | apply IH]. }
  destruct (fp_dot_rounded x y Hp) as [_ Hr].
  rewrite (dot_zero_r x y Hy) in Hr. now apply rounded_zero in Hr.
Qed.

Lemma fp_dot_zero_l (x y : list R) :
  Forall (eq 0) x -> fp.dot F x y = 0.
Proof.
  intros Hx.
  assert (Hp : Forall (fun p : R * R => 0 <= fst p * snd p) (combine x y)).
  { revert y. induction Hx as [|a x Ha Hx IH]; intros [|b y]; simpl;
      constructor; [simpl; subst; lra | apply IH]. }
  destruct (fp_dot_rounded x y Hp) as [_ Hr].
  rewrite (dot_zero_l x y Hx) in Hr. now apply rounded_zero in Hr.
Qed.

Lemma dot_self_zero (x : list R) : dot x x = 0 -> Forall (eq 0) x.
Proof.
  induction x as [|a x IH]; [constructor|].
  rewrite dot_cons. intros H. pose proof (dot_self_nonneg x) as Hx.
  assert (Ha : a = 0) by nra.
  constructor; [now symmetry | apply IH; nra].
Qed.

(** *** Norms *)

Lemma fp_norm_null (x : list R) :
  dot x x = 0 -> fp.handle_zeros F (fp.row_norm F x) = 1.
Proof.
  intros E. unfold fp.handle_zeros, fp.row_norm.
  rewrite (fp_dot_zero_r x x (dot_self_zero x E)).
  destruct (sqrt_rounded u F model 0) as (d & _ & ->). rewrite sqrt_0.
  replace (0 * (1 + d)) with 0 by ring.
  destruct (fp.is_zero F 0) eqn:Z; [apply (one_exact u F model)|].
  assert (Z' : fp.is_zero F 0 = true) by now apply (is_zero_exact u F model).
  congruence.
Qed.

(** A row that is not null has a positive computed norm, whose square is
    the sum of the squares after a few more roundings. *)
Lemma fp_norm_rounded (x : list R) :
  0 < dot x x ->
  let n := fp.handle_zeros F (fp.row_norm F x) in
  0 < n /\ rounded_within u (List.length x + 3) (dot x x) (n * n).
Proof.
  intros E n. pose proof roundoff_small as Hu.
  pose proof (fp_dot_self_rounded x) as Hr.
  pose proof (rounded_pos _ _ _ E Hr) as Hs.
  unfold n, fp.handle_zeros, fp.row_norm.
  destruct (sqrt_rounded u F model (fp.dot F x x)) as (d & Hd & ->).
  set (S := fp.dot F x x) in *.
  assert (Hq : 0 < sqrt S) by now apply sqrt_lt_R0.
  pose proof (Rabs_bounds _ _ Hd) as Hd'.
  assert (Hn : 0 < sqrt S * (1 + d)) by (apply Rmult_lt_0_compat; lra).
  destruct (fp.is_zero F (sqrt S * (1 + d))) eqn:Z.
  { apply (is_zero_exact u F model) in Z. lra. }
  split; [exact Hn|].
  replace (sqrt S * (1 + d) * (sqrt S * (1 + d)))
    with (sqrt S * sqrt S * (1 + d) * (1 + d)) by ring.
  rewrite sqrt_sqrt by lra.
  replace (List.length x + 3)%nat
    with (Datatypes.S (Datatypes.S (Datatypes.S (List.length x)))) by lia.
  apply rounded_step; [lra| |exact Hd].
  apply rounded_step; [lra| |exact Hd]. exact Hr.
Qed.

Lemma fp_norm_pos (x : list R) : 0 < fp.handle_zeros F (fp.row_norm F x).
Proof.
  pose proof (dot_self_nonneg x) as H.
  destruct (Req_dec_T (dot x x) 0) as [E|E].
  - rewrite (fp_norm_null x E). lra.
  - apply fp_norm_rounded. lra.
Qed.

(** *** Normalisation *)

Lemma fp_normalize_length (x : list R) :
  List.length (fp.normalize F x) = List.length x.
Proof. apply length_map. Qed.

Lemma fp_normalize_nonneg (x : list R) :
  Forall (Rle 0) x -> Forall (Rle 0) (fp.normalize F x).
Proof.
  intros Hx. unfold fp.normalize. apply Forall_map.
  pose proof (fp_norm_pos x) as Hp. pose proof roundoff_small as Hu.
  revert Hx; apply Forall_impl. intros v Hv.
  destruct (div_rounded u F model v (fp.handle_zeros F (fp.row_norm F x)))
    as (d & Hd & ->).
  apply Rabs_bounds in Hd.
  apply Rmult_le_pos; [|lra].
  apply Rmult_le_pos; [exact Hv|]. left. now apply Rinv_0_lt_compat.
Qed.

Lemma fp_normalize_zero (x : list R) :
  Forall (eq 0) x -> Forall (eq 0) (fp.normalize F x).
Proof.
  intros Hx. unfold fp.normalize. apply Forall_map.
  revert Hx; apply Forall_impl. intros v <-.
  destruct (div_rounded u F model 0 (fp.handle_zeros F (fp.row_norm F x)))
    as (d & _ & ->).
  unfold Rdiv. ring.
Qed.

(** The squares of a row divided by [n], summed exactly. *)
Lemma fp_scaled_squares (n : R) (x : list R) :
  n <> 0 ->
  rounded_within u 2 (dot x x)
          (dot (map (fun v => fp.div F v n) x) (map (fun v => fp.div F v n) x)
           * (n * n)).
Proof.
  intros Hn. pose proof roundoff_small as Hu.
  induction x as [|a x IH].
  - unfold dot, rounded_within. simpl. lra.
  - simpl map. rewrite !dot_cons.
    destruct (div_rounded u F model a n) as (d & Hd & ->).
    replace ((a / n * (1 + d) * (a / n * (1 + d))
              + dot (map (fun v => fp.div F v n) x)
                    (map (fun v => fp.div F v n) x)) * (n * n))
      with (a * a * (1 + d) * (1 + d)
            + dot (map (fun v => fp.div F v n) x)
                  (map (fun v => fp.div F v n) x) * (n * n))
      by (field; exact Hn).
    apply rounded_sum; [|exact IH].
    assert (Ha : 0 <= a * a) by nra.
    apply rounded_step; [exact Ha| |exact Hd].
    apply rounded_step; [exact Ha| apply rounded_exact |exact Hd].
Qed.

(** A normalised row has a squared norm close to one, ... *)
Lemma fp_normalize_upper (x : list R) :
  dot (fp.normalize F x) (fp.normalize F x) * (1 - u) ^ (List.length x + 3)
  <= (1 + u) ^ 2.
Proof.
  pose proof roundoff_small as Hu.
  pose proof (dot_self_nonneg x) as H0.
  destruct (Req_dec_T (dot x x) 0) as [E|E].
  - rewrite (dot_zero_r _ _ (fp_normalize_zero x (dot_self_zero x E))).
    assert (0 <= (1 + u) ^ 2) by (apply pow_le; lra). lra.
  - assert (Hpos : 0 < dot x x) by lra.
    destruct (fp_norm_rounded x Hpos) as [Hn [Hl _]].
    unfold fp.normalize.
    set (n := fp.handle_zeros F (fp.row_norm F x)) in *.
    destruct (fp_scaled_squares n x) as [_ Hh]; [lra|].
    set (Q := dot (map (fun v => fp.div F v n) x)
                  (map (fun v => fp.div F v n) x)) in *.
    assert (HQ : 0 <= Q) by apply dot_self_nonneg.
    assert (H1 : Q * (dot x x * (1 - u) ^ (List.length x + 3))
                 <= dot x x * (1 + u) ^ 2).
    { apply Rle_trans with (Q * (n * n)); [|exact Hh].
      apply Rmult_le_compat_l; [exact HQ | exact Hl]. }
    apply Rmult_le_reg_l with (dot x x); [exact Hpos|]. lra.
Qed.

(** ... and not null when the row is not null. *)
Lemma fp_normalize_lower (x : list R) :
  0 < dot x x ->
  (1 - u) ^ 2
  <= dot (fp.normalize F x) (fp.normalize F x) * (1 + u) ^ (List.length x + 3).
Proof.
  intros Hpos. pose proof roundoff_small as Hu.
  destruct (fp_norm_rounded x Hpos) as [Hn [_ Hh]].
  unfold fp.normalize.
  set (n := fp.handle_zeros F (fp.row_norm F x)) in *.
  destruct (fp_scaled_squares n x) as [Hl _]; [lra|].
  set (Q := dot (map (fun v => fp.div F v n) x)
                (map (fun v => fp.div F v n) x)) in *.
  assert (HQ : 0 <= Q) by apply dot_self_nonneg.
  assert (H1 : dot x x * (1 - u) ^ 2
               <= Q * (dot x x * (1 + u) ^ (List.length x + 3))).
  { apply Rle_trans with (Q * (n * n)); [exact Hl|].
    apply Rmult_le_compat_l; [exact HQ | exact Hh]. }
  apply Rmult_le_reg_l with (dot x x); [exact Hpos|]. lra.
Qed.

Lemma fp_normalize_not_null (x : list R) :
  0 < dot x x -> 0 < dot (fp.normalize F x) (fp.normalize F x).
Proof.
  intros Hpos. pose proof roundoff_small as Hu.
  pose proof (fp_normalize_lower x Hpos) as H.
  assert (Ha : 0 < (1 + u) ^ (List.length x + 3)) by (apply pow_lt; lra).
  assert (Hb : 0 < (1 - u) ^ 2) by (apply pow_lt; lra).
  pose proof (dot_self_nonneg (fp.normalize F x)) as HQ.
  destruct HQ as [HQ|HQ]; [exact HQ|]. rewrite <- HQ in H. lra.
Qed.

End Rounding.

Section RoundedScorer.

Local Open Scope R_scope.

Variable F : fp.arithmetic R.
Variable u : R.
Hypothesis model : standard_model u F.

Lemma ln_lower (y : R) : 0 < y -> 1 - / y <= ln y.
Proof.
  intros Hy. pose proof (exp_ineq1_le (ln (/ y))) as H.
  rewrite exp_ln in H by now apply Rinv_0_lt_compat.
  rewrite ln_Rinv in H by exact Hy. lra.
Qed.

(** The computed inverse document frequency is positive. *)
Lemma fp_idf_pos (docs : list string) (t : string) : 0 < fp.idf F docs t.
Proof.
  pose proof (roundoff_small F u model) as Hu.
  unfold fp.idf. rewrite !(of_nat_exact u F model), (one_exact u F model).
  set (n := INR (1 + List.length docs)). set (k := INR (1 + df docs t)).
  assert (Hk : 0 < k) by (apply lt_0_INR; lia).
  assert (Hkn : k <= n) by (apply le_INR; pose proof (df_le_samples docs t); lia).
  assert (Hq : 1 <= n / k).
  { apply Rmult_le_reg_r with k; [exact Hk|].
    unfold Rdiv. rewrite Rmult_assoc, Rinv_l by lra. lra. }
  destruct (div_rounded u F model n k) as (d1 & Hd1 & ->).
  apply Rabs_bounds in Hd1.
  set (y := n / k * (1 + d1)).
  assert (Hy : 3 / 4 <= y) by (unfold y; nra).
  destruct (log_rounded u F model y) as (d2 & Hd2 & ->).
  apply Rabs_bounds in Hd2.
  assert (Hln : - (1 / 3) <= ln y).
  { apply Rle_trans with (1 - / y); [|apply ln_lower; lra].
    assert (/ y <= / (3 / 4)) by (apply Rinv_le_contravar; lra).
    lra. }
  destruct (add_rounded u F model (ln y * (1 + d2)) 1) as (d3 & Hd3 & ->).
  apply Rabs_bounds in Hd3.
  assert (HL : - (1 / 2) <= ln y * (1 + d2)) by nra.
  apply Rmult_lt_0_compat; lra.
Qed.

Lemma fp_tfidf_length (docs : list string) (d : string) :
  List.length (fp.tfidf F docs d) = List.length (vocabulary docs).
Proof. apply length_map. Qed.

Lemma fp_weight_nonneg (docs : list string) (d t : string) :
  0 <= fp.mul F (fp.of_nat F (tf t d)) (fp.idf F docs t).
Proof.
  pose proof (roundoff_small F u model) as Hu.
  rewrite (of_nat_exact u F model).
  destruct (mul_rounded u F model (INR (tf t d)) (fp.idf F docs t))
    as (e & He & ->).
  apply Rabs_bounds in He.
  pose proof (fp_idf_pos docs t). pose proof (pos_INR (tf t d)).
  apply Rmult_le_pos; [apply Rmult_le_pos|]; lra.
Qed.

Lemma fp_tfidf_nonneg (docs : list string) (d : string) :
  Forall (Rle 0) (fp.tfidf F docs d).
Proof.
  unfold fp.tfidf. apply Forall_map, Forall_forall. intros t _.
  apply fp_weight_nonneg.
Qed.

(** A document with a token has a computed row that is not null. *)
Lemma fp_tfidf_not_null (docs : list string) (d : string) :
  In d docs -> analyze d <> [] ->
  0 < dot (fp.tfidf F docs d) (fp.tfidf F docs d).
Proof.
  intros Hd Hne. pose proof (roundoff_small F u model) as Hu.
  destruct (analyze d) as [|t ts] eqn:E; [contradiction|].
  assert (Ht : In t (analyze d)) by (rewrite E; now left).
  apply dot_self_pos
    with (v := fp.mul F (fp.of_nat F (tf t d)) (fp.idf F docs t)).
  - unfold fp.tfidf.
    apply (in_map (fun t => fp.mul F (fp.of_nat F (tf t d)) (fp.idf F docs t))).
    now apply vocabulary_In with d.
  - assert (Hc : (1 <= tf t d)%nat).
    { unfold tf. apply (count_occ_In string_dec) in Ht. lia. }
    apply le_INR in Hc. simpl in Hc.
    rewrite (of_nat_exact u F model).
    destruct (mul_rounded u F model (INR (tf t d)) (fp.idf F docs t))
      as (e & He & ->).
    apply Rabs_bounds in He. pose proof (fp_idf_pos docs t).
    assert (0 < INR (tf t d) * fp.idf F docs t * (1 + e))
      by (apply Rmult_lt_0_compat; [apply Rmult_lt_0_compat|]; lra).
    lra.
Qed.

(** A document without a token has the null row. *)
Lemma fp_tfidf_null (docs : list string) (d : string) :
  analyze d = [] -> Forall (eq 0) (fp.tfidf F docs d).
Proof.
  intros E. unfold fp.tfidf, tf. rewrite E.
  apply Forall_map, Forall_forall. intros t _. simpl count_occ.
  rewrite (of_nat_exact u F model).
  destruct (mul_rounded u F model (INR 0) (fp.idf F docs t)) as (e & _ & ->).
  simpl. ring.
Qed.

Lemma fp_similarity_null (docs : list string) (q r : string) :
  Forall (eq 0) (fp.tfidf F docs r) -> fp.similarity F docs q r = 0.
Proof.
  intros H. unfold fp.similarity. apply (fp_dot_zero_r F u model).
  now repeat apply (fp_normalize_zero F u model).
Qed.

(** A computed score is not negative and exceeds one by the rounding
    errors at most. *)
Lemma fp_similarity_range (docs : list string) (q r : string) :
  let m := List.length (vocabulary docs) in
  0 <= fp.similarity F docs q r
  /\ fp.similarity F docs q r * (1 - u) ^ (m + 3) <= (1 + u) ^ (m + 3).
Proof.
  intros m. pose proof (roundoff_small F u model) as Hu.
  unfold fp.similarity.
  set (yq := fp.normalize F (fp.tfidf F docs q)).
  set (yr := fp.normalize F (fp.tfidf F docs r)).
  set (zq := fp.normalize F yq). set (zr := fp.normalize F yr).
  assert (Lq : List.length yq = m)
    by (unfold yq; now rewrite fp_normalize_length, fp_tfidf_length).
  assert (Lr : List.length yr = m)
    by (unfold yr; now rewrite fp_normalize_length, fp_tfidf_length).
  assert (Hq : Forall (Rle 0) zq)
    by (repeat apply (fp_normalize_nonneg F u model); apply fp_tfidf_nonneg).
  assert (Hr : Forall (Rle 0) zr)
    by (repeat apply (fp_normalize_nonneg F u model); apply fp_tfidf_nonneg).
  destruct (fp_dot_rounded F u model zq zr (combine_nonneg zq zr Hq Hr))
    as [HD Hs].
  assert (Lc : List.length (combine zq zr) = m).
  { rewrite length_combine. unfold zq, zr.
    rewrite !fp_normalize_length, Lq, Lr. apply Nat.min_id. }
  rewrite Lc in Hs.
  split; [exact (rounded_nonneg F u model _ _ _ HD Hs)|].
  destruct Hs as [_ Hs].
  pose proof (fp_normalize_upper F u model yq) as Uq.
  pose proof (fp_normalize_upper F u model yr) as Ur.
  rewrite Lq in Uq. rewrite Lr in Ur. fold zq in Uq. fold zr in Ur.
  pose proof (dot_am_gm zq zr) as Hm.
  replace (m + 3)%nat with (S m + 2)%nat at 2 by lia.
  rewrite (pow_add (1 + u) (S m) 2).
  set (B := (1 - u) ^ (m + 3)) in *.
  set (A := (1 + u) ^ S m) in *. set (A2 := (1 + u) ^ 2) in *.
  assert (HB : 0 <= B) by (apply pow_le; lra).
  assert (HA : 0 <= A) by (apply pow_le; lra).
  assert (H1 : dot zq zr * B <= A2) by nra.
  apply Rle_trans with (dot zq zr * A * B).
  - apply Rmult_le_compat_r; [exact HB | exact Hs].
  - replace (dot zq zr * A * B) with (A * (dot zq zr * B)) by ring.
    now apply Rmult_le_compat_l.
Qed.

(** The computed score of a document with a token against itself falls
    short of one by the rounding errors at most. *)
Lemma fp_similarity_self (docs : list string) (d : string) :
  In d docs -> analyze d <> [] ->
  let m := List.length (vocabulary docs) in
  (1 - u) ^ (m + 3) <= fp.similarity F docs d d * (1 + u) ^ (m + 3).
Proof.
  intros Hd Hne m. pose proof (roundoff_small F u model) as Hu.
  unfold fp.similarity.
  set (y := fp.normalize F (fp.tfidf F docs d)).
  set (z := fp.normalize F y).
  assert (Ly : List.length y = m)
    by (unfold y; now rewrite fp_normalize_length, fp_tfidf_length).
  assert (Hy : 0 < dot y y)
    by (apply (fp_normalize_not_null F u model); now apply fp_tfidf_not_null).
  pose proof (fp_normalize_lower F u model y Hy) as Hz.
  rewrite Ly in Hz. fold z in Hz.
  pose proof (fp_dot_self_rounded F u model z) as [Hs _].
  assert (Lz : List.length z = m)
    by (unfold z; now rewrite fp_normalize_length).
  rewrite Lz in Hs.
  replace (m + 3)%nat with (S m + 2)%nat at 1 by lia.
  rewrite (pow_add (1 - u) (S m) 2).
  set (A := (1 + u) ^ (m + 3)) in *.
  set (B := (1 - u) ^ S m) in *. set (B2 := (1 - u) ^ 2) in *.
  assert (HA : 0 <= A) by (apply pow_le; lra).
  assert (HB : 0 <= B) by (apply pow_le; lra).
  apply Rle_trans with (dot z z * B * A).
  - replace (dot z z * B * A) with (B * (dot z z * A)) by ring.
    now apply Rmult_le_compat_l.
  - apply Rmult_le_compat_r; [exact HA | exact Hs].
Qed.

(** [fp.rank_resumes] on a corpus with a token and at least one resume. *)
Lemma fp_rank_resumes_scores
    (job_description : string) (resumes : list string) :
  no_terms (job_description :: resumes) = false ->
  resumes <> [] ->
  fp.rank_resumes F job_description resumes
  = Ok (map (fp.similarity F (job_description :: resumes) job_description)
            resumes).
Proof.
  intros Hv Hr. unfold fp.rank_resumes, fp.fit_transform.
  destruct (vocabulary (job_description :: resumes)) as [|t ts] eqn:E.
  - apply vocabulary_nil in E. congruence.
  - destruct resumes as [|r rs]; [contradiction|].
    cbn [bind map fp.cosine_similarity List.concat]. rewrite app_nil_r.
    rewrite map_map. reflexivity.
Qed.

(** The rounding errors of a vocabulary of a million terms. *)
Lemma roundoff_budget (m : nat) :
  (Z.of_nat m <= 1000000)%Z ->
  0 <= u <= 1
  /\ INR (m + 3) * u <= 1 / 5
  /\ 3 * (INR (m + 3) * u) <= 1 / 1000000000.
Proof.
  intros Hm. destruct (unit_roundoff u F model) as [H0 H1].
  assert (Hk : INR (m + 3) <= 1000003).
  { rewrite plus_INR, INR_IZR_INZ. apply IZR_le in Hm. simpl. lra. }
  assert (Hc : / 2 ^ 53 <= / 9000000000000000).
  { apply Rinv_le_contravar; [lra|]. simpl. lra. }
  pose proof (pos_INR (m + 3)) as Hp.
  assert (Hu : u <= / 9000000000000000) by lra.
  assert (Hku : INR (m + 3) * u <= 1000003 * / 9000000000000000).
  { apply Rmult_le_compat; lra. }
  lra.
Qed.

End RoundedScorer.

Section Instances.

Local Open Scope R_scope.

Lemma is_zero_dec (x : R) :
  (if Req_dec_T x 0 then true else false) = true <-> x = 0.
Proof. destruct (Req_dec_T x 0); split; (congruence || discriminate). Qed.

Lemma roundoff_range : 0 <= / 2 ^ 53 <= 1 / 2.
Proof.
  assert (H : 0 < 2 ^ 53) by (apply pow_lt; lra).
  split; [left; now apply Rinv_0_lt_compat|].
  replace (1 / 2) with (/ 2) by lra.
  apply Rinv_le_contravar; [lra|]. simpl. lra.
Qed.

(** The exact arithmetic is a standard model, without any error. *)
Lemma exact_standard_model : standard_model 0 exact.
Proof.
  pose proof roundoff_range as Hr.
  constructor; try reflexivity.
  - lra.
  - apply is_zero_dec.
  - intros x y. exists 0. rewrite Rabs_R0. split; [lra | simpl; ring].
  - intros x y. exists 0. rewrite Rabs_R0. split; [lra | simpl; ring].
  - intros x y. exists 0. rewrite Rabs_R0. split; [lra | simpl; ring].
  - intros x. exists 0. rewrite Rabs_R0. split; [lra | simpl; ring].
  - intros x. exists 0. rewrite Rabs_R0. split; [lra | simpl; ring].
Qed.

(** So is the arithmetic that rounds every result up. *)
Lemma rounding_up_standard_model : standard_model (/ 2 ^ 53) rounding_up.
Proof.
  pose proof roundoff_range as Hr.
  assert (Ha : Rabs (/ 2 ^ 53) = / 2 ^ 53) by (apply Rabs_pos_eq; lra).
  constructor; try reflexivity.
  - lra.
  - apply is_zero_dec.
  - intros x y. exists (/ 2 ^ 53). rewrite Ha. split; [lra | reflexivity].
  - intros x y. exists (/ 2 ^ 53). rewrite Ha. split; [lra | reflexivity].
  - intros x y. exists (/ 2 ^ 53). rewrite Ha. split; [lra | reflexivity].
  - intros x. exists (/ 2 ^ 53). rewrite Ha. split; [lra | reflexivity].
  - intros x. exists (/ 2 ^ 53). rewrite Ha. split; [lra | reflexivity].
Qed.

(** Over the exact arithmetic [Module fp] is [Module sklearn]. *)
Lemma fp_idf_exact (docs : list string) (t : string) :
  fp.idf exact docs t = idf docs t.
Proof.
  unfold fp.idf, idf.
  cbn [fp.add fp.log fp.div fp.of_nat fp.one exact].
  rewrite !plus_INR. reflexivity.
Qed.

Lemma fp_tfidf_exact (docs : list string) (d : string) :
  fp.tfidf exact docs d = tfidf docs d.
Proof.
  unfold fp.tfidf, tfidf. apply map_ext. intros t.
  now rewrite fp_idf_exact.
Qed.

Lemma fp_dot_exact (x y : list R) : fp.dot exact x y = dot x y.
Proof. reflexivity. Qed.

Lemma fp_normalize_exact (x : list R) : fp.normalize exact x = normalize x.
Proof.
  unfold fp.normalize, normalize. apply map_ext. intros v.
  unfold fp.handle_zeros, handle_zeros, fp.row_norm, row_norm.
  rewrite fp_dot_exact. cbn [fp.sqrt fp.is_zero fp.one fp.div exact].
  now destruct (Req_dec_T (sqrt (dot x x)) 0).
Qed.

Lemma fp_similarity_exact (docs : list string) (q r : string) :
  fp.similarity exact docs q r = similarity docs q r.
Proof.
  unfold fp.similarity, similarity.
  now rewrite fp_dot_exact, !fp_normalize_exact, !fp_tfidf_exact.
Qed.

Lemma fp_rank_resumes_exact
    (job_description : string) (texts : list string) :
  fp.rank_resumes exact job_description texts
  = rank_resumes job_description texts.
Proof.
  destruct (no_terms (job_description :: texts)) eqn:Hv.
  - rewrite (rank_resumes_empty_vocabulary _ _ Hv).
    apply vocabulary_nil in Hv.
    unfold fp.rank_resumes, fp.fit_transform. now rewrite Hv.
  - destruct texts as [|r rs].
    + unfold fp.rank_resumes, fp.fit_transform, rank_resumes, fit_transform.
      destruct (vocabulary [job_description]); reflexivity.
    + rewrite fp_rank_resumes_scores, rank_resumes_scores
        by (assumption || discriminate).
      f_equal. apply map_ext. intros x. apply fp_similarity_exact.
Qed.

End Instances.

(** *** A run in binary64

    The query "python developer" and one candidate with the same text:
    both terms occur in both documents, [3 / 3] is exactly 1 and its
    logarithm 0, so that the rows are [1; 1] before normalisation.  The
    two normalisations and the dot product then round to
    1.0000000000000002, the successor of 1. *)
Lemma binary64_identical_score (log : float -> float) :
  log PrimFloat.one = PrimFloat.zero ->
  fp.rank_resumes (binary64 log) "python developer" ["python developer"]
  = Ok [PrimFloat.next_up PrimFloat.one].
Proof.
  intros Hlog.
  assert (V : vocabulary ["python developer"; "python developer"]
              = ["python"; "developer"]) by (vm_compute; reflexivity).
  assert (T : forall t, In t ["python"; "developer"] ->
                        tf t "python developer" = 1%nat
                        /\ df ["python developer"; "python developer"] t
                           = 2%nat).
  { intros t [<-|[<-|[]]]; split; vm_compute; reflexivity. }
  assert (I : forall t, In t ["python"; "developer"] ->
                fp.mul (binary64 log)
                  (fp.of_nat (binary64 log) (tf t "python developer"))
                  (fp.idf (binary64 log)
                     ["python developer"; "python developer"] t)
                = PrimFloat.one).
  { intros t Ht. destruct (T t Ht) as [-> Hdf].
    unfold fp.idf. rewrite Hdf. simpl List.length.
    assert (D : fp.div (binary64 log) (fp.of_nat (binary64 log) (1 + 2))
                       (fp.of_nat (binary64 log) (1 + 2))
                = PrimFloat.one) by (vm_compute; reflexivity).
    rewrite D.
    change (fp.log (binary64 log) PrimFloat.one) with (log PrimFloat.one).
    rewrite Hlog. vm_compute. reflexivity. }
  assert (X : fp.tfidf (binary64 log)
                ["python developer"; "python developer"] "python developer"
              = [PrimFloat.one; PrimFloat.one]).
  { unfold fp.tfidf. rewrite V. cbn [map].
    rewrite !I by (simpl; auto). reflexivity. }
  unfold fp.rank_resumes, fp.fit_transform. rewrite V.
  cbn [map bind fp.cosine_similarity List.concat]. rewrite X.
  vm_compute. reflexivity.
Qed.

(** That score is above 1 and within 1e-9 of it. *)
Example binary64_identical_score_within_tolerance :
  PrimFloat.next_up PrimFloat.one = 0x1.0000000000001p+0%float
  /\ PrimFloat.ltb PrimFloat.one (PrimFloat.next_up PrimFloat.one) = true
  /\ PrimFloat.leb
       (PrimFloat.sub (PrimFloat.next_up PrimFloat.one) PrimFloat.one)
       (PrimFloat.div PrimFloat.one
          (PrimFloat.of_uint63 (Uint63.of_Z 1000000000))) = true.
Proof. repeat split; vm_compute; reflexivity. Qed.

(** *** Claims on the scorer *)







(** ** The sort *)

Section SortedFacts.

Context {A K : Type}.
Variable key : A -> K.
Variable lt : K -> K -> bool.

Lemma insert_perm (x : A) (l : list A) :
  Permutation (insert key lt x l) (x :: l).
Proof.
  induction l as [|y l IH]; simpl; [reflexivity|].
  destruct (lt (key y) (key x)); [|reflexivity].
  rewrite IH. apply perm_swap.
Qed.

Lemma stable_sort_perm (l : list A) : Permutation (stable_sort key lt l) l.
Proof.
  induction l as [|x l IH]; simpl; [reflexivity|].
  rewrite insert_perm. now constructor.
Qed.

Lemma sorted_perm (l : list A) (reverse : bool) :
  Permutation (sorted key lt l reverse) l.
Proof.
  unfold sorted. destruct reverse; [|apply stable_sort_perm].
  rewrite <- Permutation_rev, stable_sort_perm. symmetry.
  apply Permutation_rev.
Qed.

(** The sort commutes with any map that keeps the keys. *)
Lemma sorted_map {B : Type} (f : B -> A) (l : list B) (reverse : bool) :
  sorted key lt (map f l) reverse
  = map f (sorted (fun b => key (f b)) lt l reverse).
Proof.
  assert (Hi : forall x s, insert key lt (f x) (map f s)
                           = map f (insert (fun b => key (f b)) lt x s)).
  { intros x s; induction s as [|y s IH]; simpl; [reflexivity|].
    destruct (lt (key (f y)) (key (f x))); simpl; [now rewrite IH | reflexivity]. }
  assert (Hs : forall s, stable_sort key lt (map f s)
                         = map f (stable_sort (fun b => key (f b)) lt s)).
  { induction s as [|x s IH]; simpl; [reflexivity|]. now rewrite IH, Hi. }
  unfold sorted. destruct reverse; [|apply Hs].
  now rewrite <- map_rev, Hs, map_rev.
Qed.

(** [lt] is a strict weak order, as [<] is on numbers. *)
Hypothesis lt_asym : forall a b, lt a b = true -> lt b a = false.
Hypothesis lt_negtrans :
  forall a b c, lt a c = true -> lt a b = true \/ lt b c = true.

Variable before : A -> A -> Prop.

Let ascending := ascending key lt before.

Lemma insert_ascending (x : A) (l : list A) :
  StronglySorted ascending l -> Forall (before x) l ->
  StronglySorted ascending (insert key lt x l).
Proof.
  induction 1 as [|y l Hl IH Hy]; intros Hx; simpl.
  - constructor; constructor.
  - inversion Hx as [|? ? Hxy Hxl]; subst.
    destruct (lt (key y) (key x)) eqn:E.
    + constructor; [now apply IH|].
      apply (Permutation_Forall (Permutation_sym (insert_perm x l))).
      constructor; [|exact Hy].
      split; [now apply lt_asym | now left].
    + constructor; [now constructor|].
      constructor; [split; [exact E | now right]|].
      rewrite Forall_forall in Hy, Hxl |- *. intros z Hz.
      split; [|right; now apply Hxl].
      destruct (lt (key z) (key x)) eqn:Ez; [|reflexivity].
      destruct (lt_negtrans _ (key y) _ Ez) as [H|H].
      * destruct (Hy z Hz) as [Hzy _]. congruence.
      * congruence.
Qed.

Lemma stable_sort_ascending (l : list A) :
  StronglySorted before l -> StronglySorted ascending (stable_sort key lt l).
Proof.
  induction 1 as [|x l Hl IH Hx]; simpl; [constructor|].
  apply insert_ascending; [exact IH|].
  now apply (Permutation_Forall (Permutation_sym (stable_sort_perm l))).
Qed.

End SortedFacts.

Lemma StronglySorted_rev {A} (R : A -> A -> Prop) (l : list A) :
  StronglySorted R l -> StronglySorted (fun a b => R b a) (rev l).
Proof.
  induction 1 as [|x l Hl IH Hx]; simpl; [constructor|].
  assert (Happ : forall s, StronglySorted (fun a b => R b a) s ->
                           Forall (fun y => R x y) s ->
                           StronglySorted (fun a b => R b a) (s ++ [x])).
  { induction 1 as [|y s Hs IHs Hy]; intros Hf; simpl.
    - constructor; constructor.
    - inversion Hf; subst. constructor; [now apply IHs|].
      apply Forall_app; split; [exact Hy | now repeat constructor]. }
  apply Happ; [exact IH|].
  now apply (Permutation_Forall (Permutation_rev l)).
Qed.

Lemma StronglySorted_map {A B} (f : A -> B) (R : B -> B -> Prop) (l : list A) :
  StronglySorted (fun a b => R (f a) (f b)) l -> StronglySorted R (map f l).
Proof.
  induction 1 as [|x l Hl IH Hx]; simpl; constructor; [exact IH|].
  apply Forall_map. exact Hx.
Qed.

Lemma StronglySorted_impl {A} (R S : A -> A -> Prop) (l : list A) :
  (forall a b, R a b -> S a b) -> StronglySorted R l -> StronglySorted S l.
Proof.
  intros HRS. induction 1 as [|x l Hl IH Hx]; constructor; [exact IH|].
  revert Hx. apply Forall_impl. intros b. apply HRS.
Qed.

(** ** The ranker *)

Lemma map_fst_combine_seq {A} (l : list A) (s : nat) :
  map fst (combine (seq s (List.length l)) l) = seq s (List.length l).
Proof.
  revert s; induction l as [|x l IH]; intros s; simpl; [reflexivity|].
  now rewrite IH.
Qed.

Lemma map_snd_combine_seq {A} (l : list A) (s : nat) :
  map snd (combine (seq s (List.length l)) l) = l.
Proof.
  revert s; induction l as [|x l IH]; intros s; simpl; [reflexivity|].
  now rewrite IH.
Qed.

Lemma map_fst_combine {A B} (a : list A) (b : list B) :
  List.length a = List.length b -> map fst (combine a b) = a.
Proof.
  revert b; induction a as [|x a IH]; intros [|y b] H; simpl in *;
    try discriminate; [reflexivity|]. f_equal. apply IH. lia.
Qed.

Lemma combine_seq_sorted {A} (l : list A) (s : nat) :
  StronglySorted (fun a b : nat * A => fst a < fst b)
                 (combine (seq s (List.length l)) l).
Proof.
  revert s; induction l as [|x l IH]; intros s; simpl; constructor.
  - apply IH.
  - apply Forall_forall. intros [i y] Hin. simpl.
    apply in_combine_l, in_seq in Hin. lia.
Qed.

Section Ranker.

Context {score : Type}.
Variable lt : score -> score -> bool.
Variable round : score -> nat -> score.
Variable times100 : score -> score.
Variable repr : score -> string.

(** The sort of the dashboard, followed on the indexed entries. *)
Lemma ranked_indexed (names : list string) (scores : list score) :
  ranked lt names scores
  = map snd (sorted (fun a : nat * (string * score) => snd (snd a)) lt
                    (indexed (combine names scores)) true).
Proof.
  unfold ranked.
  rewrite <- (sorted_map snd lt snd (indexed (combine names scores)) true).
  unfold indexed. now rewrite map_snd_combine_seq.
Qed.

Lemma ranked_perm (names : list string) (scores : list score) :
  Permutation (ranked lt names scores) (combine names scores).
Proof. apply sorted_perm. Qed.

Lemma results_frame_rank (l : list (string * score)) :
  seq 1 (List.length l) = map Rank (results_frame round times100 repr l).
Proof.
  unfold results_frame. rewrite map_map.
  rewrite <- (map_fst_combine_seq l 1) at 1.
  apply map_ext. now intros [rank entry].
Qed.

Lemma results_frame_name (l : list (string * score)) :
  map Resume_Name (results_frame round times100 repr l) = map fst l.
Proof.
  unfold results_frame. rewrite map_map.
  etransitivity;
    [|apply (f_equal (map (@fst string score)) (map_snd_combine_seq l 1))].
  rewrite map_map. apply map_ext. now intros [rank entry].
Qed.

Hypothesis lt_asym : forall a b, lt a b = true -> lt b a = false.
Hypothesis lt_negtrans :
  forall a b c, lt a c = true -> lt a b = true \/ lt b c = true.

Lemma sorted_rank_order (entries : list (string * score)) :
  StronglySorted (rank_order lt)
    (sorted (fun a : nat * (string * score) => snd (snd a)) lt
            (indexed entries) true).
Proof.
  unfold sorted.
  apply StronglySorted_impl
    with (R := fun a b =>
                 ascending (fun a : nat * (string * score) => snd (snd a)) lt
                           (fun a b => fst b < fst a) b a).
  { intros a b H. exact H. }
  apply StronglySorted_rev.
  apply stable_sort_ascending; [exact lt_asym | exact lt_negtrans |].
  apply (StronglySorted_rev (fun a b : nat * (string * score) => fst a < fst b)).
  apply combine_seq_sorted.
Qed.

End Ranker.

Lemma Zltb_asym (a b : Z) : (a <? b)%Z = true -> (b <? a)%Z = false.
Proof. rewrite Z.ltb_lt, Z.ltb_ge. lia. Qed.

Lemma Zltb_negtrans (a b c : Z) :
  (a <? c)%Z = true -> (a <? b)%Z = true \/ (b <? c)%Z = true.
Proof. rewrite !Z.ltb_lt. lia. Qed.

(** [<] on real numbers is a strict weak order. *)
Lemma Rltb_asym (a b : R) : Rltb a b = true -> Rltb b a = false.
Proof.
  unfold Rltb. destruct (Rlt_dec a b), (Rlt_dec b a); try reflexivity;
    try discriminate. lra.
Qed.

Lemma Rltb_negtrans (a b c : R) :
  Rltb a c = true -> Rltb a b = true \/ Rltb b c = true.
Proof.
  unfold Rltb. destruct (Rlt_dec a c), (Rlt_dec a b), (Rlt_dec b c);
    auto; try discriminate. lra.
Qed.

(** The ranking of the dashboard, where scores are real numbers. *)
Lemma dashboard_rank_order (names : list string) (scores : list R) :
  StronglySorted (rank_order Rltb)
    (sorted (fun a : nat * (string * R) => snd (snd a)) Rltb
            (indexed (combine names scores)) true)
  /\ ranked Rltb names scores
     = map snd (sorted (fun a : nat * (string * R) => snd (snd a)) Rltb
                       (indexed (combine names scores)) true).
Proof.
  split.
  - apply sorted_rank_order; [exact Rltb_asym | exact Rltb_negtrans].
  - apply ranked_indexed.
Qed.

(** *** Claim on the ranker *)

(** C2. The ranking is the list of entries sorted by descending score,
    entries of equal score in ascending submission order; the ranks are
    1, 2, ..., n; and the scores never increase along the ranking.  The
    comparison [lt] of scores is a strict weak order, as [<] is on
    numbers. *)
Theorem ranking_is_sorted_with_dense_ranks
    {score : Type} (lt : score -> score -> bool)
    (round : score -> nat -> score) (times100 : score -> score)
    (repr : score -> string)
    (lt_asym : forall a b, lt a b = true -> lt b a = false)
    (lt_negtrans : forall a b c, lt a c = true -> lt a b = true \/ lt b c = true)
    (names : list string) (scores : list score) :
  let ranked_resumes := ranked lt names scores in
  let results_df := results_frame round times100 repr ranked_resumes in
  exists triples : list (nat * (string * score)),
    Permutation triples (indexed (combine names scores))
    /\ map snd triples = ranked_resumes
    /\ StronglySorted (rank_order lt) triples
    /\ map Rank results_df = seq 1 (List.length (combine names scores))
    /\ map Resume_Name results_df = map fst ranked_resumes
    /\ StronglySorted (fun a b => lt (snd a) (snd b) = false) ranked_resumes.
Proof.
  intros ranked_resumes results_df.
  exists (sorted (fun a : nat * (string * score) => snd (snd a)) lt
                 (indexed (combine names scores)) true).
  assert (Hs := sorted_rank_order lt lt_asym lt_negtrans (combine names scores)).
  repeat split.
  - apply sorted_perm.
  - symmetry. apply ranked_indexed.
  - exact Hs.
  - unfold results_df. rewrite <- results_frame_rank. f_equal.
    apply Permutation_length, ranked_perm.
  - apply results_frame_name.
  - unfold ranked_resumes. rewrite ranked_indexed.
    apply StronglySorted_map. revert Hs. apply StronglySorted_impl.
    intros a b [H _]. exact H.
Qed.

Lemma ranking_is_sorted_with_dense_ranks_witness :
  let names := ["ann.pdf"; "bob.pdf"; "cy.pdf"; "dee.pdf"] in
  let scores := [2; 7; 2; 9]%Z in
  let ranked_resumes := ranked Z.ltb names scores in
  let results_df :=
    results_frame (fun x _ => x) (fun x => (x * 100)%Z) (fun _ => "") ranked_resumes in
  ranked_resumes
  = [("dee.pdf", 9%Z); ("bob.pdf", 7%Z); ("ann.pdf", 2%Z); ("cy.pdf", 2%Z)]
  /\ exists triples : list (nat * (string * Z)),
    Permutation triples (indexed (combine names scores))
    /\ map snd triples = ranked_resumes
    /\ StronglySorted (rank_order Z.ltb) triples
    /\ map Rank results_df = seq 1 (List.length (combine names scores))
    /\ map Resume_Name results_df = map fst ranked_resumes
    /\ StronglySorted (fun a b => (snd a <? snd b)%Z = false) ranked_resumes.
Proof.
  split; [reflexivity|].
  exact (ranking_is_sorted_with_dense_ranks Z.ltb
           (fun x _ => x) (fun x => (x * 100)%Z) (fun _ => "")
           Zltb_asym Zltb_negtrans
           ["ann.pdf"; "bob.pdf"; "cy.pdf"; "dee.pdf"] [2; 7; 2; 9]%Z).
Defined.

(** ** The dashboard *)

Arguments rank_resumes : simpl never.

Lemma rank_and_report_ranked
    (round : R -> nat -> R) (repr : R -> string) (user_email job_title : string)
    (job_description : string) (ex : Extraction) (scores : list R) :
  resumes ex <> [] ->
  rank_resumes job_description (resumes ex) = Ok scores ->
  let results_df :=
    results_frame round (fun x => (x * 100)%R) repr
                  (ranked Rltb (file_names ex) scores) in
  rank_and_report round repr user_email job_title job_description ex
  = [ dataframe results_df;
      bar_chart (firstn (Nat.min (List.length results_df) 10) results_df);
      save_ranking_history user_email
        (if truthy job_title then job_title else "Unnamed Job")
        job_description results_df;
      download_csv results_df;
      download_excel results_df ].
Proof.
  intros Hne Hs. unfold rank_and_report. rewrite Hs.
  destruct (resumes ex); [contradiction | reflexivity].
Qed.

(** *** Claims on the dashboard *)

(** C9. The dashboard excludes a file by a substring test on the returned
    text: a file whose extraction succeeded and whose text contains
    "Error extracting text" is listed among the error files and is not
    among the files that are scored. *)
Theorem substring_test_excludes_extracted_text
    (uploaded_files : list UploadedFile) (file : UploadedFile) :
  In file uploaded_files ->
  extraction_succeeded file ->
  contains error_prefix (extract_text_from_pdf file) = true ->
  In (name file) (error_files (process_files uploaded_files))
  /\ ~ In file (scored_files uploaded_files)
  /\ resumes (process_files uploaded_files)
     = map extract_text_from_pdf (scored_files uploaded_files)
  /\ error_files (process_files uploaded_files)
     = map name (filter is_error_file uploaded_files).
Proof.
  intros Hin _ Hsub.
  destruct (process_files_filter uploaded_files) as (Hr & _ & He).
  split; [|split; [|split]].
  - rewrite He. apply in_map, filter_In. split; assumption.
  - unfold scored_files. rewrite filter_In. intros [_ H].
    unfold is_error_file in H. rewrite Hsub in H. discriminate.
  - exact Hr.
  - exact He.
Qed.

Lemma substring_test_excludes_extracted_text_witness :
  extract_text_from_pdf quoting
  = "Fixed the Error extracting text bug of the OCR pipeline"
  /\ In (name quoting) (error_files (process_files [cv; quoting]))
  /\ ~ In quoting (scored_files [cv; quoting])
  /\ resumes (process_files [cv; quoting])
     = map extract_text_from_pdf (scored_files [cv; quoting])
  /\ error_files (process_files [cv; quoting])
     = map name (filter is_error_file [cv; quoting]).
Proof.
  split; [reflexivity|].
  apply (substring_test_excludes_extracted_text [cv; quoting] quoting).
  - right. left. reflexivity.
  - exists [page "Fixed the Error extracting text bug of the OCR pipeline"],
           ["Fixed the Error extracting text bug of the OCR pipeline"].
    split; reflexivity.
  - reflexivity.
Defined.

(** C1. What the code does with a document without extractable text: the
    sentinel "No readable text found." passes the substring test, so the
    file is scored on the words of the sentinel and appears in the
    ranking. *)
Theorem no_readable_text_is_scored
    (round : R -> nat -> R) (repr : R -> string) (user_email job_title : string)
    (uploaded_files : list UploadedFile) (job_description : string)
    (file : UploadedFile) :
  rank_disabled uploaded_files job_description = false ->
  In file uploaded_files ->
  extract_text_from_pdf file = no_readable_text ->
  In file (scored_files uploaded_files)
  /\ In no_readable_text (resumes (process_files uploaded_files))
  /\ exists results_df,
       In (dataframe results_df)
          (rank_clicked round repr user_email job_title
                        uploaded_files job_description)
       /\ In (name file) (map Resume_Name results_df).
Proof.
  intros Hen Hin Hx.
  destruct (process_files_filter uploaded_files) as (Hr & Hn & _).
  assert (Hsc : In file (scored_files uploaded_files)).
  { apply filter_In. split; [exact Hin|].
    unfold is_error_file. rewrite Hx. reflexivity. }
  assert (Hres : In no_readable_text (resumes (process_files uploaded_files))).
  { rewrite Hr, <- Hx. now apply in_map. }
  split; [exact Hsc|]. split; [exact Hres|].
  set (ex := process_files uploaded_files) in *.
  assert (Hne : resumes ex <> []) by (intros E; rewrite E in Hres; destruct Hres).
  assert (Hv : no_terms (job_description :: resumes ex) = false).
  { apply no_terms_false with no_readable_text; [now right | discriminate]. }
  pose proof (rank_resumes_scores job_description (resumes ex) Hv Hne) as Hs.
  eexists. split.
  - unfold rank_clicked. rewrite Hen. fold ex. apply in_or_app. right.
    rewrite (rank_and_report_ranked _ _ _ _ _ _ _ Hne Hs). left. reflexivity.
  - rewrite results_frame_name.
    apply (Permutation_in (l := map fst (combine (file_names ex)
              (map (similarity (job_description :: resumes ex) job_description)
                   (resumes ex))))).
    + apply Permutation_map. symmetry. apply ranked_perm.
    + rewrite map_fst_combine by now rewrite length_map, Hr, Hn, !length_map.
      rewrite Hn. now apply in_map.
Qed.

Lemma no_readable_text_is_scored_witness :
  extract_text_from_pdf scanned = "No readable text found."
  /\ process_files [scanned]
     = {| resumes := ["No readable text found."];
          file_names := ["scan.pdf"];
          error_files := [] |}
  /\ In scanned (scored_files [scanned])
  /\ In no_readable_text (resumes (process_files [scanned]))
  /\ exists results_df,
       In (dataframe results_df)
          (rank_clicked round_id repr_blank "hr@example.org" "Engineer"
                        [scanned] "python developer")
       /\ In (name scanned) (map Resume_Name results_df).
Proof.
  split; [reflexivity|]. split; [reflexivity|].
  apply (no_readable_text_is_scored round_id repr_blank
           "hr@example.org" "Engineer" [scanned] "python developer" scanned).
  - reflexivity.
  - left. reflexivity.
  - reflexivity.
Defined.

(** The [else] branch: when every uploaded file fails the substring test,
    a click on the enabled button reports the files it could not process
    and the error "No valid resumes to process", and nothing else. *)
Lemma all_error_files_are_rejected
    (round : R -> nat -> R) (repr : R -> string)
    (user_email job_title : string)
    (uploaded_files : list UploadedFile) (job_description : string) :
  rank_disabled uploaded_files job_description = false ->
  resumes (process_files uploaded_files) = [] ->
  rank_clicked round repr user_email job_title uploaded_files job_description
  = [warning_could_not_process (map name uploaded_files);
     error_no_valid_resumes].
Proof.
  intros Hen Hnil.
  unfold rank_clicked. rewrite Hen. unfold rank_and_report. rewrite Hnil.
  destruct (process_files_filter uploaded_files) as (Hr & _ & He).
  rewrite Hnil in Hr. symmetry in Hr. apply map_eq_nil in Hr.
  apply filter_negb_nil in Hr. rewrite He, Hr.
  destruct uploaded_files as [|f l]; [discriminate Hen | reflexivity].
Qed.

(** What [extract_text_from_pdf] returns for a file that is read without
    an exception and has no usable text: the sentinel, or the empty
    string when the pages hold white space only. *)
Lemma text_without_usable_text (file : UploadedFile) :
  extraction_succeeded file -> ~ usable_text file ->
  extract_text_from_pdf file = no_readable_text
  \/ extract_text_from_pdf file = "".
Proof.
  intros (pages & ts & Hp & Hts) Hno.
  unfold extract_text_from_pdf, extract_text_try. rewrite Hp. simpl.
  rewrite read_pages_page_texts, Hts. simpl. rewrite truthy_joined.
  destruct (existsb truthy ts); [|now left].
  right. destruct (string_dec (strip (joined ts)) "") as [E|E]; [exact E|].
  exfalso. apply Hno. now exists pages, ts.
Qed.

(** C6. What the code does when no candidate has usable text: as soon as
    one of the files is read without an exception, its text (the sentinel
    "No readable text found.", or the empty string) goes on to scoring;
    with a word in the job description, or the sentinel among the texts,
    the click then shows a ranking that names the file, stores it in the
    history and offers it for download, and never reports "No valid
    resumes to process". *)
Theorem candidates_without_usable_text_are_ranked
    (round : R -> nat -> R) (repr : R -> string)
    (user_email job_title : string)
    (uploaded_files : list UploadedFile) (job_description : string)
    (file : UploadedFile) :
  rank_disabled uploaded_files job_description = false ->
  (forall f, In f uploaded_files -> ~ usable_text f) ->
  In file uploaded_files ->
  extraction_succeeded file ->
  analyze job_description <> []
  \/ extract_text_from_pdf file = no_readable_text ->
  let events := rank_clicked round repr user_email job_title
                             uploaded_files job_description in
  ~ In error_no_valid_resumes events
  /\ exists results_df : list (Row R),
       results_df <> []
       /\ In (name file) (map Resume_Name results_df)
       /\ In (dataframe results_df) events
       /\ In (save_ranking_history user_email
                 (if truthy job_title then job_title else "Unnamed Job")
                 job_description results_df) events
       /\ In (download_csv results_df) events
       /\ In (download_excel results_df) events.
Proof.
  intros Hen Hall Hin Hok Hword events.
  destruct (process_files_filter uploaded_files) as (Hr & Hn & _).
  assert (Hsc : In file (scored_files uploaded_files)).
  { apply filter_In. split; [exact Hin|]. unfold is_error_file.
    destruct (text_without_usable_text file Hok (Hall file Hin)) as [E|E];
      rewrite E; reflexivity. }
  set (ex := process_files uploaded_files) in *.
  assert (Hres : In (extract_text_from_pdf file) (resumes ex))
    by (rewrite Hr; now apply in_map).
  assert (Hne : resumes ex <> []) by (intros E; rewrite E in Hres; destruct Hres).
  assert (Hv : no_terms (job_description :: resumes ex) = false).
  { destruct Hword as [Hw|Hs].
    - apply no_terms_false with job_description; [now left | exact Hw].
    - apply no_terms_false with no_readable_text;
        [right; now rewrite <- Hs | discriminate]. }
  pose proof (rank_resumes_scores job_description (resumes ex) Hv Hne) as Hs.
  assert (Hev : events
                = (match error_files ex with
                   | [] => []
                   | _ :: _ => [warning_could_not_process (error_files ex)]
                   end)
                  ++ rank_and_report round repr user_email job_title
                       job_description ex).
  { unfold events, rank_clicked. rewrite Hen. reflexivity. }
  rewrite (rank_and_report_ranked _ _ _ _ _ _ _ Hne Hs) in Hev.
  cbv zeta in Hev. rewrite Hev. clear Hev events.
  split.
  - intros H. apply in_app_or in H. destruct H as [H|H].
    + destruct (error_files ex); [destruct H|].
      destruct H as [H|[]]. discriminate H.
    + destruct H as [E|[E|[E|[E|[E|[]]]]]]; discriminate E.
  - assert (Hnames : In (name file)
                        (map Resume_Name
                           (results_frame round (fun x => (x * 100)%R) repr
                              (ranked Rltb (file_names ex)
                                 (map (similarity (job_description :: resumes ex)
                                                  job_description)
                                      (resumes ex)))))).
    { rewrite results_frame_name.
      apply (Permutation_in (l := map fst (combine (file_names ex)
                (map (similarity (job_description :: resumes ex) job_description)
                     (resumes ex))))).
      + apply Permutation_map. symmetry. apply ranked_perm.
      + rewrite map_fst_combine by now rewrite length_map, Hr, Hn, !length_map.
        rewrite Hn. now apply in_map. }
    eexists. split; [|split; [exact Hnames|]].
    + intros E. rewrite E in Hnames. destruct Hnames.
    + split; [|split; [|split]]; apply in_or_app; right; simpl; auto 10.
Qed.

Lemma candidates_without_usable_text_are_ranked_witness :
  let events := rank_clicked round_id repr_blank "hr@example.org" "Engineer"
                             [corrupt; blank; scanned] "python developer" in
  extract_text_from_pdf blank = ""
  /\ extract_text_from_pdf scanned = "No readable text found."
  /\ (forall f, In f [corrupt; blank; scanned] -> ~ usable_text f)
  /\ ~ In error_no_valid_resumes events
  /\ exists results_df : list (Row R),
       results_df <> []
       /\ In "blank.pdf" (map Resume_Name results_df)
       /\ In (dataframe results_df) events
       /\ In (save_ranking_history "hr@example.org" "Engineer"
                                   "python developer" results_df) events
       /\ In (download_csv results_df) events
       /\ In (download_excel results_df) events.
Proof.
  assert (Hall : forall f, In f [corrupt; blank; scanned] -> ~ usable_text f).
  { intros f [<-|[<-|[<-|[]]]] (pages & ts & Hp & Hts & Hne).
    - discriminate Hp.
    - injection Hp as <-. injection Hts as <-. apply Hne. reflexivity.
    - injection Hp as <-. injection Hts as <-. apply Hne. reflexivity. }
  intros events.
  split; [reflexivity|]. split; [reflexivity|]. split; [exact Hall|].
  apply (candidates_without_usable_text_are_ranked round_id repr_blank
           "hr@example.org" "Engineer" [corrupt; blank; scanned]
           "python developer" blank).
  - reflexivity.
  - exact Hall.
  - right. left. reflexivity.
  - exists [page "   "], ["   "]. split; reflexivity.
  - left. vm_compute. discriminate.
Defined.

(** C3, as amended. With an empty job description the button is disabled
    and a click does nothing: no ranking is shown, stored or exported. *)
Theorem empty_query_is_rejected
    (round : R -> nat -> R) (repr : R -> string) (user_email job_title : string)
    (uploaded_files : list UploadedFile) :
  rank_disabled uploaded_files "" = true
  /\ rank_clicked round repr user_email job_title uploaded_files "" = [].
Proof.
  assert (H : rank_disabled uploaded_files "" = true)
    by (destruct uploaded_files; reflexivity).
  split; [exact H|]. unfold rank_clicked. now rewrite H.
Qed.

(** C3, as stated, fails: a job description of three spaces is empty
    after trimming, yet the button is enabled and the resume is ranked,
    with score 0, stored and offered for download. *)
Lemma whitespace_query_is_ranked :
  strip "   " = ""
  /\ rank_disabled [cv] "   " = false
  /\ exists results_df,
       map Rank results_df = [1]
       /\ map Resume_Name results_df = ["cv.pdf"]
       /\ map Raw_Score results_df = [0%R]
       /\ rank_clicked round_id repr_blank "hr@example.org" "" [cv] "   "
          = [ dataframe results_df;
              bar_chart results_df;
              save_ranking_history "hr@example.org" "Unnamed Job" "   "
                                   results_df;
              download_csv results_df;
              download_excel results_df ].
Proof.
  split; [reflexivity|]. split; [reflexivity|].
  assert (Hp : process_files [cv]
               = {| resumes := ["python developer"];
                    file_names := ["cv.pdf"];
                    error_files := [] |}) by reflexivity.
  assert (Hs : rank_resumes "   " ["python developer"] = Ok [0%R]).
  { rewrite rank_resumes_scores by (reflexivity || discriminate).
    cbn [map]. now rewrite similarity_null_query by reflexivity. }
  exists (results_frame round_id (fun x => (x * 100)%R) repr_blank
            (ranked Rltb ["cv.pdf"] [0%R])).
  split; [reflexivity|]. split; [reflexivity|]. split; [reflexivity|].
  unfold rank_clicked. change (rank_disabled [cv] "   ") with false.
  cbv iota. rewrite Hp. cbn [error_files app].
  rewrite (rank_and_report_ranked round_id repr_blank "hr@example.org" ""
             "   " _ [0%R]); [|discriminate|exact Hs].
  reflexivity.
Qed.

(** C8. [rank_resumes] is not total: on a query and candidate texts none
    of which has a token it raises the [ValueError] of the vectorizer, and
    the dashboard, which took the texts as valid resumes, lets it
    through. *)
Theorem rank_resumes_raises_without_terms
    (round : R -> nat -> R) (repr : R -> string) (user_email job_title : string)
    (job_description : string) (ex : Extraction) :
  no_terms (job_description :: resumes ex) = true ->
  rank_resumes job_description (resumes ex) = Raise empty_vocabulary
  /\ (forall scores,
         rank_resumes job_description (resumes ex) <> Ok scores)
  /\ (resumes ex <> [] ->
      rank_and_report round repr user_email job_title job_description ex
      = [uncaught empty_vocabulary]).
Proof.
  intros Hv.
  pose proof (rank_resumes_empty_vocabulary _ _ Hv) as E.
  split; [exact E|]. split.
  - intros scores H. rewrite E in H. discriminate.
  - intros Hne. unfold rank_and_report. rewrite E.
    destruct (resumes ex); [contradiction | reflexivity].
Qed.

Lemma rank_resumes_raises_without_terms_witness :
  let job_description := "C / R" in
  let ex := {| resumes := ["?!"; "a b c"];
               file_names := ["one.pdf"; "two.pdf"];
               error_files := [] |} in
  forallb truthy (job_description :: resumes ex) = true
  /\ rank_resumes job_description (resumes ex) = Raise empty_vocabulary
  /\ (forall scores,
         rank_resumes job_description (resumes ex) <> Ok scores)
  /\ (resumes ex <> [] ->
      rank_and_report round_id repr_blank "hr@example.org" "" job_description ex
      = [uncaught empty_vocabulary]).
Proof.
  split; [reflexivity|].
  apply (rank_resumes_raises_without_terms round_id repr_blank
           "hr@example.org" "" "C / R"
           {| resumes := ["?!"; "a b c"];
              file_names := ["one.pdf"; "two.pdf"];
              error_files := [] |}).
  reflexivity.
Defined.

(** ** Further properties of the scorer *)

(** [rank_resumes] unfolded into its three outcomes. *)
Lemma rank_resumes_unfold (job_description : string) (texts : list string) :
  rank_resumes job_description texts =
  if no_terms (job_description :: texts) then Raise empty_vocabulary
  else match texts with
       | [] => Raise no_samples
       | _ :: _ =>
           Ok (map (similarity (job_description :: texts) job_description)
                   texts)
       end.
Proof.
  destruct (no_terms (job_description :: texts)) eqn:Hv.
  - now apply rank_resumes_empty_vocabulary.
  - destruct texts as [|r rs].
    + unfold rank_resumes, fit_transform.
      destruct (vocabulary [job_description]) as [|t ts] eqn:E.
      * apply vocabulary_nil in E. congruence.
      * reflexivity.
    + apply rank_resumes_scores; [exact Hv | discriminate].
Qed.

(** X1. [rank_resumes] returns exactly when some document has a token and
    there is at least one resume; it then gives one score per resume, in
    order.  Otherwise it raises: the vectorizer's [ValueError] when no
    document has a token, that of [cosine_similarity] when only the
    resumes are missing. *)
Theorem rank_resumes_cases (job_description : string) (texts : list string) :
  ((exists scores, rank_resumes job_description texts = Ok scores)
   <-> no_terms (job_description :: texts) = false /\ texts <> [])
  /\ (forall scores,
         rank_resumes job_description texts = Ok scores ->
         List.length scores = List.length texts)
  /\ (no_terms (job_description :: texts) = true ->
      rank_resumes job_description texts = Raise empty_vocabulary)
  /\ (no_terms [job_description] = false ->
      rank_resumes job_description [] = Raise no_samples).
Proof.
  split; [|split; [|split]].
  - rewrite rank_resumes_unfold.
    destruct (no_terms (job_description :: texts)).
    + split; [intros [scores H]; discriminate H | intros [H _]; discriminate H].
    + destruct texts as [|r rs].
      * split; [intros [scores H]; discriminate H | intros [_ H]; now elim H].
      * split; [intros _; split; [reflexivity | discriminate]|].
        intros _. eexists. reflexivity.
  - intros scores H. apply rank_resumes_returns in H. subst scores.
    apply length_map.
  - apply rank_resumes_empty_vocabulary.
  - intros H. rewrite rank_resumes_unfold, H. reflexivity.
Qed.

Lemma lower_char_idempotent (c : ascii) :
  lower_char (lower_char c) = lower_char c.
Proof. destruct c as [[] [] [] [] [] [] [] []]; reflexivity. Qed.

Lemma lower_idempotent (s : string) : lower (lower s) = lower s.
Proof.
  induction s as [|c s IH]; simpl; [reflexivity|].
  now rewrite lower_char_idempotent, IH.
Qed.

Lemma analyze_lower (d : string) : analyze (lower d) = analyze d.
Proof. unfold analyze. now rewrite lower_idempotent. Qed.

(** The rows depend on the documents through their tokens only. *)
Lemma tfidf_analyze_ext (docs docs' : list string) (d d' : string) :
  map analyze docs = map analyze docs' ->
  analyze d = analyze d' ->
  tfidf docs d = tfidf docs' d'.
Proof.
  intros Hdocs Hd.
  assert (Hvoc : vocabulary docs = vocabulary docs').
  { unfold vocabulary. now rewrite !flat_map_concat_map, Hdocs. }
  assert (Hdf : forall t, df docs t = df docs' t).
  { intros t. unfold df, tf. clear Hvoc. revert docs' Hdocs.
    induction docs as [|a docs IH]; intros [|b docs'] H; simpl in *;
      try discriminate; [reflexivity|].
    injection H as Hab H. rewrite Hab.
    destruct (0 <? count_occ string_dec (analyze b) t); simpl;
      now rewrite (IH docs' H). }
  unfold tfidf. rewrite Hvoc. apply map_ext. intros t.
  unfold idf, tf. rewrite Hdf, Hd.
  now rewrite <- (length_map analyze docs), Hdocs, length_map.
Qed.

Lemma no_terms_map (docs : list string) :
  no_terms docs
  = forallb (fun a : list string =>
               match a with [] => true | _ :: _ => false end)
            (map analyze docs).
Proof.
  unfold no_terms. induction docs as [|d docs IH]; simpl; [reflexivity|].
  now rewrite IH.
Qed.

(** Documents with the same tokens give the same result. *)
Lemma rank_resumes_analyze_ext
    (job_description job_description' : string) (texts texts' : list string) :
  analyze job_description = analyze job_description' ->
  map analyze texts = map analyze texts' ->
  rank_resumes job_description texts = rank_resumes job_description' texts'.
Proof.
  intros Hq Ht.
  assert (Hdocs : map analyze (job_description :: texts)
                  = map analyze (job_description' :: texts'))
    by (simpl; now rewrite Hq, Ht).
  rewrite !rank_resumes_unfold.
  assert (Hn : no_terms (job_description :: texts)
               = no_terms (job_description' :: texts')).
  { rewrite !no_terms_map. now rewrite Hdocs. }
  rewrite Hn. destruct (no_terms (job_description' :: texts')); [reflexivity|].
  destruct texts as [|r rs], texts' as [|r' rs']; try discriminate;
    [reflexivity|].
  f_equal.
  assert (Hsim : forall a b, analyze a = analyze b ->
             similarity (job_description :: r :: rs) job_description a
             = similarity (job_description' :: r' :: rs') job_description' b).
  { intros a b Hab. unfold similarity.
    now rewrite (tfidf_analyze_ext _ _ _ _ Hdocs Hq),
                (tfidf_analyze_ext _ _ _ _ Hdocs Hab). }
  clear Hn Hdocs. revert Ht Hsim.
  generalize (similarity (job_description :: r :: rs) job_description).
  generalize (similarity (job_description' :: r' :: rs') job_description').
  generalize (r :: rs). generalize (r' :: rs').
  intros l'; induction l' as [|b l' IH]; intros [|a l] f g H Hfg;
    simpl in *; try discriminate; [reflexivity|].
  injection H as Hab H. f_equal; [now apply Hfg | now apply IH].
Qed.

(** X2. The result of [rank_resumes] depends on the job description and
    the resumes only through their sequences of tokens: texts that differ
    in punctuation or spacing give the same scores or the same exception,
    and so do texts that differ in case. *)
Theorem rank_resumes_tokens_only
    (job_description : string) (texts : list string) :
  (forall (job_description' : string) (texts' : list string),
      analyze job_description = analyze job_description' ->
      map analyze texts = map analyze texts' ->
      rank_resumes job_description texts
      = rank_resumes job_description' texts')
  /\ rank_resumes (lower job_description) (map lower texts)
     = rank_resumes job_description texts.
Proof.
  split.
  - intros job_description' texts'. apply rank_resumes_analyze_ext.
  - apply rank_resumes_analyze_ext; [apply analyze_lower|].
    rewrite map_map. apply map_ext, analyze_lower.
Qed.

Lemma rank_resumes_tokens_only_witness :
  rank_resumes "Python developer" ["Senior developer, Python and Go"]
  = rank_resumes "python  DEVELOPER!" ["senior developer python and go"].
Proof.
  apply (proj1 (rank_resumes_tokens_only
                  "Python developer" ["Senior developer, Python and Go"])
               "python  DEVELOPER!" ["senior developer python and go"]);
    vm_compute; reflexivity.
Defined.

(** ** Rows as functions of the term *)

Section TermSums.

Local Open Scope R_scope.

Lemma dot_map (f g : string -> R) (V : list string) :
  dot (map f V) (map g V) = sum_terms V (fun t => f t * g t).
Proof.
  induction V as [|t V IH]; [reflexivity|].
  simpl map. rewrite dot_cons, IH. reflexivity.
Qed.

Lemma sum_terms_ext (V : list string) (h h' : string -> R) :
  (forall t, In t V -> h t = h' t) -> sum_terms V h = sum_terms V h'.
Proof.
  induction V as [|t V IH]; intros H; simpl; [reflexivity|].
  rewrite (H t) by now left. rewrite IH; [reflexivity|].
  intros u Hu. apply H. now right.
Qed.

Lemma sum_terms_perm (V V' : list string) (h : string -> R) :
  Permutation V V' -> sum_terms V h = sum_terms V' h.
Proof.
  induction 1 as [|t V V' HP IH|t u V|V V' V'' H1 IH1 H2 IH2]; simpl.
  - reflexivity.
  - now rewrite IH.
  - ring.
  - now rewrite IH1.
Qed.

Lemma sum_terms_nonneg (V : list string) (h : string -> R) :
  (forall t, 0 <= h t) -> 0 <= sum_terms V h.
Proof.
  intros H. induction V as [|t V IH]; simpl; [apply Rle_refl|].
  specialize (H t). lra.
Qed.

Lemma sum_terms_pos (V : list string) (h : string -> R) (t : string) :
  (forall t, 0 <= h t) -> In t V -> 0 < h t -> 0 < sum_terms V h.
Proof.
  intros H Hin Ht. induction V as [|u V IH]; [destruct Hin|]. simpl.
  pose proof (sum_terms_nonneg V h H). pose proof (H u).
  destruct Hin as [->|Hin]; [lra|]. specialize (IH Hin). lra.
Qed.

Lemma sum_terms_zero (V : list string) (h : string -> R) :
  (forall t, h t = 0) -> sum_terms V h = 0.
Proof.
  intros H. induction V as [|t V IH]; simpl; [reflexivity|].
  rewrite H, IH. ring.
Qed.

Lemma tfidf_weight (docs : list string) (d : string) :
  tfidf docs d = map (weight docs d) (vocabulary docs).
Proof. reflexivity. Qed.

Lemma normalize_map (V : list string) (f : string -> R) :
  normalize (map f V) = map (normalized V f) V.
Proof.
  unfold normalize, normalized, row_norm. rewrite dot_map, map_map.
  reflexivity.
Qed.

(** The score as a sum over the vocabulary. *)
Lemma similarity_sum (docs : list string) (q r : string) :
  let V := vocabulary docs in
  similarity docs q r
  = sum_terms V (fun t =>
      normalized V (normalized V (weight docs q)) t
      * normalized V (normalized V (weight docs r)) t).
Proof.
  intros V. unfold similarity. rewrite !tfidf_weight. fold V.
  now rewrite !normalize_map, dot_map.
Qed.

Lemma weight_nonneg (docs : list string) (d t : string) : 0 <= weight docs d t.
Proof.
  unfold weight. apply Rmult_le_pos; [apply pos_INR|].
  pose proof (idf_ge_1 docs t). lra.
Qed.

Lemma weight_pos (docs : list string) (d t : string) :
  In t (analyze d) -> 0 < weight docs d t.
Proof.
  intros Ht. unfold weight. apply (count_occ_In string_dec) in Ht.
  assert (Hc : 1 <= INR (tf t d))
    by (change 1 with (INR 1); apply le_INR; unfold tf; lia).
  pose proof (idf_ge_1 docs t). nra.
Qed.

Lemma weight_zero (docs : list string) (d t : string) :
  ~ In t (analyze d) -> weight docs d t = 0.
Proof.
  intros Ht. unfold weight, tf.
  apply (count_occ_not_In string_dec) in Ht. rewrite Ht. simpl. ring.
Qed.

Lemma normalized_scale (V : list string) (f : string -> R) :
  exists c, 0 < c /\ forall t, normalized V f t = f t * c.
Proof.
  exists (/ handle_zeros (sqrt (sum_terms V (fun t => f t * f t)))).
  split; [|reflexivity].
  apply Rinv_0_lt_compat, handle_zeros_pos, sqrt_pos.
Qed.

End TermSums.

(** ** The weights of the specification *)

Section Refinement.

Local Open Scope R_scope.

Lemma term_frequency_tf (t d : string) : Spec.term_frequency t d = tf t d.
Proof.
  unfold Spec.term_frequency, tf.
  induction (analyze d) as [|x l IH]; simpl; [reflexivity|].
  destruct (string_dec x t) as [->|Hne].
  - rewrite String.eqb_refl. simpl. now rewrite IH.
  - destruct (String.eqb t x) eqn:E; [|exact IH].
    apply String.eqb_eq in E. congruence.
Qed.

Lemma existsb_tf (t d : string) :
  existsb (String.eqb t) (analyze d) = (0 <? tf t d)%nat.
Proof.
  rewrite <- term_frequency_tf. unfold Spec.term_frequency.
  induction (analyze d) as [|x l IH]; simpl; [reflexivity|].
  destruct (String.eqb t x); simpl; [reflexivity | exact IH].
Qed.

Lemma document_frequency_df (docs : list string) (t : string) :
  Spec.document_frequency docs t = df docs t.
Proof.
  unfold Spec.document_frequency, df. f_equal.
  apply filter_ext. intros d. apply existsb_tf.
Qed.

Lemma smoothed_idf_idf (docs : list string) (t : string) :
  Spec.smoothed_idf docs t = idf docs t.
Proof.
  unfold Spec.smoothed_idf, idf. rewrite document_frequency_df.
  rewrite (Rplus_comm (INR (List.length docs)) 1).
  rewrite (Rplus_comm (INR (df docs t)) 1). reflexivity.
Qed.

Lemma term_weight_weight (docs : list string) (d t : string) :
  Spec.term_weight docs d t = weight docs d t.
Proof.
  unfold Spec.term_weight, weight.
  now rewrite term_frequency_tf, smoothed_idf_idf.
Qed.

(** Normalising a normalised row changes nothing. *)
Lemma normalize_idempotent (x : list R) :
  normalize (normalize x) = normalize x.
Proof.
  unfold normalize at 1. unfold row_norm. rewrite normalize_unit.
  assert (H : handle_zeros (sqrt (if Req_dec_T (dot x x) 0 then 0 else 1))
              = 1).
  { unfold handle_zeros. destruct (Req_dec_T (dot x x) 0).
    - rewrite sqrt_0. destruct (Req_dec_T 0 0); [reflexivity | lra].
    - rewrite sqrt_1. destruct (Req_dec_T 1 0); [lra | reflexivity]. }
  rewrite H. rewrite <- (map_id (normalize x)) at 2.
  apply map_ext. intros v. field.
Qed.

(** The score of the code is the cosine of the two rows of weights. *)
Lemma similarity_cosine (docs : list string) (q r : string) :
  similarity docs q r
  = Spec.cosine (vocabulary docs) (weight docs q) (weight docs r).
Proof.
  unfold similarity. rewrite !normalize_idempotent, !tfidf_weight.
  set (V := vocabulary docs).
  set (f := weight docs q). set (g := weight docs r).
  unfold normalize. rewrite dot_scale. unfold row_norm. rewrite !dot_map.
  unfold Spec.cosine, Spec.norm.
  set (nf := sqrt (sum_terms V (fun t => f t * f t))).
  set (ng := sqrt (sum_terms V (fun t => g t * g t))).
  assert (Hf : 0 <= nf) by apply sqrt_pos.
  assert (Hg : 0 <= ng) by apply sqrt_pos.
  assert (Zf : nf = 0 -> dot (map f V) (map g V) = 0).
  { intros E. apply dot_zero_l, dot_self_zero. rewrite dot_map.
    apply sqrt_eq_0; [|exact E].
    rewrite <- dot_map. apply dot_self_nonneg. }
  assert (Zg : ng = 0 -> dot (map f V) (map g V) = 0).
  { intros E. apply dot_zero_r, dot_self_zero. rewrite dot_map.
    apply sqrt_eq_0; [|exact E].
    rewrite <- dot_map. apply dot_self_nonneg. }
  rewrite dot_map in Zf, Zg.
  destruct (Req_dec_T (nf * ng) 0) as [E|E].
  - apply Rmult_integral in E. destruct E as [E|E].
    + rewrite (Zf E). ring.
    + rewrite (Zg E). ring.
  - assert (nf <> 0) by (intros E'; apply E; rewrite E'; ring).
    assert (ng <> 0) by (intros E'; apply E; rewrite E'; ring).
    unfold handle_zeros.
    destruct (Req_dec_T nf 0); [contradiction|].
    destruct (Req_dec_T ng 0); [contradiction|].
    field. split; assumption.
Qed.

Lemma cosine_ext (V : list string) (f f' g g' : string -> R) :
  (forall t, f t = f' t) -> (forall t, g t = g' t) ->
  Spec.cosine V f g = Spec.cosine V f' g'.
Proof.
  intros Hf Hg. unfold Spec.cosine, Spec.norm.
  rewrite (sum_terms_ext V (fun t => f t * f t) (fun t => f' t * f' t))
    by (intros t _; now rewrite Hf).
  rewrite (sum_terms_ext V (fun t => g t * g t) (fun t => g' t * g' t))
    by (intros t _; now rewrite Hg).
  rewrite (sum_terms_ext V (fun t => f t * g t) (fun t => f' t * g' t))
    by (intros t _; now rewrite Hf, Hg).
  reflexivity.
Qed.

Lemma similarity_score (job_description : string) (texts : list string)
    (r : string) :
  similarity (job_description :: texts) job_description r
  = Spec.score job_description texts r.
Proof.
  rewrite similarity_cosine. unfold Spec.score, Spec.corpus.
  apply cosine_ext; intros t; symmetry; apply term_weight_weight.
Qed.

End Refinement.

(** C5.  The scores of [rank_resumes] are the cosines of weight vectors
    whose weights are term frequency times inverse document frequency,
    the document frequencies being counted over the query and all
    candidate texts alike.  The smoothing adds one to the two counts,
    so that the quotient has a positive denominator, and one to the
    logarithm, so that the factor is at least 1, and exactly 1 for a
    term of every document of the corpus: a term that occurs in a
    document has a positive weight there. *)
Theorem scores_are_cosines_of_tf_idf_weights
    (job_description : string) (texts : list string) :
  texts <> [] ->
  no_terms (job_description :: texts) = false ->
  let corpus := Spec.corpus job_description texts in
  rank_resumes job_description texts
  = Ok (map (Spec.score job_description texts) texts)
  /\ (forall d, tfidf corpus d
                = map (Spec.term_weight corpus d) (vocabulary corpus))
  /\ (forall t,
         Spec.document_frequency corpus t
         = ((if existsb (String.eqb t) (analyze job_description)
             then 1 else 0)
            + Spec.document_frequency texts t)%nat)
  /\ (forall t, (0 < INR (Spec.document_frequency corpus t) + 1)%R)
  /\ (forall t, (1 <= Spec.smoothed_idf corpus t)%R)
  /\ (forall t, Spec.document_frequency corpus t = List.length corpus ->
                Spec.smoothed_idf corpus t = 1%R)
  /\ (forall d t, In t (analyze d) -> (0 < Spec.term_weight corpus d t)%R).
Proof.
  intros Hne Hv corpus.
  split; [|split; [|split; [|split; [|split; [|split]]]]].
  - rewrite rank_resumes_scores by assumption. f_equal.
    apply map_ext. intros r. apply similarity_score.
  - intros d. rewrite tfidf_weight. apply map_ext. intros t.
    symmetry. apply term_weight_weight.
  - intros t. unfold corpus, Spec.corpus, Spec.document_frequency. simpl.
    now destruct (existsb (String.eqb t) (analyze job_description)).
  - intros t. pose proof (pos_INR (Spec.document_frequency corpus t)). lra.
  - intros t. rewrite smoothed_idf_idf. apply idf_ge_1.
  - intros t E. rewrite smoothed_idf_idf. apply idf_everywhere.
    now rewrite <- document_frequency_df.
  - intros d t Ht. rewrite term_weight_weight. now apply weight_pos.
Qed.

Lemma scores_are_cosines_of_tf_idf_weights_witness :
  let job_description := "Python developer" in
  let texts := ["Senior developer, Python and Go"; "?"] in
  let corpus := Spec.corpus job_description texts in
  rank_resumes job_description texts
  = Ok (map (Spec.score job_description texts) texts)
  /\ (forall d, tfidf corpus d
                = map (Spec.term_weight corpus d) (vocabulary corpus))
  /\ (forall t,
         Spec.document_frequency corpus t
         = ((if existsb (String.eqb t) (analyze job_description)
             then 1 else 0)
            + Spec.document_frequency texts t)%nat)
  /\ (forall t, (0 < INR (Spec.document_frequency corpus t) + 1)%R)
  /\ (forall t, (1 <= Spec.smoothed_idf corpus t)%R)
  /\ (forall t, Spec.document_frequency corpus t = List.length corpus ->
                Spec.smoothed_idf corpus t = 1%R)
  /\ (forall d t, In t (analyze d) -> (0 < Spec.term_weight corpus d t)%R).
Proof.
  apply (scores_are_cosines_of_tf_idf_weights
           "Python developer" ["Senior developer, Python and Go"; "?"]).
  - discriminate.
  - reflexivity.
Defined.

Section SharedTerms.

Local Open Scope R_scope.

Lemma shares_term_spec (q r : string) :
  shares_term q r = true
  <-> exists t, In t (analyze q) /\ In t (analyze r).
Proof.
  unfold shares_term. rewrite existsb_exists.
  split; intros (t & Hq & Hr); exists t; split; try exact Hq.
  - apply Nat.ltb_lt in Hr. now apply (count_occ_In string_dec).
  - apply Nat.ltb_lt. now apply (count_occ_In string_dec).
Qed.

Lemma similarity_shared (docs : list string) (q r t : string) :
  In q docs -> In t (analyze q) -> In t (analyze r) ->
  0 < similarity docs q r.
Proof.
  intros Hq Htq Htr. rewrite similarity_sum.
  set (V := vocabulary docs).
  destruct (normalized_scale V (weight docs q)) as (a & Ha & Ea).
  destruct (normalized_scale V (normalized V (weight docs q))) as (a' & Ha' & Ea').
  destruct (normalized_scale V (weight docs r)) as (b & Hb & Eb).
  destruct (normalized_scale V (normalized V (weight docs r))) as (b' & Hb' & Eb').
  assert (Hnn : forall d c c' u, 0 < c -> 0 < c' ->
                  0 <= weight docs d u * c * c').
  { intros d c c' u Hc Hc'. pose proof (weight_nonneg docs d u).
    apply Rmult_le_pos; [apply Rmult_le_pos|]; lra. }
  apply sum_terms_pos with t.
  - intros u. rewrite Ea', Eb', Ea, Eb.
    apply Rmult_le_pos; now apply Hnn.
  - now apply vocabulary_In with q.
  - rewrite Ea', Eb', Ea, Eb.
    pose proof (weight_pos docs q t Htq). pose proof (weight_pos docs r t Htr).
    apply Rmult_lt_0_compat; apply Rmult_lt_0_compat;
      try apply Rmult_lt_0_compat; assumption.
Qed.

Lemma similarity_disjoint (docs : list string) (q r : string) :
  (forall t, In t (analyze q) -> ~ In t (analyze r)) ->
  similarity docs q r = 0.
Proof.
  intros Hd. rewrite similarity_sum.
  set (V := vocabulary docs).
  destruct (normalized_scale V (weight docs q)) as (a & Ha & Ea).
  destruct (normalized_scale V (normalized V (weight docs q))) as (a' & Ha' & Ea').
  destruct (normalized_scale V (weight docs r)) as (b & Hb & Eb).
  destruct (normalized_scale V (normalized V (weight docs r))) as (b' & Hb' & Eb').
  apply sum_terms_zero. intros t. rewrite Ea', Eb', Ea, Eb.
  destruct (in_dec string_dec t (analyze q)) as [Hin|Hout].
  - rewrite (weight_zero docs r t (Hd t Hin)). ring.
  - rewrite (weight_zero docs q t Hout). ring.
Qed.

End SharedTerms.

(** X3. A resume receives a positive score exactly when it has a token in
    common with the job description, and the score 0 otherwise. *)
Theorem score_positive_iff_shared_term
    (job_description : string) (texts : list string) (scores : list R)
    (i : nat) (r : string) :
  rank_resumes job_description texts = Ok scores ->
  nth_error texts i = Some r ->
  exists s : R,
    nth_error scores i = Some s
    /\ if shares_term job_description r then (0 < s)%R else s = 0%R.
Proof.
  intros Hs Hi. apply rank_resumes_returns in Hs. subst scores.
  exists (similarity (job_description :: texts) job_description r).
  split; [now rewrite nth_error_map, Hi|].
  destruct (shares_term job_description r) eqn:E.
  - apply shares_term_spec in E. destruct E as (t & Hq & Hr).
    apply similarity_shared with t; [now left | exact Hq | exact Hr].
  - apply similarity_disjoint. intros t Hq Hr.
    assert (H : shares_term job_description r = true)
      by (apply shares_term_spec; now exists t).
    congruence.
Qed.

Lemma score_positive_iff_shared_term_witness :
  let q := "Python developer" in
  let texts := ["Senior developer, Python and Go"; "Graphic designer"] in
  let scores := map (similarity (q :: texts) q) texts in
  rank_resumes q texts = Ok scores
  /\ (exists s : R, nth_error scores 0 = Some s /\ (0 < s)%R)
  /\ (exists s : R, nth_error scores 1 = Some s /\ s = 0%R).
Proof.
  intros q texts scores.
  assert (Hs : rank_resumes q texts = Ok scores)
    by (apply rank_resumes_scores; [vm_compute; reflexivity | discriminate]).
  assert (H1 : shares_term q "Senior developer, Python and Go" = true)
    by (vm_compute; reflexivity).
  assert (H2 : shares_term q "Graphic designer" = false)
    by (vm_compute; reflexivity).
  split; [exact Hs|]. split.
  - destruct (score_positive_iff_shared_term q texts scores 0
                "Senior developer, Python and Go" Hs eq_refl) as (s & E & P).
    rewrite H1 in P. exists s. split; [exact E | exact P].
  - destruct (score_positive_iff_shared_term q texts scores 1
                "Graphic designer" Hs eq_refl) as (s & E & P).
    rewrite H2 in P. exists s. split; [exact E | exact P].
Defined.

(** ** The order of the resumes *)

Section Reordering.

Local Open Scope R_scope.

Lemma df_perm (docs docs' : list string) (t : string) :
  Permutation docs docs' -> df docs t = df docs' t.
Proof.
  unfold df.
  induction 1 as [|d l l' HP IH|d d' l|l l' l'' H1 IH1 H2 IH2]; simpl.
  - reflexivity.
  - destruct (0 <? tf t d)%nat; simpl; now rewrite IH.
  - destruct (0 <? tf t d)%nat, (0 <? tf t d')%nat; reflexivity.
  - now rewrite IH1.
Qed.

Lemma weight_perm (docs docs' : list string) (d t : string) :
  Permutation docs docs' -> weight docs d t = weight docs' d t.
Proof.
  intros HP. unfold weight, idf.
  now rewrite (df_perm _ _ t HP), (Permutation_length HP).
Qed.

Lemma vocabulary_perm (docs docs' : list string) :
  Permutation docs docs' -> Permutation (vocabulary docs) (vocabulary docs').
Proof.
  intros HP. unfold vocabulary.
  apply NoDup_Permutation; try apply NoDup_nodup.
  intros t. rewrite !nodup_In, !in_flat_map.
  split; intros (d & Hd & Ht); exists d; split; try exact Ht.
  - now apply (Permutation_in _ HP).
  - now apply (Permutation_in _ (Permutation_sym HP)).
Qed.

Lemma normalized_perm (V V' : list string) (f f' : string -> R) (t : string) :
  Permutation V V' -> (forall u, f u = f' u) ->
  normalized V f t = normalized V' f' t.
Proof.
  intros HP Hf. unfold normalized.
  rewrite (sum_terms_perm _ _ _ HP), Hf.
  rewrite (sum_terms_ext V' (fun u => f u * f u) (fun u => f' u * f' u));
    [reflexivity|].
  intros u _. now rewrite Hf.
Qed.

(** The score of a resume does not depend on the order of the corpus. *)
Lemma similarity_perm (docs docs' : list string) (q r : string) :
  Permutation docs docs' -> similarity docs q r = similarity docs' q r.
Proof.
  intros HP. rewrite !similarity_sum.
  pose proof (vocabulary_perm _ _ HP) as HV.
  rewrite (sum_terms_perm _ _ _ HV).
  apply sum_terms_ext. intros t _.
  f_equal; apply normalized_perm; try exact HV; intros u;
    apply normalized_perm; try exact HV; intros v; now apply weight_perm.
Qed.

Lemma no_terms_perm (docs docs' : list string) :
  Permutation docs docs' -> no_terms docs = no_terms docs'.
Proof.
  intros HP. unfold no_terms.
  induction HP as [|d l l' HP IH|d d' l|l l' l'' H1 IH1 H2 IH2]; simpl.
  - reflexivity.
  - now rewrite IH.
  - destruct (analyze d), (analyze d'); reflexivity.
  - now rewrite IH1.
Qed.

End Reordering.

(** X4. Submitting the resumes in another order changes neither whether
    [rank_resumes] returns nor the score of any resume: the (text, score)
    pairs are the same up to order. *)
Theorem rank_resumes_order_independent
    (job_description : string) (texts texts' : list string) (scores : list R) :
  Permutation texts texts' ->
  rank_resumes job_description texts = Ok scores ->
  exists scores' : list R,
    rank_resumes job_description texts' = Ok scores'
    /\ Permutation (combine texts scores) (combine texts' scores').
Proof.
  intros HP Hs.
  assert (HPd : Permutation (job_description :: texts)
                            (job_description :: texts')) by now constructor.
  rewrite rank_resumes_unfold in Hs. rewrite rank_resumes_unfold.
  rewrite <- (no_terms_perm _ _ HPd).
  destruct (no_terms (job_description :: texts)); [discriminate|].
  destruct texts as [|r rs]; [discriminate|].
  destruct texts' as [|r' rs'];
    [apply Permutation_sym, Permutation_nil in HP; discriminate|].
  set (l := r :: rs) in *. set (l' := r' :: rs') in *.
  set (f := similarity (job_description :: l) job_description) in *.
  set (f' := similarity (job_description :: l') job_description).
  assert (E : scores = map f l) by congruence. subst scores.
  exists (map f' l'). split; [reflexivity|].
  assert (Hc : forall (g : string -> R) k,
             combine k (map g k) = map (fun x => (x, g x)) k).
  { intros g k. induction k as [|x k IH]; simpl; [reflexivity | now rewrite IH]. }
  rewrite !Hc.
  rewrite (map_ext (fun x => (x, f' x)) (fun x => (x, f x))).
  - now apply Permutation_map.
  - intros x. unfold f, f'. f_equal. symmetry. now apply similarity_perm.
Qed.

Lemma rank_resumes_order_independent_witness :
  exists scores scores' : list R,
    rank_resumes "Python developer" ["Go developer"; "Python tester"]
    = Ok scores
    /\ rank_resumes "Python developer" ["Python tester"; "Go developer"]
       = Ok scores'
    /\ Permutation (combine ["Go developer"; "Python tester"] scores)
                   (combine ["Python tester"; "Go developer"] scores').
Proof.
  pose (q := "Python developer").
  pose (texts := ["Go developer"; "Python tester"]).
  assert (Hs : rank_resumes q texts = Ok (map (similarity (q :: texts) q) texts))
    by (apply rank_resumes_scores; [reflexivity | discriminate]).
  destruct (rank_resumes_order_independent q texts
              ["Python tester"; "Go developer"] _ (perm_swap _ _ []) Hs)
    as (scores' & Hs' & HP).
  exists (map (similarity (q :: texts) q) texts), scores'.
  split; [exact Hs|]. split; [exact Hs' | exact HP].
Defined.

(** ** Further properties of the dashboard *)

(** Whatever shows, stores or exports a ranking comes from the branch in
    which [rank_resumes] returned. *)
Lemma rank_clicked_ranking_inv
    (round : R -> nat -> R) (repr : R -> string) (user_email job_title : string)
    (uploaded_files : list UploadedFile) (job_description : string)
    (ev : event) :
  In ev (rank_clicked round repr user_email job_title
                      uploaded_files job_description) ->
  presents_ranking ev = true ->
  let ex := process_files uploaded_files in
  exists scores : list R,
    rank_resumes job_description (resumes ex) = Ok scores
    /\ resumes ex <> []
    /\ let results_df :=
         results_frame round (fun x => (x * 100)%R) repr
                       (ranked Rltb (file_names ex) scores) in
       In ev [ dataframe results_df;
               bar_chart (firstn (Nat.min (List.length results_df) 10)
                                 results_df);
               save_ranking_history user_email
                 (if truthy job_title then job_title else "Unnamed Job")
                 job_description results_df;
               download_csv results_df;
               download_excel results_df ].
Proof.
  intros Hin Hev ex. unfold rank_clicked in Hin.
  destruct (rank_disabled uploaded_files job_description); [destruct Hin|].
  fold ex in Hin. apply in_app_or in Hin. destruct Hin as [Hin|Hin].
  { destruct (error_files ex); [destruct Hin|].
    destruct Hin as [<-|[]]. discriminate Hev. }
  destruct (resumes ex) as [|r rs] eqn:Er.
  { unfold rank_and_report in Hin. rewrite Er in Hin.
    destruct Hin as [<-|[]]. discriminate Hev. }
  destruct (rank_resumes job_description (r :: rs)) as [scores|e] eqn:Es.
  - exists scores. split; [reflexivity|]. split; [discriminate|].
    rewrite (rank_and_report_ranked _ _ _ _ _ ex scores) in Hin;
      [exact Hin | rewrite Er; discriminate | now rewrite Er].
  - unfold rank_and_report in Hin. rewrite Er, Es in Hin.
    destruct Hin as [<-|[]]. discriminate Hev.
Qed.

Lemma scored_lengths (uploaded_files : list UploadedFile) :
  List.length (resumes (process_files uploaded_files))
  = List.length (scored_files uploaded_files)
  /\ List.length (file_names (process_files uploaded_files))
     = List.length (scored_files uploaded_files).
Proof.
  destruct (process_files_filter uploaded_files) as (Hr & Hn & _).
  now rewrite Hr, Hn, !length_map.
Qed.

Lemma results_frame_length {score : Type}
    (round : score -> nat -> score) (times100 : score -> score)
    (repr : score -> string) (l : list (string * score)) :
  List.length (results_frame round times100 repr l) = List.length l.
Proof.
  rewrite <- (length_map Rank), <- results_frame_rank. apply length_seq.
Qed.

(** X5. The table of a ranking has exactly one row per file that passed
    the dashboard's test: its names are the names of these files, up to
    order, and its ranks are 1, ..., n for n such files. *)
Theorem ranking_has_one_row_per_scored_file
    (round : R -> nat -> R) (repr : R -> string) (user_email job_title : string)
    (uploaded_files : list UploadedFile) (job_description : string)
    (results_df : list (Row R)) :
  In (dataframe results_df)
     (rank_clicked round repr user_email job_title
                   uploaded_files job_description) ->
  Permutation (map Resume_Name results_df)
              (map name (scored_files uploaded_files))
  /\ map Rank results_df
     = seq 1 (List.length (scored_files uploaded_files)).
Proof.
  intros Hin.
  destruct (rank_clicked_ranking_inv _ _ _ _ _ _ _ Hin eq_refl)
    as (scores & Hs & Hne & Hev).
  cbv zeta in Hev.
  destruct Hev as [E|[E|[E|[E|[E|[]]]]]]; try discriminate E.
  injection E as <-.
  destruct (process_files_filter uploaded_files) as (Hr & Hn & _).
  destruct (scored_lengths uploaded_files) as (Lr & Ln).
  apply rank_resumes_returns in Hs.
  assert (Ls : List.length scores
               = List.length (file_names (process_files uploaded_files)))
    by (rewrite Hs, length_map; congruence).
  split.
  - rewrite results_frame_name, <- Hn.
    rewrite <- (map_fst_combine (file_names (process_files uploaded_files))
                                scores) at 2 by congruence.
    apply Permutation_map, ranked_perm.
  - rewrite <- results_frame_rank. f_equal.
    rewrite (Permutation_length (ranked_perm _ _ _)), length_combine.
    rewrite Ls, Ln. apply Nat.min_id.
Qed.

Lemma ranking_has_one_row_per_scored_file_witness :
  exists results_df : list (Row R),
    In (dataframe results_df)
       (rank_clicked round_id repr_blank "hr@example.org" ""
                     [corrupt; cv; scanned] "python developer")
    /\ Permutation (map Resume_Name results_df) ["cv.pdf"; "scan.pdf"]
    /\ map Rank results_df = [1; 2].
Proof.
  assert (Hp : process_files [corrupt; cv; scanned]
               = {| resumes := ["python developer"; "No readable text found."];
                    file_names := ["cv.pdf"; "scan.pdf"];
                    error_files := ["broken.pdf"] |})
    by (vm_compute; reflexivity).
  pose (scores := map (similarity ["python developer"; "python developer";
                                   "No readable text found."]
                                  "python developer")
                      ["python developer"; "No readable text found."]).
  assert (Hs : rank_resumes "python developer"
                 ["python developer"; "No readable text found."] = Ok scores)
    by (apply rank_resumes_scores; [vm_compute; reflexivity | discriminate]).
  pose (results_df := results_frame round_id (fun x => (x * 100)%R) repr_blank
                        (ranked Rltb ["cv.pdf"; "scan.pdf"] scores)).
  assert (Hin : In (dataframe results_df)
                   (rank_clicked round_id repr_blank "hr@example.org" ""
                                 [corrupt; cv; scanned] "python developer")).
  { unfold rank_clicked.
    change (rank_disabled [corrupt; cv; scanned] "python developer") with false.
    cbv iota. rewrite Hp. cbn [error_files app].
    rewrite (rank_and_report_ranked round_id repr_blank "hr@example.org" ""
               "python developer" _ scores); [|discriminate|exact Hs].
    right. left. reflexivity. }
  exists results_df. split; [exact Hin|].
  exact (ranking_has_one_row_per_scored_file round_id repr_blank
           "hr@example.org" "" [corrupt; cv; scanned] "python developer"
           results_df Hin).
Defined.

(** X6. A click stores a history entry only together with the ranking it
    shows: the stored results are the frame offered for download as CSV
    and as Excel, raw scores included, and the table on the screen is that
    frame without its Raw Score column; the entry is stored under the
    session's email and the job description typed, its job title is never
    empty and its ranking never has zero rows. *)
Theorem saved_history_extends_the_shown_ranking
    (round : R -> nat -> R) (repr : R -> string) (user_email job_title : string)
    (uploaded_files : list UploadedFile) (job_description : string)
    (email title description : string) (results : list (Row R)) :
  let events := rank_clicked round repr user_email job_title
                             uploaded_files job_description in
  In (save_ranking_history email title description results) events ->
  email = user_email
  /\ description = job_description
  /\ title = (if truthy job_title then job_title else "Unnamed Job")
  /\ title <> ""
  /\ results <> []
  /\ In (Some (drop_raw_score results)) (map shown_table events)
  /\ In (download_csv results) events
  /\ In (download_excel results) events.
Proof.
  intros events Hin.
  destruct (rank_clicked_ranking_inv _ _ _ _ _ _ _ Hin eq_refl)
    as (scores & Hs & Hne & Hev).
  cbv zeta in Hev.
  destruct Hev as [E|[E|[E|[E|[E|[]]]]]]; try discriminate E.
  injection E as <- <- <- <-.
  assert (Hev : events
                = (match error_files (process_files uploaded_files) with
                   | [] => []
                   | _ :: _ =>
                       [warning_could_not_process
                          (error_files (process_files uploaded_files))]
                   end)
                  ++ rank_and_report round repr user_email job_title
                       job_description (process_files uploaded_files)).
  { unfold events, rank_clicked in *.
    destruct (rank_disabled uploaded_files job_description);
      [destruct Hin | reflexivity]. }
  rewrite (rank_and_report_ranked _ _ _ _ _ _ scores Hne Hs) in Hev.
  cbv zeta in Hev.
  split; [reflexivity|]. split; [reflexivity|]. split; [reflexivity|].
  split; [destruct job_title; discriminate|].
  split.
  - intros E.
    apply (f_equal (@List.length (Row R))) in E.
    rewrite results_frame_length in E.
    rewrite (Permutation_length (ranked_perm _ _ _)), length_combine in E.
    destruct (scored_lengths uploaded_files) as (Lr & Ln).
    apply rank_resumes_returns in Hs.
    apply (f_equal (@List.length R)) in Hs. rewrite length_map in Hs.
    destruct (resumes (process_files uploaded_files)); [contradiction|].
    simpl in *. lia.
  - rewrite Hev. split; [|split].
    + rewrite map_app. apply in_or_app. right. left. reflexivity.
    + apply in_or_app. right. simpl. auto 10.
    + apply in_or_app. right. simpl. auto 10.
Qed.

(** The click of the examples: one broken file, one resume, one scan. *)
Lemma example_click :
  let scores := map (similarity ["python developer"; "python developer";
                                 "No readable text found."]
                                "python developer")
                    ["python developer"; "No readable text found."] in
  let results_df := results_frame round_id (fun x => (x * 100)%R) repr_blank
                      (ranked Rltb ["cv.pdf"; "scan.pdf"] scores) in
  rank_clicked round_id repr_blank "hr@example.org" ""
               [corrupt; cv; scanned] "python developer"
  = [ warning_could_not_process ["broken.pdf"];
      dataframe results_df;
      bar_chart (firstn (Nat.min (List.length results_df) 10) results_df);
      save_ranking_history "hr@example.org" "Unnamed Job" "python developer"
                           results_df;
      download_csv results_df;
      download_excel results_df ].
Proof.
  intros scores results_df.
  assert (Hp : process_files [corrupt; cv; scanned]
               = {| resumes := ["python developer"; "No readable text found."];
                    file_names := ["cv.pdf"; "scan.pdf"];
                    error_files := ["broken.pdf"] |})
    by (vm_compute; reflexivity).
  assert (Hs : rank_resumes "python developer"
                 ["python developer"; "No readable text found."] = Ok scores)
    by (apply rank_resumes_scores; [vm_compute; reflexivity | discriminate]).
  unfold rank_clicked.
  change (rank_disabled [corrupt; cv; scanned] "python developer") with false.
  cbv iota. rewrite Hp. cbn [error_files app].
  rewrite (rank_and_report_ranked round_id repr_blank "hr@example.org" ""
             "python developer" _ scores); [|discriminate|exact Hs].
  reflexivity.
Qed.

Lemma saved_history_extends_the_shown_ranking_witness :
  exists results : list (Row R),
    let events := rank_clicked round_id repr_blank "hr@example.org" ""
                               [corrupt; cv; scanned] "python developer" in
    In (save_ranking_history "hr@example.org" "Unnamed Job"
                             "python developer" results) events
    /\ "Unnamed Job" <> ""
    /\ results <> []
    /\ In (Some (drop_raw_score results)) (map shown_table events)
    /\ In (download_csv results) events
    /\ In (download_excel results) events.
Proof.
  pose (results :=
          results_frame round_id (fun x => (x * 100)%R) repr_blank
            (ranked Rltb ["cv.pdf"; "scan.pdf"]
               (map (similarity ["python developer"; "python developer";
                                 "No readable text found."]
                                "python developer")
                    ["python developer"; "No readable text found."]))).
  exists results. cbv zeta.
  assert (Hin : In (save_ranking_history "hr@example.org" "Unnamed Job"
                      "python developer" results)
                   (rank_clicked round_id repr_blank "hr@example.org" ""
                                 [corrupt; cv; scanned] "python developer")).
  { rewrite example_click. right. right. right. left. reflexivity. }
  split; [exact Hin|].
  apply (saved_history_extends_the_shown_ranking round_id repr_blank
           "hr@example.org" "" [corrupt; cv; scanned] "python developer"
           "hr@example.org" "Unnamed Job" "python developer" results Hin).
Defined.

(** ** The security functions *)

Lemma split_length (sep : ascii) (s : string) :
  List.length (Str.split sep s) = S (count_char sep s).
Proof.
  induction s as [|c s IH]; simpl; [reflexivity|].
  destruct (Ascii.eqb c sep); simpl; [now rewrite IH|].
  destruct (Str.split sep s); simpl in *; lia.
Qed.

Lemma split_no_sep (sep : ascii) (s : string) :
  count_char sep s = 0 -> Str.split sep s = [s].
Proof.
  induction s as [|c s IH]; simpl; [reflexivity|].
  destruct (Ascii.eqb c sep); simpl; [discriminate|].
  intros H. now rewrite IH.
Qed.

Lemma split_append (sep : ascii) (a b : string) :
  count_char sep a = 0 ->
  Str.split sep (a ++ String sep b) = a :: Str.split sep b.
Proof.
  induction a as [|c a IH]; simpl.
  - now rewrite Ascii.eqb_refl.
  - destruct (Ascii.eqb c sep); simpl; [discriminate|].
    intros H. now rewrite IH.
Qed.

Lemma count_char_append (c : ascii) (a b : string) :
  count_char c (a ++ b) = count_char c a + count_char c b.
Proof.
  induction a as [|x a IH]; simpl; [reflexivity|]. rewrite IH. lia.
Qed.

Lemma hex_digit_not_dollar (n : nat) : Ascii.eqb (Str.hex_digit n) dollar = false.
Proof.
  do 16 (destruct n as [|n]; [reflexivity|]). reflexivity.
Qed.

(** A hexadecimal string has no [$]. *)
Lemma hex_no_dollar (bs : list Byte.byte) : count_char dollar (Str.hex bs) = 0.
Proof.
  induction bs as [|b bs IH]; simpl; [reflexivity|].
  now rewrite !hex_digit_not_dollar, IH.
Qed.

Section SecurityFacts.

Variable sha256 : list Byte.byte -> list Byte.byte.

Lemma verify_password_split (salt hashed provided : string) :
  count_char dollar salt = 0 ->
  count_char dollar hashed = 0 ->
  verify_password sha256 (salt ++ "$" ++ hashed) provided
  = Ok (String.eqb hashed
          (Str.hex (sha256 (Str.encode salt ++ Str.encode provided)))).
Proof.
  intros Hs Hh. unfold verify_password.
  change (salt ++ "$" ++ hashed)%string
    with (salt ++ String dollar hashed)%string.
  now rewrite (split_append dollar salt hashed Hs), (split_no_sep _ _ Hh).
Qed.

Lemma hash_password_dollars (password : string) (salt : option string)
    (uuid4 : list Byte.byte) :
  count_char dollar (hash_password sha256 password salt uuid4)
  = S (match salt with
       | None => 0
       | Some salt => count_char dollar salt
       end).
Proof.
  unfold hash_password.
  rewrite count_char_append. simpl. rewrite hex_no_dollar.
  destruct salt; [lia | rewrite hex_no_dollar; lia].
Qed.

End SecurityFacts.

(** X10. A password hashed with a fresh salt verifies: [verify_password]
    on the stored string returns, with [True] for the password that was
    hashed and, for any other, the comparison of the two digests under
    the stored salt. *)
Theorem verify_hash_password_round_trip
    (sha256 : list Byte.byte -> list Byte.byte)
    (password provided : string) (uuid4 : list Byte.byte) :
  let stored := hash_password sha256 password None uuid4 in
  let salt := Str.hex uuid4 in
  verify_password sha256 stored password = Ok true
  /\ verify_password sha256 stored provided
     = Ok (String.eqb
             (Str.hex (sha256 (Str.encode salt ++ Str.encode password)))
             (Str.hex (sha256 (Str.encode salt ++ Str.encode provided)))).
Proof.
  intros stored salt. unfold stored, hash_password. fold salt.
  rewrite !verify_password_split by apply hex_no_dollar.
  split; [now rewrite String.eqb_refl | reflexivity].
Qed.

(** X11. [verify_password] returns exactly when the stored string has one
    [$]: without any it raises "not enough values to unpack", with two or
    more "too many values to unpack". *)
Theorem verify_password_unpacking
    (sha256 : list Byte.byte -> list Byte.byte)
    (stored_password provided_password : string) :
  match count_char dollar stored_password with
  | 0 => verify_password sha256 stored_password provided_password
         = Raise not_enough_values
  | 1 => exists b : bool,
           verify_password sha256 stored_password provided_password = Ok b
  | _ => verify_password sha256 stored_password provided_password
         = Raise too_many_values
  end.
Proof.
  pose proof (split_length dollar stored_password) as H.
  unfold verify_password.
  destruct (Str.split dollar stored_password) as [|a [|b [|c l]]];
    simpl in H; try discriminate H.
  - injection H as <-. reflexivity.
  - injection H as <-. eexists. reflexivity.
  - injection H as <-. reflexivity.
Qed.

(** X12. A salt given by the caller and containing [$] makes a stored
    string that can never be verified: [verify_password] raises on it,
    for the right password as for any other. *)
Theorem salt_with_dollar_never_verifies
    (sha256 : list Byte.byte -> list Byte.byte)
    (password provided salt : string) (uuid4 : list Byte.byte) :
  0 < count_char dollar salt ->
  verify_password sha256 (hash_password sha256 password (Some salt) uuid4)
                  provided
  = Raise too_many_values.
Proof.
  intros Hs.
  pose proof (split_length dollar
                (hash_password sha256 password (Some salt) uuid4)) as H.
  rewrite hash_password_dollars in H. unfold verify_password.
  destruct (Str.split dollar (hash_password sha256 password (Some salt) uuid4))
    as [|a [|b [|c l]]]; simpl in H; try lia. reflexivity.
Qed.

Lemma salt_with_dollar_never_verifies_witness :
  hash_password toy_digest "secret" (Some "pe$o") [] = "pe$o$7065246f736563726574"
  /\ verify_password toy_digest
       (hash_password toy_digest "secret" (Some "pe$o") []) "secret"
     = Raise too_many_values.
Proof.
  split; [vm_compute; reflexivity|].
  apply (salt_with_dollar_never_verifies toy_digest "secret" "secret" "pe$o" []).
  vm_compute. lia.
Defined.

(** ** The users table *)

Lemma fetch_user_email (db : Database) (email : string) (u : users.row) :
  fetch_user db email = Some u -> users.email u = email /\ In u (users_table db).
Proof.
  intros H. apply find_some in H. destruct H as [Hin He].
  apply String.eqb_eq in He. now split.
Qed.

Lemma fetch_user_none (db : Database) (email : string) :
  fetch_user db email = None <-> ~ In email (map users.email (users_table db)).
Proof.
  unfold fetch_user. split.
  - intros H Hin. apply in_map_iff in Hin. destruct Hin as (u & He & Hin).
    pose proof (find_none _ _ H u Hin) as Hf. simpl in Hf.
    rewrite He, String.eqb_refl in Hf. discriminate.
  - intros H. destruct (find _ _) as [u|] eqn:E; [|reflexivity].
    apply find_some in E. destruct E as [Hin He]. apply String.eqb_eq in He.
    exfalso. apply H. rewrite <- He. now apply in_map.
Qed.

Lemma fetch_user_app (users : list users.row) (hist : list ranking_history.row)
    (u : users.row) (email : string) :
  fetch_user {| users_table := users ++ [u]; ranking_history_table := hist |}
             email
  = match fetch_user {| users_table := users; ranking_history_table := hist |}
                     email with
    | Some x => Some x
    | None => if String.eqb (users.email u) email then Some u else None
    end.
Proof.
  unfold fetch_user. simpl. induction users as [|x users IH]; simpl.
  - reflexivity.
  - destruct (String.eqb (users.email x) email); [reflexivity | exact IH].
Qed.

Lemma fetch_user_update (db : Database) (email email' : string)
    (set : users.row -> users.row) :
  (forall u, users.email (set u) = users.email u) ->
  fetch_user (update_users db email set) email'
  = option_map (fun u => if String.eqb (users.email u) email then set u else u)
               (fetch_user db email').
Proof.
  intros Hset. unfold fetch_user, update_users. simpl.
  induction (users_table db) as [|x users IH]; simpl; [reflexivity|].
  assert (E : users.email (if String.eqb (users.email x) email then set x else x)
              = users.email x)
    by (destruct (String.eqb (users.email x) email); [apply Hset | reflexivity]).
  rewrite E. destruct (String.eqb (users.email x) email'); [reflexivity | exact IH].
Qed.

Lemma update_users_emails (db : Database) (email : string)
    (set : users.row -> users.row) :
  (forall u, users.email (set u) = users.email u) ->
  map users.email (users_table (update_users db email set))
  = map users.email (users_table db).
Proof.
  intros Hset. unfold update_users. simpl. rewrite map_map.
  apply map_ext. intros u.
  destruct (String.eqb (users.email u) email); [apply Hset | reflexivity].
Qed.

Lemma update_users_unknown (db : Database) (email : string)
    (set : users.row -> users.row) :
  fetch_user db email = None ->
  users_table (update_users db email set) = users_table db.
Proof.
  intros H. unfold update_users. simpl.
  rewrite <- (map_id (users_table db)) at 2. apply map_ext_in.
  intros u Hin. pose proof (find_none _ _ H u Hin) as Hf. simpl in Hf.
  now rewrite Hf.
Qed.

Lemma update_users_well_formed (db : Database) (email : string)
    (set : users.row -> users.row) :
  (forall u, users.email (set u) = users.email u) ->
  (forall u, count_char dollar (users.password u) = 1 ->
             count_char dollar (users.password (set u)) = 1) ->
  well_formed_db db -> well_formed_db (update_users db email set).
Proof.
  intros He Hp [Hn Hf]. split.
  - now rewrite update_users_emails.
  - unfold update_users. simpl. apply Forall_map.
    revert Hf. apply Forall_impl. intros u Hu.
    destruct (String.eqb (users.email u) email); [now apply Hp | exact Hu].
Qed.

Section UserFacts.

Variable sha256 : list Byte.byte -> list Byte.byte.

Lemma fresh_hash_well_formed (password : string) (uuid4 : list Byte.byte) :
  count_char dollar (hash_password sha256 password None uuid4) = 1.
Proof. now rewrite hash_password_dollars. Qed.

Lemma verify_password_well_formed (stored provided : string) :
  count_char dollar stored = 1 ->
  exists b, verify_password sha256 stored provided = Ok b.
Proof.
  intros H. pose proof (split_length dollar stored) as Hl. rewrite H in Hl.
  unfold verify_password.
  destruct (Str.split dollar stored) as [|a [|b [|c l]]]; try discriminate Hl.
  eexists. reflexivity.
Qed.

Lemma save_user_fresh (db : Database) (email password name now : string)
    (uuid4 : list Byte.byte) :
  fetch_user db email = None ->
  save_user sha256 db email password name now uuid4
  = (true,
     {| users_table :=
          users_table db
          ++ [ {| users.email := email;
                  users.password := hash_password sha256 password None uuid4;
                  users.name := name;
                  users.job_title := "";
                  users.company := "";
                  users.date_joined := now;
                  users.last_login := now |} ];
        ranking_history_table := ranking_history_table db |}).
Proof. intros H. unfold save_user. now rewrite H. Qed.

Lemma save_user_well_formed (db : Database) (email password name now : string)
    (uuid4 : list Byte.byte) :
  well_formed_db db ->
  well_formed_db (snd (save_user sha256 db email password name now uuid4)).
Proof.
  intros [Hn Hf]. unfold save_user.
  destruct (fetch_user db email) eqn:E; simpl; [now split|].
  split; simpl.
  - rewrite map_app. simpl. apply NoDup_app.
    + exact Hn.
    + repeat constructor. intros [].
    + intros x Hx [<-|[]]. now apply fetch_user_none in E.
  - apply Forall_app. split; [exact Hf|].
    repeat constructor. simpl. apply fresh_hash_well_formed.
Qed.

End UserFacts.

Section AccountFacts.

Variable sha256 : list Byte.byte -> list Byte.byte.

Lemma verify_fresh_hash (password : string) (uuid4 : list Byte.byte) :
  verify_password sha256 (hash_password sha256 password None uuid4) password
  = Ok true.
Proof.
  unfold hash_password.
  rewrite verify_password_split by apply hex_no_dollar.
  now rewrite String.eqb_refl.
Qed.

Lemma authenticate_user_cases (db : Database) (email password now : string)
    (b : bool) (db' : Database) :
  authenticate_user sha256 db email password now = Ok (b, db') ->
  (b = false /\ db' = db)
  \/ (b = true
      /\ db' = update_users db email (set_last_login now)
      /\ exists u, fetch_user db email = Some u
                   /\ verify_password sha256 (users.password u) password
                      = Ok true).
Proof.
  unfold authenticate_user.
  destruct (fetch_user db email) as [u|] eqn:E.
  - destruct (verify_password sha256 (users.password u) password)
      as [[|]|e] eqn:V; simpl; intros H; try discriminate H.
    + injection H as <- <-. right. split; [reflexivity|].
      split; [reflexivity|]. now exists u.
    + injection H as <- <-. now left.
  - intros H. injection H as <- <-. now left.
Qed.

Lemma change_password_cases (db : Database)
    (email current new : string) (uuid4 : list Byte.byte)
    (ok : bool) (msg : string) (db' : Database) :
  change_password sha256 db email current new uuid4 = Ok (ok, msg, db') ->
  (ok = false /\ db' = db
   /\ (msg = "User not found" \/ msg = "Current password is incorrect"))
  \/ (ok = true /\ msg = "Password changed successfully"
      /\ db' = update_users db email
                 (set_password (hash_password sha256 new None uuid4))
      /\ exists u, fetch_user db email = Some u).
Proof.
  unfold change_password.
  destruct (fetch_user db email) as [u|] eqn:E.
  - destruct (verify_password sha256 (users.password u) current)
      as [[|]|e] eqn:V; simpl; intros H; try discriminate H.
    + injection H as <- <- <-. right. repeat split. now exists u.
    + injection H as <- <- <-. left. repeat split. now right.
  - intros H. injection H as <- <- <-. left. repeat split. now left.
Qed.

End AccountFacts.

(** X13. Registration and login compose: after [save_user] on an email
    that is not yet registered, [authenticate_user] with the same password
    returns [True], and the profile then read back carries the name given,
    empty job title and company, the registration time and the login
    time. *)
Theorem registered_user_can_log_in
    (sha256 : list Byte.byte -> list Byte.byte) (db : Database)
    (email password name now later : string) (uuid4 : list Byte.byte) :
  fetch_user db email = None ->
  exists db1 db2 : Database,
    save_user sha256 db email password name now uuid4 = (true, db1)
    /\ authenticate_user sha256 db1 email password later = Ok (true, db2)
    /\ get_user_profile db2 email
       = Some {| profile.email := email;
                 profile.name := name;
                 profile.job_title := "";
                 profile.company := "";
                 profile.date_joined := now;
                 profile.last_login := later |}.
Proof.
  intros Hnew. destruct db as [users hist].
  eexists. eexists. split; [now apply save_user_fresh|].
  simpl users_table. simpl ranking_history_table.
  assert (Hf : fetch_user
                 {| users_table :=
                      users ++ [ {| users.email := email;
                                    users.password :=
                                      hash_password sha256 password None uuid4;
                                    users.name := name;
                                    users.job_title := "";
                                    users.company := "";
                                    users.date_joined := now;
                                    users.last_login := now |} ];
                    ranking_history_table := hist |} email
               = Some {| users.email := email;
                         users.password :=
                           hash_password sha256 password None uuid4;
                         users.name := name;
                         users.job_title := "";
                         users.company := "";
                         users.date_joined := now;
                         users.last_login := now |}).
  { rewrite fetch_user_app, Hnew. simpl. now rewrite String.eqb_refl. }
  split.
  - unfold authenticate_user. rewrite Hf. simpl users.password.
    rewrite verify_fresh_hash. reflexivity.
  - unfold get_user_profile.
    rewrite fetch_user_update by reflexivity. rewrite Hf. simpl.
    now rewrite String.eqb_refl.
Qed.

Lemma registered_user_can_log_in_witness :
  exists db1 db2 : Database,
    save_user toy_digest init_db "ann@example.org" "secret" "Ann"
              "2025-01-01 09:00:00" [] = (true, db1)
    /\ authenticate_user toy_digest db1 "ann@example.org" "secret"
                         "2025-01-02 10:30:00" = Ok (true, db2)
    /\ get_user_profile db2 "ann@example.org"
       = Some {| profile.email := "ann@example.org";
                 profile.name := "Ann";
                 profile.job_title := "";
                 profile.company := "";
                 profile.date_joined := "2025-01-01 09:00:00";
                 profile.last_login := "2025-01-02 10:30:00" |}.
Proof.
  apply (registered_user_can_log_in toy_digest init_db "ann@example.org"
           "secret" "Ann" "2025-01-01 09:00:00" "2025-01-02 10:30:00" []).
  reflexivity.
Defined.

(** X14. An email is registered once: after a successful [save_user],
    another [save_user] for the same email returns [False] and leaves the
    database, the first password included, as it was. *)
Theorem second_registration_is_refused
    (sha256 : list Byte.byte -> list Byte.byte) (db db1 : Database)
    (email password name now : string) (uuid4 : list Byte.byte)
    (password' name' now' : string) (uuid4' : list Byte.byte) :
  save_user sha256 db email password name now uuid4 = (true, db1) ->
  save_user sha256 db1 email password' name' now' uuid4' = (false, db1).
Proof.
  intros H. unfold save_user in H.
  destruct (fetch_user db email) eqn:E; [discriminate H|].
  injection H as <-. destruct db as [users hist]. simpl.
  unfold save_user. rewrite fetch_user_app, E. simpl.
  now rewrite String.eqb_refl.
Qed.

Lemma second_registration_is_refused_witness :
  exists db1 : Database,
    save_user toy_digest init_db "ann@example.org" "secret" "Ann"
              "2025-01-01 09:00:00" [] = (true, db1)
    /\ save_user toy_digest db1 "ann@example.org" "other" "Eve"
                 "2025-01-03 08:00:00" [] = (false, db1).
Proof.
  eexists. split; [reflexivity|].
  apply (second_registration_is_refused toy_digest init_db _ "ann@example.org"
           "secret" "Ann" "2025-01-01 09:00:00" []
           "other" "Eve" "2025-01-03 08:00:00" []).
  reflexivity.
Defined.

Lemma init_db_well_formed : well_formed_db init_db.
Proof. split; constructor. Qed.

(** X15. The user management functions keep the database well formed (one
    row per email, every stored password of the form [salt$hash]), and on
    a well-formed database neither [authenticate_user] nor
    [change_password] raises. *)
Theorem account_functions_keep_database_well_formed
    (sha256 : list Byte.byte -> list Byte.byte) (db : Database) :
  well_formed_db db ->
  (forall email password name now uuid4,
      well_formed_db
        (snd (save_user sha256 db email password name now uuid4)))
  /\ (forall email password now,
         exists (b : bool) (db' : Database),
           authenticate_user sha256 db email password now = Ok (b, db')
           /\ well_formed_db db')
  /\ (forall email name job_title company,
         well_formed_db (snd (update_profile db email name job_title company)))
  /\ (forall email current new uuid4,
         exists (ok : bool) (msg : string) (db' : Database),
           change_password sha256 db email current new uuid4
           = Ok (ok, msg, db')
           /\ well_formed_db db').
Proof.
  intros Hwf. split; [|split; [|split]].
  - intros. now apply save_user_well_formed.
  - intros email password now. unfold authenticate_user.
    destruct (fetch_user db email) as [u|] eqn:E.
    + destruct Hwf as [Hn Hf]. apply fetch_user_email in E.
      destruct E as [_ Hin]. rewrite Forall_forall in Hf.
      destruct (verify_password_well_formed sha256 _ password (Hf u Hin))
        as [b Hb].
      rewrite Hb. simpl. destruct b.
      * eexists. eexists. split; [reflexivity|].
        apply update_users_well_formed; try (intros; assumption || reflexivity).
        split; [exact Hn | now apply Forall_forall].
      * eexists. eexists. split; [reflexivity|].
        split; [exact Hn | now apply Forall_forall].
    + eexists. eexists. split; [reflexivity | exact Hwf].
  - intros. simpl.
    apply update_users_well_formed; [reflexivity | now intros | exact Hwf].
  - intros email current new uuid4. unfold change_password.
    destruct (fetch_user db email) as [u|] eqn:E.
    + pose proof Hwf as [Hn Hf]. apply fetch_user_email in E.
      destruct E as [_ Hin]. rewrite Forall_forall in Hf.
      destruct (verify_password_well_formed sha256 _ current (Hf u Hin))
        as [b Hb].
      rewrite Hb. simpl. destruct b; simpl.
      * do 3 eexists. split; [reflexivity|].
        apply update_users_well_formed; try exact Hwf; [reflexivity|].
        intros v _. simpl. apply fresh_hash_well_formed.
      * do 3 eexists. split; [reflexivity | exact Hwf].
    + do 3 eexists. split; [reflexivity | exact Hwf].
Qed.

Lemma account_functions_keep_database_well_formed_witness :
  well_formed_db init_db
  /\ well_formed_db
       (snd (save_user toy_digest init_db "ann@example.org" "secret" "Ann"
                       "2025-01-01 09:00:00" [])).
Proof.
  split; [exact init_db_well_formed|].
  apply (account_functions_keep_database_well_formed toy_digest init_db
           init_db_well_formed).
Defined.

(** X16. [change_password] either fails and leaves the database as it
    was, with the message "User not found" or "Current password is
    incorrect", or succeeds, and then the new password logs the user in
    while every other user's row is untouched. *)
Theorem change_password_outcome
    (sha256 : list Byte.byte -> list Byte.byte) (db db' : Database)
    (email current new later : string) (uuid4 : list Byte.byte)
    (ok : bool) (msg : string) :
  change_password sha256 db email current new uuid4 = Ok (ok, msg, db') ->
  if ok then
    msg = "Password changed successfully"
    /\ (exists db'' : Database,
           authenticate_user sha256 db' email new later = Ok (true, db''))
    /\ (forall other, other <> email ->
                      fetch_user db' other = fetch_user db other)
  else
    db' = db
    /\ (msg = "User not found" \/ msg = "Current password is incorrect").
Proof.
  intros H. apply change_password_cases in H.
  destruct H as [(-> & -> & Hm)|(-> & -> & -> & u & Hu)]; [now split|].
  split; [reflexivity|]. split.
  - unfold authenticate_user.
    rewrite fetch_user_update by reflexivity. rewrite Hu. simpl.
    destruct (fetch_user_email _ _ _ Hu) as [He _].
    rewrite He, String.eqb_refl. simpl users.password.
    rewrite verify_fresh_hash. simpl. eexists. reflexivity.
  - intros other Hne. rewrite fetch_user_update by reflexivity.
    destruct (fetch_user db other) as [v|] eqn:Ev; [|reflexivity]. simpl.
    destruct (fetch_user_email _ _ _ Ev) as [He _]. rewrite He.
    destruct (String.eqb other email) eqn:Eo; [|reflexivity].
    apply String.eqb_eq in Eo. contradiction.
Qed.

Lemma change_password_outcome_witness :
  let db := snd (save_user toy_digest init_db "ann@example.org" "secret" "Ann"
                           "2025-01-01 09:00:00" []) in
  exists db' : Database,
    change_password toy_digest db "ann@example.org" "secret" "better" []
    = Ok (true, "Password changed successfully", db')
    /\ (exists db'' : Database,
           authenticate_user toy_digest db' "ann@example.org" "better"
                             "2025-01-02 10:30:00" = Ok (true, db''))
    /\ (forall other, other <> "ann@example.org" ->
                      fetch_user db' other = fetch_user db other).
Proof.
  intros db. eexists.
  assert (H : change_password toy_digest db "ann@example.org" "secret"
                "better" []
              = Ok (true, "Password changed successfully", _))
    by (vm_compute; reflexivity).
  split; [exact H|].
  apply (change_password_outcome toy_digest db _ "ann@example.org" "secret"
           "better" "2025-01-02 10:30:00" [] true _ H).
Defined.

(** X17. [update_profile] always returns [True]: for an email without a
    row it changes nothing, and for a registered email it sets the name,
    job title and company and keeps the password, the registration time
    and the last login. *)
Theorem update_profile_effect
    (db : Database) (email name job_title company : string) :
  fst (update_profile db email name job_title company) = true
  /\ match fetch_user db email with
     | None =>
         users_table (snd (update_profile db email name job_title company))
         = users_table db
     | Some u =>
         fetch_user (snd (update_profile db email name job_title company))
                    email
         = Some {| users.email := email;
                   users.password := users.password u;
                   users.name := name;
                   users.job_title := job_title;
                   users.company := company;
                   users.date_joined := users.date_joined u;
                   users.last_login := users.last_login u |}
     end.
Proof.
  split; [reflexivity|]. simpl.
  destruct (fetch_user db email) as [u|] eqn:E.
  - rewrite fetch_user_update by reflexivity. rewrite E. simpl.
    destruct (fetch_user_email _ _ _ E) as [He _].
    rewrite He, String.eqb_refl. unfold set_profile. now rewrite He.
  - now apply update_users_unknown.
Qed.

(** X18. A login attempt that returns changes nothing but the last login
    of the row of that email: a refused attempt leaves the database as it
    was; an accepted one replaces that row by the same row with
    [last_login] set to the time of the login, and keeps every other
    user's row, hence every email, password, name, job title, company and
    registration time, and the ranking history. *)
Theorem authenticate_user_frame
    (sha256 : list Byte.byte -> list Byte.byte) (db db' : Database)
    (email password now : string) (b : bool) :
  authenticate_user sha256 db email password now = Ok (b, db') ->
  (b = false -> db' = db)
  /\ (b = true ->
      exists u : users.row,
        fetch_user db email = Some u
        /\ fetch_user db' email
           = Some {| users.email := users.email u;
                     users.password := users.password u;
                     users.name := users.name u;
                     users.job_title := users.job_title u;
                     users.company := users.company u;
                     users.date_joined := users.date_joined u;
                     users.last_login := now |})
  /\ (forall other, other <> email ->
                    fetch_user db' other = fetch_user db other)
  /\ map (fun u => (users.email u, users.password u, users.name u,
                    users.job_title u, users.company u, users.date_joined u))
         (users_table db')
     = map (fun u => (users.email u, users.password u, users.name u,
                      users.job_title u, users.company u,
                      users.date_joined u))
           (users_table db)
  /\ ranking_history_table db' = ranking_history_table db.
Proof.
  intros H. apply authenticate_user_cases in H.
  destruct H as [(-> & ->)|(-> & -> & u & Hu & _)].
  { split; [reflexivity|]. split; [discriminate|]. now repeat split. }
  split; [discriminate|]. split; [|split; [|split; [|reflexivity]]].
  - intros _. exists u. split; [exact Hu|].
    rewrite fetch_user_update by reflexivity. rewrite Hu. simpl.
    destruct (fetch_user_email _ _ _ Hu) as [He _].
    rewrite He, String.eqb_refl. f_equal. destruct u. simpl in He.
    subst. reflexivity.
  - intros other Hne. rewrite fetch_user_update by reflexivity.
    destruct (fetch_user db other) as [v|] eqn:Ev; [|reflexivity]. simpl.
    destruct (fetch_user_email _ _ _ Ev) as [He _]. rewrite He.
    destruct (String.eqb other email) eqn:Eo; [|reflexivity].
    apply String.eqb_eq in Eo. contradiction.
  - unfold update_users. simpl. rewrite map_map. apply map_ext. intros v.
    now destruct (String.eqb (users.email v) email).
Qed.

Lemma authenticate_user_frame_witness :
  let db := snd (save_user toy_digest init_db "ann@example.org" "secret" "Ann"
                           "2025-01-01 09:00:00" []) in
  exists db' : Database,
    authenticate_user toy_digest db "ann@example.org" "secret"
                      "2025-01-02 10:30:00" = Ok (true, db')
    /\ fetch_user db' "ann@example.org"
       = Some {| users.email := "ann@example.org";
                 users.password := "$736563726574";
                 users.name := "Ann";
                 users.job_title := "";
                 users.company := "";
                 users.date_joined := "2025-01-01 09:00:00";
                 users.last_login := "2025-01-02 10:30:00" |}
    /\ (forall other, other <> "ann@example.org" ->
                      fetch_user db' other = fetch_user db other)
    /\ ranking_history_table db' = ranking_history_table db.
Proof.
  intros db. eexists.
  assert (H : authenticate_user toy_digest db "ann@example.org" "secret"
                "2025-01-02 10:30:00" = Ok (true, _))
    by (vm_compute; reflexivity).
  split; [exact H|].
  destruct (authenticate_user_frame toy_digest db _ "ann@example.org" "secret"
              "2025-01-02 10:30:00" true H) as (_ & _ & Ho & _ & Hh).
  split; [vm_compute; reflexivity|]. split; [exact Ho | exact Hh].
Defined.

(** ** The history tab *)

Section HistoryTabFacts.

Context {frame : Type}.
Variable read_json : string -> result frame.

Lemma iterrows_spec (history : list ranking_history.row)
    (row : option ranking_history.row) :
  iterrows (frame := frame) history row
  = (map (fun r => expander (ranking_history.job_title r)
                            (ranking_history.timestamp r)
                            (ranking_history.description r)) history,
     match rev history with
     | [] => row
     | r :: _ => Some r
     end).
Proof.
  revert row; induction history as [|r history IH]; intros row; simpl.
  - reflexivity.
  - rewrite IH. f_equal.
    destruct (rev history) as [|x l] eqn:E; simpl; reflexivity.
Qed.

(** X19. The history tab shows one expander per history row but the
    results of one row only, the last of the query; the results of every
    other row are never displayed.  Without history it shows the note "No
    ranking history found" and, the loop variable being unbound, the
    warning "Error loading results data" as well. *)
Theorem history_tab_shows_last_results_only
    (history : list ranking_history.row) :
  history_tab read_json history
  = match rev history with
    | [] => [info_no_history; warning_error_loading]
    | r :: _ =>
        map (fun r => expander (ranking_history.job_title r)
                               (ranking_history.timestamp r)
                               (ranking_history.description r)) history
        ++ [results_widget read_json r]
    end.
Proof.
  unfold history_tab. destruct history as [|h history]; [reflexivity|].
  rewrite iterrows_spec.
  destruct (rev (h :: history)) as [|r l] eqn:E.
  - apply (f_equal (@List.length _)) in E. rewrite length_rev in E.
    discriminate E.
  - unfold results_widget.
    now destruct (read_json (ranking_history.results r)).
Qed.

End HistoryTabFacts.

(** ** Sessions *)

Lemma registered_fetch (db : Database) (email : string) :
  registered db email <-> fetch_user db email <> None.
Proof.
  unfold registered. pose proof (fetch_user_none db email) as H.
  destruct (in_dec string_dec email (map users.email (users_table db)))
    as [Hin|Hout].
  - split; [|tauto]. intros _ E. apply H in E. contradiction.
  - split; [tauto|]. intros E. exfalso. apply E, H, Hout.
Qed.

Lemma well_formed_same_users (db db' : Database) :
  users_table db' = users_table db -> well_formed_db db -> well_formed_db db'.
Proof. unfold well_formed_db. now intros ->. Qed.

Lemma registered_same_emails (db db' : Database) (email : string) :
  map users.email (users_table db') = map users.email (users_table db) ->
  registered db email -> registered db' email.
Proof. unfold registered. now intros ->. Qed.

Lemma get_user_profile_registered (db : Database) (email : string) :
  registered db email ->
  exists p, get_user_profile db email = Some p /\ profile.email p = email.
Proof.
  intros H. apply registered_fetch in H. unfold get_user_profile.
  destruct (fetch_user db email) as [u|] eqn:E; [|contradiction].
  eexists. split; [reflexivity|]. simpl. now apply fetch_user_email in E.
Qed.

Section Totality.

Variable sha256 : list Byte.byte -> list Byte.byte.

Lemma authenticate_user_total (db : Database) (email password now : string) :
  well_formed_db db ->
  exists (b : bool) (db' : Database),
    authenticate_user sha256 db email password now = Ok (b, db')
    /\ well_formed_db db'
    /\ map users.email (users_table db') = map users.email (users_table db)
    /\ (b = true -> registered db email).
Proof.
  intros Hwf. unfold authenticate_user.
  destruct (fetch_user db email) as [u|] eqn:E.
  - assert (Hreg : registered db email)
      by (apply registered_fetch; rewrite E; discriminate).
    pose proof Hwf as [_ Hf]. destruct (fetch_user_email _ _ _ E) as [_ Hin].
    rewrite Forall_forall in Hf.
    destruct (verify_password_well_formed sha256 _ password (Hf u Hin))
      as [b Hb].
    rewrite Hb. simpl. destruct b.
    + do 2 eexists. split; [reflexivity|]. split; [|split].
      * apply update_users_well_formed; [reflexivity | now intros | exact Hwf].
      * now apply update_users_emails.
      * intros _. exact Hreg.
    + do 2 eexists. split; [reflexivity|]. split; [exact Hwf|].
      split; [reflexivity | discriminate].
  - do 2 eexists. split; [reflexivity|]. split; [exact Hwf|].
    split; [reflexivity | discriminate].
Qed.

Lemma change_password_total (db : Database)
    (email current new : string) (uuid4 : list Byte.byte) :
  well_formed_db db ->
  exists (ok : bool) (msg : string) (db' : Database),
    change_password sha256 db email current new uuid4 = Ok (ok, msg, db')
    /\ well_formed_db db'
    /\ map users.email (users_table db') = map users.email (users_table db).
Proof.
  intros Hwf. unfold change_password.
  destruct (fetch_user db email) as [u|] eqn:E.
  - pose proof Hwf as [_ Hf]. destruct (fetch_user_email _ _ _ E) as [_ Hin].
    rewrite Forall_forall in Hf.
    destruct (verify_password_well_formed sha256 _ current (Hf u Hin))
      as [b Hb].
    rewrite Hb. simpl. destruct b; simpl.
    + do 3 eexists. split; [reflexivity|]. split.
      * apply update_users_well_formed; [reflexivity | | exact Hwf].
        intros v _. simpl. apply fresh_hash_well_formed.
      * now apply update_users_emails.
    + do 3 eexists. split; [reflexivity|]. now split.
  - do 3 eexists. split; [reflexivity|]. now split.
Qed.

Lemma save_user_emails (db : Database) (email password name now : string)
    (uuid4 : list Byte.byte) (email' : string) :
  registered db email' ->
  registered (snd (save_user sha256 db email password name now uuid4)) email'.
Proof.
  unfold save_user, registered.
  destruct (fetch_user db email); simpl; [tauto|].
  intros H. rewrite map_app. apply in_or_app. now left.
Qed.

End Totality.

Section Commit.

Variable to_json : list (Row R) -> string.

Lemma commit_users_table (db : Database) (now : string) (events : list event) :
  users_table (commit to_json db now events) = users_table db.
Proof.
  unfold commit. revert db; induction events as [|ev events IH]; intros db.
  - reflexivity.
  - simpl. rewrite IH. now destruct ev.
Qed.

End Commit.

Section SessionFacts.

Variable sha256 : list Byte.byte -> list Byte.byte.
Variable round : R -> nat -> R.
Variable repr : R -> string.
Variable to_json : list (Row R) -> string.

Lemma render_sidebar_ok (s : SessionState) (db : Database) (c : click)
    (r : Run) :
  well_formed_db db -> session_ok s db -> authenticated s = true ->
  render_sidebar s db c = Some r -> run_ok r.
Proof.
  intros Hwf Hs Ha Hr. unfold session_ok in Hs. rewrite Ha in Hs.
  destruct Hs as [Hu _].
  destruct c; simpl in Hr; try discriminate Hr; injection Hr as <-;
    (split; [reflexivity|]; split; [exact Hwf|]); unfold session_ok; simpl.
  - rewrite Ha. split; [exact Hu | now left].
  - rewrite Ha. split; [exact Hu | now right].
  - repeat split. now left.
Qed.

Lemma show_dashboard_ok (s : SessionState) (db : Database) (c : click)
    (now : string) :
  well_formed_db db -> session_ok s db -> authenticated s = true ->
  run_ok (show_dashboard round repr to_json s db c now).
Proof.
  intros Hwf Hs Ha.
  assert (Hd : run_ok (display s db [])) by (split; [reflexivity | now split]).
  destruct c; try exact Hd. unfold show_dashboard.
  pose proof Hs as Hs'. unfold session_ok in Hs'. rewrite Ha in Hs'.
  destruct Hs' as [(email & name & Hu & Hn & Hreg) Hp]. rewrite Hu.
  split; [reflexivity|]. simpl. split.
  - eapply well_formed_same_users; [apply commit_users_table | exact Hwf].
  - unfold session_ok. rewrite Ha. split; [|exact Hp].
    exists email, name. repeat split; try assumption.
    eapply registered_same_emails; [|exact Hreg].
    now rewrite commit_users_table.
Qed.

Lemma show_profile_page_ok (s : SessionState) (db : Database) (c : click)
    (uuid4 : list Byte.byte) :
  well_formed_db db -> session_ok s db -> authenticated s = true ->
  run_ok (show_profile_page sha256 s db c uuid4).
Proof.
  intros Hwf Hs Ha.
  assert (Hd : forall shown, run_ok (display s db shown))
    by (intros; split; [reflexivity | now split]).
  pose proof Hs as Hs'. unfold session_ok in Hs'. rewrite Ha in Hs'.
  destruct Hs' as [(email & name & Hu & Hn & Hreg) Hp].
  unfold show_profile_page. rewrite Hu.
  destruct (get_user_profile_registered db email Hreg) as (p & Hg & He).
  rewrite Hg, He.
  assert (Hk : forall db' shown,
             well_formed_db db' ->
             map users.email (users_table db')
             = map users.email (users_table db) ->
             run_ok (display s db' shown)).
  { intros db' shown Hwf' Hem. split; [reflexivity|]. split; [exact Hwf'|].
    simpl. unfold session_ok. rewrite Ha. split; [|exact Hp].
    exists email, name. repeat split; try assumption.
    now apply (registered_same_emails db). }
  destruct c; try apply Hd.
  - (* Save Profile *)
    simpl. split; [reflexivity|]. simpl. split.
    + apply update_users_well_formed; [reflexivity | now intros | exact Hwf].
    + unfold session_ok. simpl. rewrite Ha. split; [|exact Hp].
      exists email, name0. repeat split; try assumption.
      apply (registered_same_emails db); [|exact Hreg].
      now apply update_users_emails.
  - (* Update Password *)
    destruct (negb (truthy current_password) || negb (truthy new_password)
              || negb (truthy confirm_new_password)); [apply Hd|].
    destruct (negb (String.eqb new_password confirm_new_password));
      [apply Hd|].
    destruct (change_password_total sha256 db email current_password
                new_password uuid4 Hwf) as (ok & msg & db' & E & Hwf' & Hem).
    rewrite E. destruct ok; now apply Hk.
Qed.

Lemma show_login_page_ok (s : SessionState) (db : Database) (c : click)
    (now : string) :
  well_formed_db db -> session_ok s db -> authenticated s = false ->
  run_ok (show_login_page sha256 s db c now).
Proof.
  intros Hwf Hs Ha.
  assert (Hd : forall shown, run_ok (display s db shown))
    by (intros; split; [reflexivity | now split]).
  pose proof Hs as Hs'. unfold session_ok in Hs'. rewrite Ha in Hs'.
  destruct Hs' as (Hu & Hn & Hp).
  destruct c; try apply Hd.
  - (* Login *)
    unfold show_login_page.
    destruct (authenticate_user_total sha256 db login_email login_password
                now Hwf) as (b & db' & E & Hwf' & Hem & Hreg).
    rewrite E. destruct b.
    + assert (Hreg' : registered db' login_email)
        by (apply (registered_same_emails db); auto).
      destruct (get_user_profile_registered db' login_email Hreg')
        as (p & Hg & He).
      rewrite Hg. split; [reflexivity|]. split; [exact Hwf'|].
      simpl. unfold session_ok. simpl. split; [|now left].
      exists login_email, (profile.name p). now repeat split.
    + split; [reflexivity|]. split; [exact Hwf'|].
      simpl. unfold session_ok. rewrite Ha. now repeat split.
  - (* Register *)
    split; [reflexivity|]. split; [exact Hwf|].
    simpl. unfold session_ok. simpl. rewrite Ha. repeat split; auto.
Qed.

Lemma show_register_page_ok (s : SessionState) (db : Database) (c : click)
    (now : string) (uuid4 : list Byte.byte) :
  well_formed_db db -> session_ok s db -> authenticated s = false ->
  run_ok (show_register_page sha256 s db c now uuid4).
Proof.
  intros Hwf Hs Ha.
  assert (Hd : forall shown, run_ok (display s db shown))
    by (intros; split; [reflexivity | now split]).
  pose proof Hs as Hs'. unfold session_ok in Hs'. rewrite Ha in Hs'.
  destruct Hs' as (Hu & Hn & Hp).
  assert (Hl : forall db' shown,
             well_formed_db db' ->
             run_ok (rerun (set_current_page s "login") db' shown)).
  { intros db' shown Hwf'. split; [reflexivity|]. split; [exact Hwf'|].
    simpl. unfold session_ok. simpl. rewrite Ha. repeat split; auto. }
  destruct c; try apply Hd.
  - unfold show_register_page.
    destruct (negb (truthy reg_email) || negb (truthy reg_password));
      [apply Hd|].
    destruct (negb (contains "@" reg_email) || negb (contains "." reg_email));
      [apply Hd|].
    destruct (negb (String.eqb reg_password reg_confirm_password));
      [apply Hd|].
    pose proof (save_user_well_formed sha256 db reg_email reg_password
                  reg_name now uuid4 Hwf) as Hwf'.
    destruct (save_user sha256 db reg_email reg_password reg_name now uuid4)
      as [saved db'].
    simpl in Hwf'. destruct saved; now apply Hl.
  - now apply Hl.
Qed.

(** Every run keeps the database well formed and the session in
    agreement with it, and ends without exception. *)
Lemma main_ok (s : SessionState) (db : Database) (c : click)
    (now : string) (uuid4 : list Byte.byte) :
  well_formed_db db -> session_ok s db ->
  run_ok (main sha256 round repr to_json s db c now uuid4).
Proof.
  intros Hwf Hs.
  assert (Hd : run_ok (display s db [])) by (split; [reflexivity | now split]).
  unfold main. destruct (authenticated s) eqn:Ha.
  - destruct (render_sidebar s db c) as [r|] eqn:Er.
    + now apply (render_sidebar_ok s db c r).
    + destruct (String.eqb (current_page s) "dashboard");
        [now apply show_dashboard_ok|].
      destruct (String.eqb (current_page s) "profile");
        [now apply show_profile_page_ok | exact Hd].
  - destruct (String.eqb (current_page s) "login");
      [now apply show_login_page_ok|].
    destruct (String.eqb (current_page s) "register");
      [now apply show_register_page_ok | exact Hd].
Qed.

End SessionFacts.

Lemma initial_session_ok : session_ok initial_session init_db.
Proof. unfold session_ok. simpl. repeat split. now left. Qed.

Lemma runs_ok
    (sha256 : list Byte.byte -> list Byte.byte)
    (round : R -> nat -> R) (repr : R -> string)
    (to_json : list (Row R) -> string)
    (clicks : list (click * string * list Byte.byte))
    (s : SessionState) (db : Database) :
  well_formed_db db -> session_ok s db ->
  well_formed_db (snd (runs sha256 round repr to_json s db clicks))
  /\ session_ok (fst (runs sha256 round repr to_json s db clicks))
                (snd (runs sha256 round repr to_json s db clicks)).
Proof.
  revert s db; induction clicks as [|[[c now] uuid4] clicks IH];
    intros s db Hwf Hs; simpl; [now split|].
  destruct (main_ok sha256 round repr to_json s db c now uuid4 Hwf Hs)
    as (_ & Hwf' & Hs').
  now apply IH.
Qed.

(** X20. Whatever buttons are pressed from the first run on, the
    database stays well formed and the session agrees with the page: an
    authenticated session is on the dashboard or the profile page with the
    email of a registered user, any other is on the login or registration
    page without email; and no run ends with an exception of the account
    functions. *)
Theorem reachable_sessions_are_consistent
    (sha256 : list Byte.byte -> list Byte.byte)
    (round : R -> nat -> R) (repr : R -> string)
    (to_json : list (Row R) -> string)
    (clicks : list (click * string * list Byte.byte)) :
  let state := runs sha256 round repr to_json initial_session init_db clicks in
  well_formed_db (snd state)
  /\ session_ok (fst state) (snd state)
  /\ forall c now uuid4,
       exception (main sha256 round repr to_json (fst state) (snd state)
                       c now uuid4) = None.
Proof.
  intros state.
  destruct (runs_ok sha256 round repr to_json clicks initial_session init_db
              init_db_well_formed initial_session_ok) as [Hwf Hs].
  fold state in Hwf, Hs. split; [exact Hwf|]. split; [exact Hs|].
  intros c now uuid4.
  now destruct (main_ok sha256 round repr to_json (fst state) (snd state)
                  c now uuid4 Hwf Hs).
Qed.

(** X21. A run authenticates a session only through the login button on
    the login page, for an email that has a row and a password that
    [verify_password] accepts against the stored one; the session then
    carries that email. *)
Theorem login_requires_verified_password
    (sha256 : list Byte.byte -> list Byte.byte)
    (round : R -> nat -> R) (repr : R -> string)
    (to_json : list (Row R) -> string)
    (s : SessionState) (db : Database) (c : click)
    (now : string) (uuid4 : list Byte.byte) :
  authenticated s = false ->
  authenticated (session (main sha256 round repr to_json s db c now uuid4))
  = true ->
  exists (email password : string) (u : users.row),
    c = Login_button email password
    /\ current_page s = "login"
    /\ fetch_user db email = Some u
    /\ verify_password sha256 (users.password u) password = Ok true
    /\ user_email (session (main sha256 round repr to_json s db c now uuid4))
       = Some email.
Proof.
  intros Ha. unfold main. rewrite Ha.
  destruct (String.eqb (current_page s) "login") eqn:Ep.
  - apply String.eqb_eq in Ep.
    destruct c; simpl; try (intros H; congruence).
    destruct (authenticate_user sha256 db login_email login_password now)
      as [[b db']|e] eqn:E; simpl; [|intros H; congruence].
    destruct b; simpl; [|intros H; congruence].
    apply authenticate_user_cases in E.
    destruct E as [[E _]|(_ & -> & u & Hu & Hv)]; [discriminate E|].
    intros _. exists login_email, login_password, u.
    repeat split; try assumption.
    now destruct (get_user_profile _ login_email).
  - destruct (String.eqb (current_page s) "register");
      [|simpl; intros H; congruence].
    destruct c; simpl; try (intros H; congruence).
    destruct (negb (truthy reg_email) || negb (truthy reg_password));
      [simpl; intros H; congruence|].
    destruct (negb (contains "@" reg_email) || negb (contains "." reg_email));
      [simpl; intros H; congruence|].
    destruct (negb (String.eqb reg_password reg_confirm_password));
      [simpl; intros H; congruence|].
    destruct (save_user sha256 db reg_email reg_password reg_name now uuid4)
      as [[|] db']; simpl; intros H; congruence.
Qed.

Lemma login_requires_verified_password_witness :
  let run := main toy_digest round_id repr_blank json_blank
                  initial_session example_db
                  (Login_button "ann@example.org" "secret")
                  "2025-01-02 10:30:00" [] in
  authenticated (session run) = true
  /\ exists (email password : string) (u : users.row),
       Login_button "ann@example.org" "secret" = Login_button email password
       /\ current_page initial_session = "login"
       /\ fetch_user example_db email = Some u
       /\ verify_password toy_digest (users.password u) password = Ok true
       /\ user_email (session run) = Some email.
Proof.
  intros run.
  assert (H : authenticated (session run) = true) by (vm_compute; reflexivity).
  split; [exact H|].
  exact (login_requires_verified_password toy_digest round_id repr_blank
           json_blank initial_session example_db
           (Login_button "ann@example.org" "secret")
           "2025-01-02 10:30:00" [] eq_refl H).
Defined.

Section RegistrationFacts.

Variable sha256 : list Byte.byte -> list Byte.byte.
Variable round : R -> nat -> R.
Variable repr : R -> string.
Variable to_json : list (Row R) -> string.

Lemma authenticate_user_emails (db db' : Database)
    (email password now : string) (b : bool) :
  authenticate_user sha256 db email password now = Ok (b, db') ->
  map users.email (users_table db') = map users.email (users_table db).
Proof.
  intros H. apply authenticate_user_cases in H.
  destruct H as [(_ & ->)|(_ & -> & _)]; [reflexivity|].
  now apply update_users_emails.
Qed.

Lemma change_password_emails (db db' : Database)
    (email current new : string) (uuid4 : list Byte.byte)
    (ok : bool) (msg : string) :
  change_password sha256 db email current new uuid4 = Ok (ok, msg, db') ->
  map users.email (users_table db') = map users.email (users_table db).
Proof.
  intros H. apply change_password_cases in H.
  destruct H as [(_ & -> & _)|(_ & _ & -> & _)]; [reflexivity|].
  now apply update_users_emails.
Qed.

(** The runs of an authenticated session register no one. *)
Lemma authenticated_run_emails (s : SessionState) (db : Database) (c : click)
    (now : string) (uuid4 : list Byte.byte) :
  authenticated s = true ->
  map users.email
      (users_table (database (main sha256 round repr to_json s db c now uuid4)))
  = map users.email (users_table db).
Proof.
  intros Ha. unfold main. rewrite Ha.
  destruct (render_sidebar s db c) as [r|] eqn:Er.
  { destruct c; simpl in Er; try discriminate Er; now injection Er as <-. }
  destruct (String.eqb (current_page s) "dashboard").
  { destruct c; try reflexivity. unfold show_dashboard.
    destruct (user_email s); simpl.
    - now rewrite commit_users_table.
    - now destruct (existsb is_save _). }
  destruct (String.eqb (current_page s) "profile"); [|reflexivity].
  unfold show_profile_page.
  destruct (match user_email s with
            | Some email => get_user_profile db email
            | None => None
            end) as [p|]; [|reflexivity].
  destruct c; try reflexivity.
  - simpl. now apply update_users_emails.
  - destruct (negb (truthy current_password) || negb (truthy new_password)
              || negb (truthy confirm_new_password)); [reflexivity|].
    destruct (negb (String.eqb new_password confirm_new_password));
      [reflexivity|].
    destruct (change_password sha256 db (profile.email p) current_password
                new_password uuid4) as [[[ok msg] db']|e] eqn:E;
      [|reflexivity].
    apply change_password_emails in E. now destruct ok.
Qed.

End RegistrationFacts.

(** X22. A run adds a row to the users table only through the register
    button of the registration page, and only when the email and the
    password are not empty, the email contains "@" and ".", the two
    passwords are equal and the email has no row yet; the new row is that
    email's, and the page goes back to the login. *)
Theorem registration_requires_valid_fields
    (sha256 : list Byte.byte -> list Byte.byte)
    (round : R -> nat -> R) (repr : R -> string)
    (to_json : list (Row R) -> string)
    (s : SessionState) (db : Database) (c : click)
    (now : string) (uuid4 : list Byte.byte) :
  let run := main sha256 round repr to_json s db c now uuid4 in
  map users.email (users_table (database run))
  <> map users.email (users_table db) ->
  exists reg_email reg_name reg_password : string,
    c = Register_button reg_email reg_name reg_password reg_password
    /\ authenticated s = false
    /\ current_page s = "register"
    /\ truthy reg_email = true
    /\ truthy reg_password = true
    /\ contains "@" reg_email = true
    /\ contains "." reg_email = true
    /\ ~ registered db reg_email
    /\ map users.email (users_table (database run))
       = map users.email (users_table db) ++ [reg_email]
    /\ current_page (session run) = "login".
Proof.
  intros run Hne. unfold run in *. clear run.
  destruct (authenticated s) eqn:Ha.
  { exfalso. apply Hne. now apply authenticated_run_emails. }
  unfold main in *. rewrite Ha in *.
  destruct (String.eqb (current_page s) "login") eqn:El.
  { exfalso. apply Hne. destruct c; try reflexivity. simpl.
    destruct (authenticate_user sha256 db login_email login_password now)
      as [[b db']|e] eqn:E; [|reflexivity].
    apply authenticate_user_emails in E.
    destruct b; [|exact E].
    now destruct (get_user_profile db' login_email). }
  destruct (String.eqb (current_page s) "register") eqn:Er;
    [|exfalso; now apply Hne].
  apply String.eqb_eq in Er.
  destruct c; try (exfalso; now apply Hne).
  unfold show_register_page in *.
  destruct (truthy reg_email) eqn:T1; [|exfalso; now apply Hne].
  destruct (truthy reg_password) eqn:T2; [|exfalso; now apply Hne].
  simpl in *.
  destruct (contains "@" reg_email) eqn:C1; [|exfalso; now apply Hne].
  destruct (contains "." reg_email) eqn:C2; [|exfalso; now apply Hne].
  simpl in *.
  destruct (String.eqb reg_password reg_confirm_password) eqn:Eq;
    [|exfalso; now apply Hne].
  apply String.eqb_eq in Eq. subst reg_confirm_password. simpl in *.
  unfold save_user in *.
  destruct (fetch_user db reg_email) eqn:Ef; [exfalso; now apply Hne|].
  exists reg_email, reg_name, reg_password. simpl.
  repeat split; try assumption; try reflexivity.
  - now apply fetch_user_none.
  - now rewrite map_app.
Qed.

Lemma registration_requires_valid_fields_witness :
  let run := main toy_digest round_id repr_blank json_blank
                  (set_current_page initial_session "register") example_db
                  (Register_button "bob@example.org" "Bob" "hunter2" "hunter2")
                  "2025-01-05 12:00:00" [] in
  map users.email (users_table (database run))
  = ["ann@example.org"; "bob@example.org"]
  /\ exists reg_email reg_name reg_password : string,
       Register_button "bob@example.org" "Bob" "hunter2" "hunter2"
       = Register_button reg_email reg_name reg_password reg_password
       /\ authenticated (set_current_page initial_session "register") = false
       /\ current_page (set_current_page initial_session "register")
          = "register"
       /\ truthy reg_email = true
       /\ truthy reg_password = true
       /\ contains "@" reg_email = true
       /\ contains "." reg_email = true
       /\ ~ registered example_db reg_email
       /\ map users.email (users_table (database run))
          = map users.email (users_table example_db) ++ [reg_email]
       /\ current_page (session run) = "login".
Proof.
  intros run.
  assert (H : map users.email (users_table (database run))
              = ["ann@example.org"; "bob@example.org"])
    by (vm_compute; reflexivity).
  split; [exact H|].
  apply (registration_requires_valid_fields toy_digest round_id repr_blank
           json_blank (set_current_page initial_session "register") example_db
           (Register_button "bob@example.org" "Bob" "hunter2" "hunter2")
           "2025-01-05 12:00:00" []).
  fold run. rewrite H. vm_compute. discriminate.
Defined.

(** ** Rankings and the history table *)

Section HistoryFacts.

Variable round : R -> nat -> R.
Variable repr : R -> string.
Variable to_json : list (Row R) -> string.

(** The history rows that a click on the rank button inserts: one, for
    the ranking shown, or none. *)
Lemma commit_rank_clicked (db : Database) (now : string)
    (email job_title job_description : string)
    (uploaded_files : list UploadedFile) :
  let events := rank_clicked round repr email job_title
                             uploaded_files job_description in
  (existsb presents_ranking events = false
   /\ commit to_json db now events = db)
  \/ (existsb presents_ranking events = true
      /\ exists results_df,
           In (dataframe results_df) events
           /\ commit to_json db now events
              = History.save_ranking_history to_json db email
                  (if truthy job_title then job_title else "Unnamed Job")
                  job_description results_df now).
Proof.
  intros events. unfold events, rank_clicked.
  destruct (rank_disabled uploaded_files job_description); [now left|].
  set (ex := process_files uploaded_files).
  set (warn := match error_files ex with
               | [] => []
               | _ :: _ => [warning_could_not_process (error_files ex)]
               end).
  assert (Hw : existsb presents_ranking warn = false
               /\ forall d, commit to_json d now warn = d)
    by (unfold warn; destruct (error_files ex); split; reflexivity).
  destruct Hw as [Hw1 Hw2].
  assert (Hc : forall tail, commit to_json db now (warn ++ tail)
                            = commit to_json db now tail).
  { intros tail. unfold commit. rewrite fold_left_app.
    fold (commit to_json db now warn). now rewrite Hw2. }
  rewrite existsb_app, Hw1, Hc. simpl orb.
  destruct (resumes ex) as [|r rs] eqn:Er.
  { left. unfold rank_and_report. rewrite Er. now split. }
  destruct (rank_resumes job_description (resumes ex)) as [scores|e] eqn:Es.
  - right.
    assert (Hne : resumes ex <> []) by (rewrite Er; discriminate).
    rewrite (rank_and_report_ranked round repr email job_title
               job_description ex scores Hne Es).
    cbv zeta. split; [reflexivity|].
    eexists. split; [apply in_or_app; right; left; reflexivity|].
    reflexivity.
  - left. unfold rank_and_report. rewrite Er. rewrite Er in Es. rewrite Es.
    now split.
Qed.

End HistoryFacts.

(** X23. On the dashboard, the rank button changes the history table
    only: it appends one row when a ranking is shown and none otherwise;
    the row carries the session's email, the clock's time, the job
    description typed and a fresh id, so that the history of every other
    user, as [get_user_history] reads it, is unchanged. *)
Theorem ranking_is_saved_for_the_session_user
    (sha256 : list Byte.byte -> list Byte.byte)
    (round : R -> nat -> R) (repr : R -> string)
    (to_json : list (Row R) -> string)
    (order_by_timestamp_desc :
       list ranking_history.row -> list ranking_history.row)
    (s : SessionState) (db : Database)
    (job_title job_description : string) (uploaded_files : list UploadedFile)
    (now : string) (uuid4 : list Byte.byte) (email : string) :
  authenticated s = true ->
  current_page s = "dashboard" ->
  user_email s = Some email ->
  let events := rank_clicked round repr email job_title
                             uploaded_files job_description in
  let run := main sha256 round repr to_json s db
                  (Rank_resumes_button job_title job_description
                                       uploaded_files) now uuid4 in
  session run = s
  /\ messages run = [ranking_events events]
  /\ users_table (database run) = users_table db
  /\ (exists rows,
         ranking_history_table (database run)
         = ranking_history_table db ++ rows
         /\ List.length rows
            = (if existsb presents_ranking events then 1 else 0)
         /\ Forall (fun h => ranking_history.email h = email
                             /\ ranking_history.timestamp h = now
                             /\ ranking_history.description h = job_description
                             /\ ranking_history.id h = History.next_id db)
                   rows)
  /\ (forall other,
         other <> email ->
         History.get_user_history order_by_timestamp_desc (database run) other
         = History.get_user_history order_by_timestamp_desc db other).
Proof.
  intros Ha Hp Hu events run.
  assert (Hrun : run = display s (commit to_json db now events)
                               [ranking_events events]).
  { unfold run, main. rewrite Ha, Hp. simpl. unfold show_dashboard.
    now rewrite Hu. }
  rewrite Hrun. cbn [session messages database display].
  split; [reflexivity|]. split; [reflexivity|].
  split; [apply commit_users_table|].
  assert (Hrows : exists rows,
             ranking_history_table (commit to_json db now events)
             = ranking_history_table db ++ rows
             /\ List.length rows
                = (if existsb presents_ranking events then 1 else 0)
             /\ Forall (fun h => ranking_history.email h = email
                                 /\ ranking_history.timestamp h = now
                                 /\ ranking_history.description h
                                    = job_description
                                 /\ ranking_history.id h = History.next_id db)
                       rows).
  { unfold events.
    destruct (commit_rank_clicked round repr to_json db now email job_title
                job_description uploaded_files)
      as [[He Hc]|[He (df & _ & Hc)]]; rewrite He, Hc.
    - exists []. rewrite app_nil_r. repeat split. constructor.
    - eexists. split; [reflexivity|]. split; [reflexivity|].
      repeat constructor. }
  split; [exact Hrows|].
  intros other Hne. destruct Hrows as (rows & Hr & _ & Hf).
  unfold History.get_user_history. rewrite Hr. f_equal. rewrite filter_app.
  rewrite <- app_nil_r. f_equal. clear Hr.
  induction Hf as [|h rows (He & _) _ IH]; [reflexivity|]. simpl.
  rewrite He. destruct (String.eqb email other) eqn:E; [|exact IH].
  apply String.eqb_eq in E. congruence.
Qed.

Lemma ranking_is_saved_for_the_session_user_witness :
  let events := rank_clicked round_id repr_blank "ann@example.org" ""
                             [corrupt; cv; scanned] "python developer" in
  let run := main toy_digest round_id repr_blank json_blank
                  example_session example_db
                  (Rank_resumes_button "" "python developer"
                                       [corrupt; cv; scanned])
                  "2025-01-06 15:00:00" [] in
  session run = example_session
  /\ messages run = [ranking_events events]
  /\ users_table (database run) = users_table example_db
  /\ (exists rows,
         ranking_history_table (database run)
         = ranking_history_table example_db ++ rows
         /\ List.length rows
            = (if existsb presents_ranking events then 1 else 0)
         /\ Forall (fun h => ranking_history.email h = "ann@example.org"
                             /\ ranking_history.timestamp h
                                = "2025-01-06 15:00:00"
                             /\ ranking_history.description h
                                = "python developer"
                             /\ ranking_history.id h
                                = History.next_id example_db)
                   rows)
  /\ (forall other,
         other <> "ann@example.org" ->
         History.get_user_history (fun rows => rows) (database run) other
         = History.get_user_history (fun rows => rows) example_db other).
Proof.
  exact (ranking_is_saved_for_the_session_user toy_digest round_id repr_blank
           json_blank (fun rows => rows) example_session example_db
           "" "python developer" [corrupt; cv; scanned]
           "2025-01-06 15:00:00" [] "ann@example.org"
           eq_refl eq_refl eq_refl).
Defined.

Section HistoryIds.

Variable to_json : list (Row R) -> string.

Lemma next_id_above (db : Database) :
  Forall (fun h => ranking_history.id h < History.next_id db)
         (ranking_history_table db).
Proof.
  unfold History.next_id.
  induction (ranking_history_table db) as [|h rows IH]; constructor.
  - simpl. lia.
  - revert IH. apply Forall_impl. intros x Hx. simpl. lia.
Qed.

(** X24. [save_ranking_history] appends one row and touches no other:
    the row's id is larger than every id of the table, so that ids stay
    distinct, and the users table is unchanged. *)
Theorem save_ranking_history_appends_fresh_row
    (db : Database) (email job_title description : string)
    (results : list (Row R)) (now : string) :
  let db' := History.save_ranking_history to_json db email job_title
                                          description results now in
  users_table db' = users_table db
  /\ (exists row,
         ranking_history_table db' = ranking_history_table db ++ [row]
         /\ ranking_history.email row = email
         /\ ranking_history.timestamp row = now
         /\ ranking_history.results row = to_json results
         /\ Forall (fun h => ranking_history.id h < ranking_history.id row)
                   (ranking_history_table db))
  /\ (NoDup (map ranking_history.id (ranking_history_table db)) ->
      NoDup (map ranking_history.id (ranking_history_table db'))).
Proof.
  intros db'. split; [reflexivity|]. split.
  - eexists. split; [reflexivity|]. repeat split. apply next_id_above.
  - intros Hn. unfold db'. simpl. rewrite map_app. simpl.
    apply NoDup_app; [exact Hn | repeat constructor; intros [] |].
    intros i Hi [<-|[]]. apply in_map_iff in Hi.
    destruct Hi as (h & Hid & Hin).
    pose proof (next_id_above db) as Hf. rewrite Forall_forall in Hf.
    specialize (Hf h Hin). lia.
Qed.

End HistoryIds.

(** ** Failed files *)

(** X8. A file whose extraction raises, at opening or on a page, is
    never scored: it is listed among the error files, and the click first
    displays the warning that names it. *)
Theorem failed_extraction_is_reported
    (round : R -> nat -> R) (repr : R -> string) (user_email job_title : string)
    (uploaded_files : list UploadedFile) (job_description : string)
    (file : UploadedFile) (e : exn) :
  rank_disabled uploaded_files job_description = false ->
  In file uploaded_files ->
  extract_text_try file = Raise e ->
  extract_text_from_pdf file = error_message e
  /\ ~ In file (scored_files uploaded_files)
  /\ In (name file) (error_files (process_files uploaded_files))
  /\ hd_error (rank_clicked round repr user_email job_title
                            uploaded_files job_description)
     = Some (warning_could_not_process
               (error_files (process_files uploaded_files))).
Proof.
  intros Hen Hin He.
  pose proof (parse_failure_is_excluded file e He) as Herr.
  destruct (process_files_filter uploaded_files) as (_ & _ & Hef).
  assert (Hname : In (name file) (error_files (process_files uploaded_files))).
  { rewrite Hef. apply in_map, filter_In. now split. }
  split; [unfold extract_text_from_pdf; now rewrite He|].
  split.
  - unfold scored_files. rewrite filter_In. intros [_ H].
    rewrite Herr in H. discriminate.
  - split; [exact Hname|].
    unfold rank_clicked. rewrite Hen.
    destruct (error_files (process_files uploaded_files));
      [destruct Hname | reflexivity].
Qed.

Lemma failed_extraction_is_reported_witness :
  extract_text_try corrupt = Raise (Exception "EOF marker not found")
  /\ extract_text_from_pdf corrupt
     = error_message (Exception "EOF marker not found")
  /\ ~ In corrupt (scored_files [cv; corrupt])
  /\ In (name corrupt) (error_files (process_files [cv; corrupt]))
  /\ hd_error (rank_clicked round_id repr_blank "hr@example.org" ""
                            [cv; corrupt] "python developer")
     = Some (warning_could_not_process
               (error_files (process_files [cv; corrupt]))).
Proof.
  split; [reflexivity|].
  apply (failed_extraction_is_reported round_id repr_blank "hr@example.org" ""
           [cv; corrupt] "python developer" corrupt
           (Exception "EOF marker not found")).
  - reflexivity.
  - right. left. reflexivity.
  - reflexivity.
Defined.

(** ** Trimming *)

Lemma string_of_list_ascii_snoc (l : list ascii) (c : ascii) :
  string_of_list_ascii (l ++ [c])
  = (string_of_list_ascii l ++ String c EmptyString)%string.
Proof. induction l as [|x l IH]; simpl; [reflexivity | now rewrite IH]. Qed.

Lemma list_ascii_of_string_snoc (s : string) (c : ascii) :
  list_ascii_of_string (s ++ String c EmptyString)
  = list_ascii_of_string s ++ [c].
Proof. induction s as [|x s IH]; simpl; [reflexivity | now rewrite IH]. Qed.

Lemma reverse_cons (c : ascii) (s : string) :
  reverse (String c s) = (reverse s ++ String c EmptyString)%string.
Proof. unfold reverse. simpl. apply string_of_list_ascii_snoc. Qed.

Lemma reverse_snoc (c : ascii) (s : string) :
  reverse (s ++ String c EmptyString) = String c (reverse s).
Proof.
  unfold reverse. now rewrite list_ascii_of_string_snoc, rev_unit.
Qed.

Lemma reverse_involutive (s : string) : reverse (reverse s) = s.
Proof.
  unfold reverse.
  now rewrite list_ascii_of_string_of_list_ascii, rev_involutive,
    string_of_list_ascii_of_string.
Qed.

Lemma lstrip_starts (s : string) : starts_with_space (lstrip s) = false.
Proof.
  induction s as [|c s IH]; simpl; [reflexivity|].
  destruct (isspace c) eqn:E; [exact IH | exact E].
Qed.

Lemma lstrip_snoc (s : string) (c : ascii) :
  isspace c = false ->
  lstrip (s ++ String c EmptyString)
  = (lstrip s ++ String c EmptyString)%string.
Proof.
  intros Hc. induction s as [|x s IH]; simpl; [now rewrite Hc|].
  destruct (isspace x); [exact IH | reflexivity].
Qed.

Lemma rstrip_starts (s : string) :
  starts_with_space s = false -> starts_with_space (rstrip s) = false.
Proof.
  destruct s as [|c s]; [reflexivity|]. simpl. intros Hc.
  unfold rstrip. now rewrite reverse_cons, lstrip_snoc, reverse_snoc.
Qed.

Lemma strip_trimmed (s : string) :
  starts_with_space (strip s) = false /\ ends_with_space (strip s) = false.
Proof.
  unfold strip. split.
  - apply rstrip_starts, lstrip_starts.
  - unfold ends_with_space, rstrip.
    rewrite reverse_involutive. apply lstrip_starts.
Qed.

(** X9. A text that [extract_text_from_pdf] extracts, or the sentinel it
    returns instead, neither begins nor ends with whitespace: the newline
    added after the last page never reaches the scorer. *)
Theorem extracted_text_is_trimmed (file : UploadedFile) (text : string) :
  extract_text_try file = Ok text ->
  extract_text_from_pdf file = text
  /\ starts_with_space text = false
  /\ ends_with_space text = false.
Proof.
  intros H. split; [unfold extract_text_from_pdf; now rewrite H|].
  unfold extract_text_try in H.
  destruct (PdfReader file) as [pages|e]; [|discriminate H]. simpl in H.
  destruct (read_pages pages "") as [t|e]; [|discriminate H]. simpl in H.
  injection H as <-.
  destruct (truthy t); [apply strip_trimmed | split; reflexivity].
Qed.

Lemma extracted_text_is_trimmed_witness :
  let file := {| name := "two.pdf";
                 PdfReader := Ok [page "  first page "; page "last page  "] |} in
  let text := ("first page " ++ newline ++ "last page")%string in
  extract_text_try file = Ok text
  /\ extract_text_from_pdf file = text
  /\ starts_with_space text = false
  /\ ends_with_space text = false.
Proof.
  intros file text.
  assert (H : extract_text_try file = Ok text) by (vm_compute; reflexivity).
  split; [exact H|].
  exact (extracted_text_is_trimmed file text H).
Defined.

(** ** The order of the uploads *)

Lemma filter_perm {A} (f : A -> bool) (l l' : list A) :
  Permutation l l' -> Permutation (filter f l) (filter f l').
Proof.
  induction 1 as [|x l l' HP IH|x y l|l l' l'' H1 IH1 H2 IH2]; simpl.
  - constructor.
  - destruct (f x); [now constructor | exact IH].
  - destruct (f x), (f y); try reflexivity. apply perm_swap.
  - now transitivity (filter f l').
Qed.

Lemma results_frame_entries {score : Type}
    (round : score -> nat -> score) (times100 : score -> score)
    (repr : score -> string) (l : list (string * score)) :
  map row_entry (results_frame round times100 repr l)
  = map (fun e : string * score =>
           (fst e, (repr (round (times100 (snd e)) 1) ++ "%")%string,
            round (snd e) 4)) l.
Proof.
  unfold results_frame. rewrite map_map.
  etransitivity;
    [|apply (f_equal
               (map (fun e : string * score =>
                       (fst e,
                        (repr (round (times100 (snd e)) 1) ++ "%")%string,
                        round (snd e) 4)))
               (map_snd_combine_seq l 1))].
  rewrite map_map. apply map_ext. now intros [rank entry].
Qed.

Lemma combine_map_map {A B C} (f : A -> B) (g : A -> C) (l : list A) :
  combine (map f l) (map g l) = map (fun x => (f x, g x)) l.
Proof. induction l as [|x l IH]; simpl; [reflexivity | now rewrite IH]. Qed.

(** The entries that a click ranks: each scored file's name with the
    similarity of its text in the corpus of the click. *)
Lemma ranked_entries (uploaded_files : list UploadedFile)
    (job_description : string) (scores : list R) :
  rank_resumes job_description (resumes (process_files uploaded_files))
  = Ok scores ->
  combine (file_names (process_files uploaded_files)) scores
  = map (fun f =>
           (name f,
            similarity (job_description
                        :: map extract_text_from_pdf
                               (scored_files uploaded_files))
                       job_description (extract_text_from_pdf f)))
        (scored_files uploaded_files).
Proof.
  intros Hs. apply rank_resumes_returns in Hs.
  destruct (process_files_filter uploaded_files) as (Hr & Hn & _).
  rewrite Hs, Hn, Hr, map_map. apply combine_map_map.
Qed.

(** X7. Uploading the same files in another order gives the same
    ranking up to order: if a click shows a table, the click on the
    reordered files shows one too, with the same names, percentages and
    raw scores. *)
Theorem upload_order_keeps_entries
    (round : R -> nat -> R) (repr : R -> string) (user_email job_title : string)
    (uploaded_files uploaded_files' : list UploadedFile)
    (job_description : string) (results_df : list (Row R)) :
  Permutation uploaded_files uploaded_files' ->
  In (dataframe results_df)
     (rank_clicked round repr user_email job_title
                   uploaded_files job_description) ->
  exists results_df' : list (Row R),
    In (dataframe results_df')
       (rank_clicked round repr user_email job_title
                     uploaded_files' job_description)
    /\ Permutation (map row_entry results_df) (map row_entry results_df').
Proof.
  intros HP Hin.
  assert (Hen : rank_disabled uploaded_files job_description = false).
  { unfold rank_clicked in Hin.
    destruct (rank_disabled uploaded_files job_description);
      [destruct Hin | reflexivity]. }
  assert (Hen' : rank_disabled uploaded_files' job_description = false).
  { unfold rank_disabled in *. destruct uploaded_files as [|f l];
      [discriminate Hen|].
    destruct uploaded_files' as [|f' l'];
      [apply Permutation_sym, Permutation_nil in HP; discriminate | exact Hen]. }
  destruct (rank_clicked_ranking_inv _ _ _ _ _ _ _ Hin eq_refl)
    as (scores & Hs & Hne & Hev).
  cbv zeta in Hev.
  destruct Hev as [E|[E|[E|[E|[E|[]]]]]]; try discriminate E.
  injection E as <-.
  set (ex := process_files uploaded_files) in *.
  set (ex' := process_files uploaded_files').
  destruct (process_files_filter uploaded_files) as (Hr & Hn & _).
  destruct (process_files_filter uploaded_files') as (Hr' & Hn' & _).
  fold ex in Hr, Hn. fold ex' in Hr', Hn'.
  pose proof (filter_perm (fun f => negb (is_error_file f)) _ _ HP) as HPs.
  fold (scored_files uploaded_files) in HPs.
  fold (scored_files uploaded_files') in HPs.
  assert (HPr : Permutation (resumes ex) (resumes ex'))
    by (rewrite Hr, Hr'; now apply Permutation_map).
  assert (Hne' : resumes ex' <> []).
  { intros E. rewrite E in HPr.
    apply Permutation_sym, Permutation_nil in HPr. contradiction. }
  assert (Hs' : rank_resumes job_description (resumes ex')
                = Ok (map (similarity (job_description :: resumes ex')
                                      job_description) (resumes ex'))).
  { apply rank_resumes_scores; [|exact Hne'].
    rewrite <- (no_terms_perm (job_description :: resumes ex));
      [|now constructor].
    rewrite rank_resumes_unfold in Hs.
    destruct (no_terms (job_description :: resumes ex));
      [discriminate Hs | reflexivity]. }
  eexists. split.
  - unfold rank_clicked. rewrite Hen'. fold ex'. apply in_or_app. right.
    rewrite (rank_and_report_ranked _ _ _ _ _ _ _ Hne' Hs').
    left. reflexivity.
  - rewrite !results_frame_entries. apply Permutation_map.
    rewrite (ranked_perm Rltb), (ranked_perm Rltb).
    subst ex ex'.
    rewrite (ranked_entries uploaded_files job_description scores Hs).
    rewrite (ranked_entries uploaded_files' job_description _ Hs').
    rewrite (map_ext
               (fun f => (name f,
                          similarity (job_description
                                      :: map extract_text_from_pdf
                                             (scored_files uploaded_files'))
                                     job_description
                                     (extract_text_from_pdf f)))
               (fun f => (name f,
                          similarity (job_description
                                      :: map extract_text_from_pdf
                                             (scored_files uploaded_files))
                                     job_description
                                     (extract_text_from_pdf f)))).
    + now apply Permutation_map.
    + intros f. f_equal. apply similarity_perm. constructor.
      apply Permutation_map. now symmetry.
Qed.

Lemma upload_order_keeps_entries_witness :
  exists results_df results_df' : list (Row R),
    In (dataframe results_df)
       (rank_clicked round_id repr_blank "hr@example.org" ""
                     [cv; scanned] "python developer")
    /\ In (dataframe results_df')
          (rank_clicked round_id repr_blank "hr@example.org" ""
                        [scanned; cv] "python developer")
    /\ Permutation (map row_entry results_df) (map row_entry results_df').
Proof.
  assert (Hp : process_files [cv; scanned]
               = {| resumes := ["python developer"; "No readable text found."];
                    file_names := ["cv.pdf"; "scan.pdf"];
                    error_files := [] |})
    by (vm_compute; reflexivity).
  pose (scores := map (similarity ["python developer"; "python developer";
                                   "No readable text found."]
                                  "python developer")
                      ["python developer"; "No readable text found."]).
  assert (Hs : rank_resumes "python developer"
                 ["python developer"; "No readable text found."] = Ok scores)
    by (apply rank_resumes_scores; [vm_compute; reflexivity | discriminate]).
  pose (results_df := results_frame round_id (fun x => (x * 100)%R) repr_blank
                        (ranked Rltb ["cv.pdf"; "scan.pdf"] scores)).
  assert (Hin : In (dataframe results_df)
                   (rank_clicked round_id repr_blank "hr@example.org" ""
                                 [cv; scanned] "python developer")).
  { unfold rank_clicked.
    change (rank_disabled [cv; scanned] "python developer") with false.
    cbv iota. rewrite Hp. cbn [error_files app].
    rewrite (rank_and_report_ranked round_id repr_blank "hr@example.org" ""
               "python developer" _ scores); [|discriminate|exact Hs].
    left. reflexivity. }
  destruct (upload_order_keeps_entries round_id repr_blank "hr@example.org" ""
              [cv; scanned] [scanned; cv] "python developer" results_df
              (perm_swap _ _ []) Hin) as (results_df' & Hin' & HP).
  exists results_df, results_df'.
  split; [exact Hin|]. split; [exact Hin' | exact HP].
Defined.
